(** * rerun: re-run a shell command whenever the directory tree changes

    A model of [main.go].  The program keeps one [Rerun] value (wait group,
    command line, exiting flag, cancel function, filesystem watcher), starts
    the command in a goroutine, and on every filesystem event stops the
    running goroutine and starts a new one.

    The Go runtime and the operating system are made explicit as a [World]:
    the [Rerun] value, the contexts created so far, the goroutines launched
    by [Start], the process table and the log.  Every method of the source is
    a computation in the monad [M], whose outcomes are a normal return, a
    runtime panic, a call of [os.Exit], or a goroutine that stays blocked. *)

From Stdlib Require Import ZArith String List Bool Lia.
From stdpp Require Import base option list gmap sets strings.

#[local] Set Warnings "-clear-no-such-hyp".

Local Open Scope string_scope.
Local Open Scope list_scope.
Local Open Scope Z_scope.
Local Open Scope stdpp_scope.

(** ** Library values used by the source *)

(** [error] values the source handles: [nil], [filepath.SkipDir], and any
    other error (from [watcher.Add], [os.Stat], ...). *)
Inductive error : Type :=
| NoError
| SkipDir
| Failure (msg : string).

Definition is_nil (e : error) : bool :=
  match e with NoError => true | _ => false end.

Definition is_SkipDir (e : error) : bool :=
  match e with SkipDir => true | _ => false end.

(** [os.FileInfo], with the two methods the source calls. *)
Record FileInfo : Type := { Name : string; IsDir : bool }.

Module fsnotify.

(** [fsnotify.Op] is a bit mask. *)
Definition Create : Z := 1.
Definition Write : Z := 2.
Definition Remove : Z := 4.
Definition Rename : Z := 8.
Definition Chmod : Z := 16.

Record Event : Type := { EName : string; Op : Z }.

(** [event.Op&k == k] *)
Definition has (k : Z) (ev : Event) : bool := Z.eqb (Z.land (Op ev) k) k.

(** The zero value of [Event], which a receive on the closed [Events]
    channel yields. *)
Definition zero_Event : Event := {| EName := EmptyString; Op := 0 |}.

(** The watcher: the paths it holds a watch for, whether [Close] was called,
    and the error its subscription has offered on [Errors] and nobody has
    received.  [Events] and [Errors] are unbuffered channels served by one
    goroutine of the library: when it has an error to report it waits in the
    send on [Errors] until the error is received or the watcher is closed,
    and delivers no event in the meantime. *)
Record Watcher : Type :=
  { watches : gset string; closed : bool; Errors : option string }.

Definition NewWatcher : Watcher :=
  {| watches := ∅; closed := false; Errors := None |}.

(** [w.Add(path)]: fails on a closed watcher and when the operating system
    refuses the watch ([refused]); registering a path twice is allowed. *)
Definition Add (refused : bool) (path : string) (w : Watcher)
  : Watcher * error :=
  if closed w then (w, Failure "fsnotify: watcher already closed")
  else if refused then (w, Failure "cannot add watch")
  else ({| watches := {[path]} ∪ watches w; closed := closed w;
           Errors := Errors w |}, NoError).

(** [w.Remove(path)]: nil at once on a closed watcher; otherwise an error
    when the path is not registered. *)
Definition Remove_ (path : string) (w : Watcher) : Watcher * error :=
  if closed w then (w, NoError)
  else if decide (path ∈ watches w)
  then ({| watches := watches w ∖ {[path]}; closed := closed w;
           Errors := Errors w |}, NoError)
  else (w, Failure "fsnotify: can't remove non-existent watch").

(** [w.Close()]: the goroutine of the subscription ends, a send it was
    waiting in is given up (its error stays unreceived), and both channels
    are closed. *)
Definition Close (w : Watcher) : Watcher :=
  {| watches := watches w; closed := true; Errors := Errors w |}.

(** [w.WatchList()]: the registered paths; none once the watcher is
    closed. *)
Definition WatchList (w : Watcher) : gset string :=
  if closed w then ∅ else watches w.

(** Is the subscription waiting in its send on [Errors]? *)
Definition blocked (w : Watcher) : bool :=
  negb (closed w) && bool_decide (Errors w <> None).

(** The subscription has an error to report (a failed read, an overflow of
    the event queue): it starts to wait in its send on [Errors].  A closed
    subscription, or one that is waiting already, has nothing to report. *)
Definition offer (e : string) (w : Watcher) : Watcher :=
  if closed w then w
  else match Errors w with
       | Some _ => w
       | None => {| watches := watches w; closed := closed w; Errors := Some e |}
       end.

(** The library drops a watch by itself when the watched directory is
    deleted or moved. *)
Definition drop_watch (path : string) (w : Watcher) : Watcher :=
  {| watches := watches w ∖ {[path]}; closed := closed w; Errors := Errors w |}.

End fsnotify.

(** ** The directory tree seen by [filepath.Walk] *)

#[local] Set Warnings "-register-all".

Inductive Node : Type :=
| File (name : string)
| Dir (name : string) (entries : list Node).

Definition node_name (n : Node) : string :=
  match n with File s => s | Dir s _ => s end.

Definition node_info (n : Node) : FileInfo :=
  match n with
  | File s => {| Name := s; IsDir := false |}
  | Dir s _ => {| Name := s; IsDir := true |}
  end.

(** [filepath.Join(path, name)] for the clean paths [Walk] builds. *)
Definition Join (path name : string) : string := path +:+ "/" +:+ name.

(** ** The environment: what the operating system answers *)

Record Env : Type :=
  { NewWatcher_ok : bool;               (* fsnotify.NewWatcher succeeds *)
    Getwd : option string;              (* os.Getwd *)
    tree : Node;                        (* the tree rooted at the current directory *)
    Add_refused : string -> bool;       (* paths whose registration fails *)
    Stat : string -> option FileInfo }. (* os.Stat *)

(** ** The program state *)

(** Log lines, one constructor per logging call of the source. *)
Inductive Log : Type :=
| CalledStart                     (* Debug "Called Start()" *)
| StartedGoroutine                (* Debug "Started go routine for new command execution" *)
| CommandIsRunning (cmd : string) (* Debugf "Command is running: %q" *)
| CommandStopped                  (* Debug "Command has stoped and the go routine is closing" *)
| CalledStop                      (* Debug "Called Stop()" *)
| WaitingForWaitgroup             (* Debug "Waiting for waitgroup to be empty" *)
| IgnoringGit                     (* Debug "Ignoring .git directory" *)
| UnableToWatch (path : string)   (* Debugf "Unable to watch directory %q" *)
| AddedDir (path : string)        (* Debugf "Added %q directory to filesystem watcher" *)
| RemovedDir (path : string)      (* Debugf "Removed %q directory from filesystem watcher" *)
| CalledNewRerun                  (* Debug "Called NewRerun()" *)
| FatalWatcher                    (* Fatalf "Filesystem watcher error: %q" *)
| FatalGetwd                      (* Fatalf "Unable to determine current directory: %q" *)
| FindingSubDirs                  (* Debug "Finding sub directories to watch for changes" *)
| CalledCleanup                   (* Debug "Called cleanup()" *)
| StoppingWatcher                 (* Debug "Stopping the filesystem watcher" *)
| StartingMainLoop                (* Debug "Starting main loop" *)
| ReceivedEvent                   (* Debug "Filesystem watcher received an event" *)
| FileSystemEvent (ev : fsnotify.Event) (* Debug "File system event: " + event.String() *)
| UnableToStat (path : string)    (* Errorf "Unable to get filesystem info about %q" *)
| NoCommand.                      (* fmt.Println "You must provide a command to run" *)

(** The [Rerun] struct.  [cancel] is [None] for Go's nil function value and
    [Some c] for the cancel function of context [c]. *)
Record Rerun : Type :=
  { WaitGroup : Z;
    Command : string;
    exiting : bool;
    cancel : option nat;
    watcher : fsnotify.Watcher }.

(** A goroutine launched by [Start]: just launched, inside its [for/select]
    loop, or returned.  [g_cmd] is the process [cmd.Start()] created. *)
Inductive GState : Type := Spawned | Looping | Returned.

Record Goroutine : Type :=
  { g_ctx : nat; g_state : GState; g_cmd : option nat }.

(** An operating-system process: running, exited but not waited for, or
    reaped by a wait. *)
Inductive PState : Type := PRunning | PZombie | PReaped.

Record Proc : Type := { pgid : nat; ppid : nat; pstate : PState }.

Record World : Type :=
  { rerun : Rerun;
    ctxs : list bool;        (* ctxs !! c = Some true: context c is done *)
    gos : list Goroutine;
    procs : list Proc;       (* indexed by pid; pid 0 is rerun itself *)
    logs : list Log }.       (* oldest first *)

Definition zero_Rerun : Rerun :=
  {| WaitGroup := 0; Command := EmptyString; exiting := false; cancel := None;
     watcher := fsnotify.NewWatcher |}.

Definition init_world : World :=
  {| rerun := zero_Rerun; ctxs := []; gos := [];
     procs := [ {| pgid := 0; ppid := 0; pstate := PRunning |} ];
     logs := [] |}.

(** ** The monad of the program's computations *)

Inductive Outcome (A : Type) : Type :=
| Ret (a : A) (w : World)      (* returned normally *)
| Panic (w : World)            (* runtime panic: the process dies with status 2 *)
| Block (w : World)            (* blocked for ever *)
| Exit (code : Z) (w : World). (* os.Exit(code) *)

Arguments Ret {A} a w.
Arguments Panic {A} w.
Arguments Block {A} w.
Arguments Exit {A} code w.

Definition M (A : Type) : Type := World -> Outcome A.

Definition ret {A} (a : A) : M A := fun w => Ret a w.

Definition bind {A B} (m : M A) (k : A -> M B) : M B :=
  fun w =>
    match m w with
    | Ret a w' => k a w'
    | Panic w' => Panic w'
    | Block w' => Block w'
    | Exit c w' => Exit c w'
    end.

#[global] Instance M_ret : MRet M := @ret.
#[global] Instance M_bind : MBind M := fun A B k m => bind m k.

Definition gets {A} (f : World -> A) : M A := fun w => Ret (f w) w.
Definition modify (f : World -> World) : M unit := fun w => Ret tt (f w).
Definition panic {A} : M A := fun w => Panic w.
Definition block {A} : M A := fun w => Block w.
Definition os_Exit {A} (code : Z) : M A := fun w => Exit code w.

Definition with_rerun (f : Rerun -> Rerun) (w : World) : World :=
  {| rerun := f (rerun w); ctxs := ctxs w; gos := gos w; procs := procs w;
     logs := logs w |}.

Definition with_logs (f : list Log -> list Log) (w : World) : World :=
  {| rerun := rerun w; ctxs := ctxs w; gos := gos w; procs := procs w;
     logs := f (logs w) |}.

Definition log (l : Log) : M unit := modify (with_logs (fun ls => ls ++ [l])).

Definition set_watcher (x : fsnotify.Watcher) (r : Rerun) : Rerun :=
  {| WaitGroup := WaitGroup r; Command := Command r; exiting := exiting r;
     cancel := cancel r; watcher := x |}.

Definition set_cancel (c : option nat) (r : Rerun) : Rerun :=
  {| WaitGroup := WaitGroup r; Command := Command r; exiting := exiting r;
     cancel := c; watcher := watcher r |}.

Definition set_exiting (b : bool) (r : Rerun) : Rerun :=
  {| WaitGroup := WaitGroup r; Command := Command r; exiting := b;
     cancel := cancel r; watcher := watcher r |}.

Definition set_Command (s : string) (r : Rerun) : Rerun :=
  {| WaitGroup := WaitGroup r; Command := s; exiting := exiting r;
     cancel := cancel r; watcher := watcher r |}.

Definition set_WaitGroup (n : Z) (r : Rerun) : Rerun :=
  {| WaitGroup := n; Command := Command r; exiting := exiting r;
     cancel := cancel r; watcher := watcher r |}.

(** ** Watching directories *)

(** [r.watcher.Add(path)] *)
Definition watcher_Add (env : Env) (path : string) : M error :=
  fun w =>
    let '(x, e) := fsnotify.Add (Add_refused env path) path (watcher (rerun w)) in
    Ret e (with_rerun (set_watcher x) w).

(** [r.watcher.Remove(path)] *)
Definition watcher_Remove (path : string) : M error :=
  fun w =>
    let '(x, e) := fsnotify.Remove_ path (watcher (rerun w)) in
    Ret e (with_rerun (set_watcher x) w).

(** [func (r *Rerun) WatchDir(path string, f os.FileInfo, err error) error] *)
Definition WatchDir (env : Env) (path : string) (f : FileInfo) (err : error)
  : M error :=
  if IsDir f then
    if String.eqb (Name f) ".git" then
      log IgnoringGit ;;
      ret SkipDir
    else
      err ← watcher_Add env path;
      (if is_nil err then log (AddedDir path) else log (UnableToWatch path)) ;;
      ret err
  else ret err.

(** [func (r *Rerun) UnwatchDir(path string)] *)
Definition UnwatchDir (path : string) : M unit :=
  err ← watcher_Remove path;
  if is_nil err then log (RemovedDir path) else ret tt.

Module filepath.

(** The loop of [walk] over the entries of a directory: a non-nil result
    from an entry ends the walk with that result, except [SkipDir] from a
    directory entry, which only skips that entry. *)
Definition walk_entries (walk : string -> Node -> M error) (path : string)
  : list Node -> M error :=
  fix each (l : list Node) : M error :=
    match l with
    | [] => ret NoError
    | e :: l' =>
        err ← walk (Join path (node_name e)) e;
        if is_nil err then each l'
        else if negb (IsDir (node_info e)) || negb (is_SkipDir err)
             then ret err
             else each l'
    end.

(** [filepath.Walk]'s recursive helper: the function is called on the node
    first; on a directory a non-nil result ends the visit of that directory
    with that result, otherwise the entries are walked in order. *)
Fixpoint walk (fn : string -> FileInfo -> error -> M error)
         (path : string) (n : Node) {struct n} : M error :=
  match n with
  | File _ => fn path (node_info n) NoError
  | Dir _ entries =>
      err1 ← fn path (node_info n) NoError;
      if is_nil err1 then walk_entries (walk fn) path entries
      else ret err1
  end.

(** [filepath.Walk(root, fn)] on a root that [Lstat] finds. *)
Definition Walk (root : string) (n : Node)
           (fn : string -> FileInfo -> error -> M error) : M error :=
  err ← walk fn root n;
  if is_SkipDir err then ret NoError else ret err.

End filepath.

(** [func NewRerun(command string) *Rerun], up to the point where the signal
    goroutine is installed.  [log.Fatalf] logs and exits with status 1. *)
Definition NewRerun (env : Env) (command : string) : M unit :=
  log CalledNewRerun ;;
  modify (with_rerun (set_exiting false)) ;;
  modify (with_rerun (set_Command command)) ;;
  (if NewWatcher_ok env
   then modify (with_rerun (set_watcher fsnotify.NewWatcher))
   else log FatalWatcher ;; os_Exit 1) ;;
  match Getwd env with
  | None => log FatalGetwd ;; os_Exit 1
  | Some curDir =>
      log FindingSubDirs ;;
      _err ← filepath.Walk curDir (tree env) (WatchDir env);
      ret tt
  end.

(** ** Contexts, the wait group, processes *)

Definition with_ctxs (f : list bool -> list bool) (w : World) : World :=
  {| rerun := rerun w; ctxs := f (ctxs w); gos := gos w; procs := procs w;
     logs := logs w |}.

Definition with_gos (f : list Goroutine -> list Goroutine) (w : World) : World :=
  {| rerun := rerun w; ctxs := ctxs w; gos := f (gos w); procs := procs w;
     logs := logs w |}.

Definition with_procs (f : list Proc -> list Proc) (w : World) : World :=
  {| rerun := rerun w; ctxs := ctxs w; gos := gos w; procs := f (procs w);
     logs := logs w |}.

(** [context.WithCancel(context.Background())]: a fresh context, not done;
    the result stands for both the context and its cancel function. *)
Definition WithCancel : M nat :=
  fun w => Ret (length (ctxs w)) (with_ctxs (fun l => l ++ [false]) w).

(** Is [<-ctx.Done()] ready? *)
Definition ctx_done (c : nat) (w : World) : bool :=
  match ctxs w !! c with Some b => b | None => false end.

(** Calling the cancel function of context [c]; a second call changes
    nothing. *)
Definition ctx_cancel (c : nat) : M unit := modify (with_ctxs (<[c:=true]>)).

(** [wg.Add(delta)] panics when the counter becomes negative. *)
Definition wg_Add (delta : Z) : M unit :=
  fun w =>
    let n := WaitGroup (rerun w) + delta in
    if n <? 0 then Panic w else Ret tt (with_rerun (set_WaitGroup n) w).

Definition wg_Done : M unit := wg_Add (-1).

(** A process created by [parent]: it inherits the parent's process group. *)
Definition child_of (parent : nat) (ps : list Proc) : Proc :=
  {| pgid := match ps !! parent with Some p => pgid p | None => parent end;
     ppid := parent; pstate := PRunning |}.

(** A running process forks (what the shell does for the commands it runs). *)
Definition fork (parent : nat) (w : World) : World :=
  match procs w !! parent with
  | Some {| pstate := PRunning |} =>
      with_procs (fun ps => ps ++ [child_of parent ps]) w
  | _ => w
  end.

(** SIGKILL delivered to the one process [pid]: a running process becomes a
    zombie until its parent waits for it; no other process is affected. *)
Definition SIGKILL (pid : nat) (ps : list Proc) : list Proc :=
  match ps !! pid with
  | Some {| pgid := g; ppid := pp; pstate := PRunning |} =>
      <[pid := {| pgid := g; ppid := pp; pstate := PZombie |}]> ps
  | _ => ps
  end.

(** [os.Process.Kill()] *)
Definition Process_Kill (pid : nat) (w : World) : World :=
  with_procs (SIGKILL pid) w.

(** [exec.CommandContext(ctx, "sh", "-c", r.Command)] followed by
    [cmd.Start()], whose error the source drops.  No process is created when
    the context is already done or the start fails; otherwise the shell is a
    child of rerun (pid 0), in rerun's process group since no [SysProcAttr]
    is set. *)
Definition cmd_Start (start_ok : bool) (c : nat) : M (option nat) :=
  fun w =>
    if ctx_done c w || negb start_ok then Ret None w
    else Ret (Some (length (procs w)))
             (with_procs (fun ps => ps ++ [child_of 0%nat ps]) w).

(** The goroutine [cmd.Start()] leaves behind for a command with a context:
    once the context is done it calls [cmd.Process.Kill()]. *)
Definition exec_watch (g : Goroutine) (w : World) : World :=
  match g_cmd g with
  | Some pid => if ctx_done (g_ctx g) w then Process_Kill pid w else w
  | None => w
  end.

(** ** The goroutine of [Start] *)

Definition set_go (i : nat) (g : Goroutine) : M unit :=
  modify (with_gos (<[i := g]>)).

(** From the first line of the goroutine to its [for]/[select] loop. *)
Definition go_enter (start_ok : bool) (i : nat) : M unit :=
  fun w =>
    match gos w !! i with
    | Some {| g_ctx := c; g_state := Spawned |} =>
        (log StartedGoroutine ;;
         p ← cmd_Start start_ok c;
         cmd ← gets (fun w => Command (rerun w));
         log (CommandIsRunning cmd) ;;
         set_go i {| g_ctx := c; g_state := Looping; g_cmd := p |}) w
    | _ => Ret tt w
    end.

(** [case <-ctx.Done()]: log, return, and run the deferred [r.Done()]. *)
Definition go_leave (i : nat) : M unit :=
  fun w =>
    match gos w !! i with
    | Some {| g_ctx := c; g_state := Looping; g_cmd := p |} =>
        if ctx_done c w then
          (log CommandStopped ;;
           wg_Done ;;
           set_go i {| g_ctx := c; g_state := Returned; g_cmd := p |}) w
        else Ret tt w
    | _ => Ret tt w
    end.

Fixpoint for_each (l : list nat) (f : nat -> M unit) : M unit :=
  match l with
  | [] => ret tt
  | i :: l' => f i ;; for_each l' f
  end.

Definition all_gos : M (list nat) := gets (fun w => seq 0 (length (gos w))).

(** A goroutine whose context is done runs to its end. *)
Definition drain_one (i : nat) : M unit :=
  fun w =>
    match gos w !! i with
    | Some g => if ctx_done (g_ctx g) w
                then (go_enter true i ;; go_leave i) w else Ret tt w
    | None => Ret tt w
    end.

Definition drain : M unit :=
  ids ← all_gos;
  for_each ids drain_one.

(** The other goroutines get to run: every launched goroutine reaches its
    loop, those whose context is done return, and the watchers of
    [exec.CommandContext] kill their processes. *)
Definition tick (start_ok : bool) : M unit :=
  ids ← all_gos;
  for_each ids (go_enter start_ok) ;;
  for_each ids go_leave ;;
  modify (fun w => foldr exec_watch w (gos w)).

(** [wg.Wait()]: returns once the counter is zero, and blocks otherwise.
    Only the goroutines whose context is done can lower the counter, and
    they run to their end here; the others are scheduled by [tick], also
    from a world in which [Wait] is blocked. *)
Definition Wait : M unit :=
  drain ;;
  n ← gets (fun w => WaitGroup (rerun w));
  if n =? 0 then ret tt else block.

(** ** The methods of [Rerun] *)

(** [go func() { ... }()] *)
Definition go (c : nat) : M unit :=
  modify (with_gos
            (fun l => l ++ [ {| g_ctx := c; g_state := Spawned; g_cmd := None |} ])).

(** [func (r *Rerun) Start()] *)
Definition Start : M unit :=
  log CalledStart ;;
  ctx ← WithCancel;
  modify (with_rerun (set_cancel (Some ctx))) ;;
  ex ← gets (fun w => exiting (rerun w));
  if negb ex then
    wg_Add 1 ;;
    go ctx
  else ret tt.

(** [r.cancel()]: calling a nil function value panics. *)
Definition call_cancel : M unit :=
  c ← gets (fun w => cancel (rerun w));
  match c with
  | None => panic
  | Some c => ctx_cancel c
  end.

(** [func (r *Rerun) Stop()] *)
Definition Stop : M unit :=
  log CalledStop ;;
  call_cancel ;;
  log WaitingForWaitgroup ;;
  Wait.

(** [func (r *Rerun) cleanup()] *)
Definition cleanup : M unit :=
  log CalledCleanup ;;
  modify (with_rerun (set_exiting true)) ;;
  Stop ;;
  log StoppingWatcher ;;
  modify (with_rerun (fun r => set_watcher (fsnotify.Close (watcher r)) r)).

(** The goroutine [NewRerun] installs for SIGINT and SIGTERM, once a signal
    has arrived on its channel. *)
Definition signal_goroutine : M unit :=
  cleanup ;;
  os_Exit 1.

(** ** The controller *)

(** The body of the [case event := <-run.Events()] branch. *)
Definition handle_event (env : Env) (event : fsnotify.Event) : M unit :=
  log ReceivedEvent ;;
  log (FileSystemEvent event) ;;
  (if fsnotify.has fsnotify.Create event then
     match Stat env (fsnotify.EName event) with
     | None => log (UnableToStat (fsnotify.EName event))
     | Some fileInfo =>
         _ ← WatchDir env (fsnotify.EName event) fileInfo NoError; ret tt
     end
   else ret tt) ;;
  (if fsnotify.has fsnotify.Remove event
   then UnwatchDir (fsnotify.EName event) else ret tt) ;;
  Stop ;;
  Start.

(** What happens around the controller while it sits in its [select]: the
    subscription has an event for it (with the answers the operating system
    gives while the event is handled), the subscription has an error to
    report, the library drops the watch of a directory that is gone, the
    other goroutines run, a process forks, or a termination signal
    arrives. *)
Inductive Delivery : Type :=
| Received (env : Env) (event : fsnotify.Event)
| ErrorOffered (e : string)
| Scheduled (start_ok : bool)
| Forked (parent : nat)
| Signalled
| Dropped (path : string).

(** [case event := <-run.Events()] when the subscription has [event] for the
    loop.  On a closed watcher the channel is closed and the receive yields
    the zero event; a subscription that waits in its send on [Errors], which
    the program never receives from, does not deliver the event; otherwise
    the event is received and handled. *)
Definition receive (env : Env) (event : fsnotify.Event) : M unit :=
  fun w =>
    if fsnotify.closed (watcher (rerun w))
    then handle_event env fsnotify.zero_Event w
    else if fsnotify.blocked (watcher (rerun w)) then Ret tt w
    else handle_event env event w.

(** What one delivery does to the program, the signal apart. *)
Definition deliver (d : Delivery) : M unit :=
  match d with
  | Received env event => receive env event
  | ErrorOffered e =>
      modify (with_rerun (fun r => set_watcher (fsnotify.offer e (watcher r)) r))
  | Scheduled ok => tick ok
  | Forked p => modify (fork p)
  | Signalled => ret tt
  | Dropped path =>
      modify (with_rerun (fun r => set_watcher (fsnotify.drop_watch path (watcher r)) r))
  end.

(** The program between the return of [cleanup] in the signal goroutine and
    the moment its [os.Exit(1)] takes effect: the loop of [main] is still
    running.  A further signal finds nobody receiving on the channel of
    [signal.Notify] and is dropped. *)
Fixpoint last_rounds (ds : list Delivery) : M unit :=
  match ds with
  | [] => os_Exit 1
  | d :: ds' => deliver d ;; last_rounds ds'
  end.

(** The [for { select { ... } }] loop of [main] over what is delivered, with
    the signal goroutine beside it; the loop has no exit of its own.  The
    signal goroutine runs [cleanup] in one piece when the signal arrives:
    the source has no lock, and the runs in which its statements interleave
    with those of an event being handled are not modelled. *)
Fixpoint main_loop (ds : list Delivery) : M unit :=
  match ds with
  | [] => ret tt
  | Signalled :: ds' => cleanup ;; last_rounds ds'
  | d :: ds' => deliver d ;; main_loop ds'
  end.

(** [func main()] after [os.Args[1:]] has been taken. *)
Definition main (args : list string) (env : Env) (ds : list Delivery) : M unit :=
  match args with
  | [] => log NoCommand ;; os_Exit 1
  | a :: rest =>
      let args := if String.eqb a "--debug" then rest else args in
      match args with
      | [] => log NoCommand ;; os_Exit 1
      | _ =>
          NewRerun env (String.concat " " args) ;;
          Start ;;
          log StartingMainLoop ;;
          main_loop ds
      end
  end.

(** ** Reading the claims *)

(** The directories the startup traversal is meant to register, in the
    words of the specification: [reach p t names q n] says that node [n], at
    path [q], is reached from [t], at path [p], through the directories
    named [names] (outermost first). *)
Inductive reach : string -> Node -> list string -> string -> Node -> Prop :=
| reach_root p t : reach p t [] p t
| reach_entry p name entries e names q n :
    e ∈ entries ->
    reach (Join p (node_name e)) e names q n ->
    reach p (Dir name entries) (name :: names) q n.

(** A directory at path [q], not named .git and not below a directory named
    .git. *)
Definition to_watch (root : string) (t : Node) (q : string) : Prop :=
  exists names name entries,
    reach root t names q (Dir name entries) /\
    (".git" ∉ names) /\ name <> ".git".

(** The same paths, listed in the order of the traversal. *)
Fixpoint watchable (path : string) (n : Node) : list string :=
  match n with
  | File _ => []
  | Dir name entries =>
      if String.eqb name ".git" then []
      else path :: flat_map (fun e => watchable (Join path (node_name e)) e) entries
  end.

(** The world [w] with the watch set [S] and the log [L]. *)
Definition watching (S : gset string) (L : list Log) (w : World) : World :=
  with_logs (fun _ => L)
    (with_rerun
       (fun r => set_watcher
                   {| fsnotify.watches := S;
                      fsnotify.closed := fsnotify.closed (watcher r);
                      fsnotify.Errors := fsnotify.Errors (watcher r) |} r)
       w).

(** The paths the watcher holds a watch for. *)
Definition registered (w : World) : gset string :=
  fsnotify.watches (watcher (rerun w)).

(** The watch set: what [r.watcher.WatchList()] gives. *)
Definition watch_set (w : World) : gset string :=
  fsnotify.WatchList (watcher (rerun w)).

Definition is_Failure (e : error) : bool :=
  match e with Failure _ => true | _ => false end.

(** ** States of the runner *)

Definition returned (g : Goroutine) : Prop := g_state g = Returned.

(** No execution: the wait group is at zero and every goroutine that was
    launched has returned. *)
Record quiet (w : World) : Prop :=
  { quiet_wg : WaitGroup (rerun w) = 0;
    quiet_gos : Forall returned (gos w) }.

(** One execution: the wait group is at one, the goroutine launched last is
    the only one that has not returned, and it waits on the context whose
    cancel function [r.cancel] holds, which is not done. *)
Record running (w : World) : Prop :=
  { run_wg : WaitGroup (rerun w) = 1;
    run_exiting : exiting (rerun w) = false;
    run_go : exists l g,
        gos w = l ++ [g] /\ Forall returned l /\ g_state g <> Returned /\
        cancel (rerun w) = Some (g_ctx g) /\
        ctxs w !! g_ctx g = Some false }.

(** The log lines the goroutine writes before it reaches its loop. *)
Definition entering (st : GState) (cmd : string) : list Log :=
  match st with
  | Spawned => [StartedGoroutine; CommandIsRunning cmd]
  | _ => []
  end.

(** The state of the goroutine launched last. *)
Definition current (w : World) : GState :=
  match last (gos w) with
  | Some g => g_state g
  | None => Returned
  end.

(** ** The log read as a timeline *)

(** [launched]: [Start] has been called and the goroutine it launched has not
    ended (the wait group is at one); [executing]: that goroutine has begun
    and has not ended; [restarting]: an event has been received and the
    [Start] that answers it has not been called yet; [closing]: [cleanup]
    has been called, from where on [Start] launches nothing. *)
Record Timeline : Type :=
  { launched : bool; executing : bool; restarting : bool; closing : bool }.

Definition start_of_time : Timeline :=
  {| launched := false; executing := false; restarting := false;
     closing := false |}.

(** One more log line.  [None]: the line breaks the discipline that a
    goroutine is launched only when none is launched, begins only once, ends
    only after it began, and that an event is received only when the restart
    for the previous one is complete. *)
Definition advance (t : Timeline) (l : Log) : option Timeline :=
  match l with
  | CalledStart =>
      if launched t || executing t then None
      else Some {| launched := negb (closing t); executing := false;
                   restarting := false; closing := closing t |}
  | StartedGoroutine =>
      if launched t && negb (executing t)
      then Some {| launched := true; executing := true;
                   restarting := restarting t; closing := closing t |}
      else None
  | CommandStopped =>
      if executing t
      then Some {| launched := false; executing := false;
                   restarting := restarting t; closing := closing t |}
      else None
  | ReceivedEvent =>
      if restarting t || (negb (launched t) && negb (closing t)) then None
      else Some {| launched := launched t; executing := executing t;
                   restarting := true; closing := closing t |}
  | CalledCleanup =>
      Some {| launched := launched t; executing := executing t;
              restarting := restarting t; closing := true |}
  | _ => Some t
  end.

Fixpoint timeline (t : Timeline) (ls : list Log) : option Timeline :=
  match ls with
  | [] => Some t
  | l :: ls' =>
      match advance t l with
      | Some t' => timeline t' ls'
      | None => None
      end
  end.

(** Log lines that say nothing about executions and events. *)
Definition neutral (l : Log) : bool :=
  match l with
  | CalledStart | StartedGoroutine | CommandStopped | ReceivedEvent
  | CalledCleanup => false
  | _ => true
  end.

(** The world at the end of a computation, whatever its outcome. *)
Definition final {A} (o : Outcome A) : World :=
  match o with
  | Ret _ w | Panic w | Block w | Exit _ w => w
  end.

(** ** What an event does to the watch set *)

(** The registered paths after the create branch of the loop. *)
Definition after_create (env : Env) (ev : fsnotify.Event) (closed : bool)
           (S : gset string) : gset string :=
  if fsnotify.has fsnotify.Create ev then
    match Stat env (fsnotify.EName ev) with
    | Some f =>
        if IsDir f && negb (String.eqb (Name f) ".git") && negb closed
           && negb (Add_refused env (fsnotify.EName ev))
        then {[fsnotify.EName ev]} ∪ S else S
    | None => S
    end
  else S.

(** The registered paths after the remove branch of the loop. *)
Definition after_remove (ev : fsnotify.Event) (closed : bool) (S : gset string)
  : gset string :=
  if fsnotify.has fsnotify.Remove ev && negb closed
  then S ∖ {[fsnotify.EName ev]} else S.

(** The log lines of the create branch. *)
Definition create_log (env : Env) (ev : fsnotify.Event) (closed : bool)
  : list Log :=
  if fsnotify.has fsnotify.Create ev then
    match Stat env (fsnotify.EName ev) with
    | Some f =>
        if IsDir f then
          if String.eqb (Name f) ".git" then [IgnoringGit]
          else if closed || Add_refused env (fsnotify.EName ev)
               then [UnableToWatch (fsnotify.EName ev)]
               else [AddedDir (fsnotify.EName ev)]
        else []
    | None => [UnableToStat (fsnotify.EName ev)]
    end
  else [].

(** The log lines of the remove branch. *)
Definition remove_log (ev : fsnotify.Event) (closed : bool) (S : gset string)
  : list Log :=
  if fsnotify.has fsnotify.Remove ev then
    if closed || bool_decide (fsnotify.EName ev ∈ S)
    then [RemovedDir (fsnotify.EName ev)] else []
  else [].

Definition is_Looping (st : GState) : bool :=
  match st with Looping => true | _ => false end.

(** Where the timeline stands while one execution is under way. *)
Definition steady (w : World) : Timeline :=
  {| launched := true; executing := is_Looping (current w); restarting := false;
     closing := false |}.

(** One execution is under way and the log so far is a timeline. *)
Record on_time (w : World) : Prop :=
  { on_time_running : running w;
    on_time_log : timeline start_of_time (logs w) = Some (steady w) }.

(** Where the timeline stands once [cleanup] has returned. *)
Definition end_of_time : Timeline :=
  {| launched := false; executing := false; restarting := false;
     closing := true |}.

(** The program after [cleanup]: no execution, the exiting flag set, the
    watcher closed, and a cancel function at hand. *)
Record winding_down (w : World) : Prop :=
  { wd_quiet : quiet w;
    wd_exiting : exiting (rerun w) = true;
    wd_closed : fsnotify.closed (watcher (rerun w)) = true;
    wd_cancel : cancel (rerun w) <> None }.

(** The log lines of a round of the loop in which nothing is received but
    the zero event and nothing is stopped or started. *)
Definition idle_line (l : Log) : bool :=
  match l with
  | ReceivedEvent | CalledStop | WaitingForWaitgroup | CalledStart => true
  | FileSystemEvent ev =>
      String.eqb (fsnotify.EName ev) EmptyString && Z.eqb (fsnotify.Op ev) 0
  | _ => false
  end.

(** The log lines written on entry to [Stop] and [Start]. *)
Definition is_restart_call (l : Log) : bool :=
  match l with CalledStop | CalledStart => true | _ => false end.

(** ** Sample inputs *)

Definition sample_tree : Node :=
  Dir "r" [Dir ".git" [Dir "objects" []];
           Dir "a" [File "x"; Dir "c" []];
           File "f";
           Dir "b" []].

Definition sample_Stat (p : string) : option FileInfo :=
  if String.eqb p "/r/.git" then Some {| Name := ".git"; IsDir := true |}
  else if String.eqb p "/r/n" then Some {| Name := "n"; IsDir := true |}
  else None.

(** Every registration succeeds. *)
Definition sample_env : Env :=
  {| NewWatcher_ok := true; Getwd := Some "/r"; tree := sample_tree;
     Add_refused := fun _ => false; Stat := sample_Stat |}.

(** The registration of /r/a is refused. *)
Definition refusing_env : Env :=
  {| NewWatcher_ok := true; Getwd := Some "/r"; tree := sample_tree;
     Add_refused := fun p => String.eqb p "/r/a"; Stat := sample_Stat |}.

(** The world after [Start] in the initial world. *)
Definition started : World :=
  {| rerun := {| WaitGroup := 1; Command := EmptyString; exiting := false;
                 cancel := Some 0%nat; watcher := fsnotify.NewWatcher |};
     ctxs := [false];
     gos := [ {| g_ctx := 0; g_state := Spawned; g_cmd := None |} ];
     procs := [ {| pgid := 0; ppid := 0; pstate := PRunning |} ];
     logs := [CalledStart] |}.

Definition created (path : string) : fsnotify.Event :=
  {| fsnotify.EName := path; fsnotify.Op := fsnotify.Create |}.

(** ** Signals *)

(** A process after SIGKILL. *)
Definition killed (p : Proc) : Proc :=
  {| pgid := pgid p; ppid := ppid p;
     pstate := match pstate p with PRunning => PZombie | s => s end |}.

(** Is [q] the process of a command whose context is done? *)
Definition signalled (w : World) (gs : list Goroutine) (q : nat) : bool :=
  existsb (fun g => match g_cmd g with
                    | Some pid => Nat.eqb pid q && ctx_done (g_ctx g) w
                    | None => false
                    end) gs.

(** The world after [Start] and one scheduling round: the shell runs as
    process 1, a child of rerun in rerun's process group. *)
Definition shell_running : World :=
  {| rerun := {| WaitGroup := 1; Command := EmptyString; exiting := false;
                 cancel := Some 0%nat; watcher := fsnotify.NewWatcher |};
     ctxs := [false];
     gos := [ {| g_ctx := 0; g_state := Looping; g_cmd := Some 1%nat |} ];
     procs := [ {| pgid := 0; ppid := 0; pstate := PRunning |};
                {| pgid := 0; ppid := 0; pstate := PRunning |} ];
     logs := [CalledStart; StartedGoroutine; CommandIsRunning EmptyString] |}.

(** The same after the shell has forked a child (process 2). *)
Definition shell_with_child : World := fork 1 shell_running.

(** ** The errors of the subscription *)

(** Is the subscription of [w] waiting in its send on [watcher.Errors]? *)
Definition stalled (w : World) : bool :=
  fsnotify.blocked (watcher (rerun w)).

Definition is_event (d : Delivery) : bool :=
  match d with Received _ _ => true | _ => false end.

(** The log lines a goroutine writes when it begins. *)
Definition begin_line (l : Log) : bool :=
  match l with StartedGoroutine | CommandIsRunning _ => true | _ => false end.

(** ** Executions and their processes *)

(** Process [q] is the shell that goroutine [g] has started, or a process
    that shell has forked. *)
Definition of_execution (w : World) (g : Goroutine) (q : nat) : bool :=
  match g_cmd g, procs w !! q with
  | Some pid, Some p => Nat.eqb q pid || Nat.eqb (ppid p) pid
  | _, _ => false
  end.

(** The execution launched as goroutine number [i] is active: one of its
    processes is running. *)
Definition active (w : World) (i : nat) : bool :=
  match gos w !! i with
  | Some g =>
      existsb (fun q => of_execution w g q &&
                        match procs w !! q with
                        | Some {| pstate := PRunning |} => true
                        | _ => false
                        end)
              (seq 0 (length (procs w)))
  | None => false
  end.

(** The result of walking a node: the watch set grows by paths of
    [watchable] only, and by all of them when no registration is refused;
    [SkipDir] is only returned for a directory named .git. *)
Definition walk_ok (env : Env) (path : string) (n : Node) (S : gset string)
           (w : World) (e : error) (S' : gset string) : Prop :=
  S ⊆ S' /\
  S' ⊆ S ∪ list_to_set (watchable path n) /\
  (e = SkipDir -> exists es, n = Dir ".git" es) /\
  (fsnotify.closed (watcher (rerun w)) = false ->
   (forall q, q ∈ watchable path n -> Add_refused env q = false) ->
   S' = S ∪ list_to_set (watchable path n) /\ is_Failure e = false).

(** The world after [Stop] in [shell_running]: the goroutine has returned,
    the shell is still in the process table as a running process. *)
Definition shell_cancelled : World :=
  {| rerun := {| WaitGroup := 0; Command := EmptyString; exiting := false;
                 cancel := Some 0%nat; watcher := fsnotify.NewWatcher |};
     ctxs := [true];
     gos := [ {| g_ctx := 0; g_state := Returned; g_cmd := Some 1%nat |} ];
     procs := [ {| pgid := 0; ppid := 0; pstate := PRunning |};
                {| pgid := 0; ppid := 0; pstate := PRunning |} ];
     logs := [CalledStart; StartedGoroutine; CommandIsRunning EmptyString;
              CalledStop; WaitingForWaitgroup; CommandStopped] |}.


(** ** More sample inputs *)

(** No watcher can be created. *)
Definition no_watcher_env : Env :=
  {| NewWatcher_ok := false; Getwd := Some "/r"; tree := sample_tree;
     Add_refused := fun _ => false; Stat := sample_Stat |}.

(** The current directory cannot be determined. *)
Definition no_cwd_env : Env :=
  {| NewWatcher_ok := true; Getwd := None; tree := sample_tree;
     Add_refused := fun _ => false; Stat := sample_Stat |}.

(** A rename event for /r/a. *)
Definition renamed (path : string) : fsnotify.Event :=
  {| fsnotify.EName := path; fsnotify.Op := fsnotify.Rename |}.

(** The world [started] with /r/a registered. *)
Definition started_watching_a : World := watching {["/r/a"]} [CalledStart] started.

(** The tree of a current directory that is itself named .git. *)
Definition git_env : Env :=
  {| NewWatcher_ok := true; Getwd := Some "/r/.git";
     tree := Dir ".git" [Dir "objects" []; File "HEAD"];
     Add_refused := fun _ => false; Stat := sample_Stat |}.


(** The paths of [l] that come before the first refused one. *)
Fixpoint until_refused (refused : string -> bool) (l : list string) : list string :=
  match l with
  | [] => []
  | p :: l' => if refused p then [] else p :: until_refused refused l'
  end.

(** The number of events among what is delivered. *)
Definition events (ds : list Delivery) : nat :=
  length (List.filter (fun d => match d with Received _ _ => true | _ => false end) ds).

(** The number of events the loop has received, by its log. *)
Definition received (X : list Log) : nat :=
  length (List.filter (fun l => match l with ReceivedEvent => true | _ => false end) X).

(** ** Goroutines that cannot return *)

(** Every goroutine that has not returned waits on a context that is not
    done. *)
Definition waiting (w : World) : Prop :=
  Forall (fun g => g_state g = Returned \/ ctx_done (g_ctx g) w = false) (gos w).

(** The same goroutines, some of which may have begun in the meantime: each
    has its context, and has returned if and only if it had. *)
Definition begun (gs gs' : list Goroutine) : Prop :=
  Forall2 (fun g g' => g_ctx g' = g_ctx g /\
                       (g_state g = Returned <-> g_state g' = Returned)) gs gs'.

(** ** What no run undoes *)

(** [later w w']: [w'] can come after [w] in a run.  The command line is the
    same; the log has grown, and the lines that announce a running command
    name that command line; an error the subscription was waiting to hand
    over has not been received. *)
Record later (w w' : World) : Prop :=
  { later_Command : Command (rerun w') = Command (rerun w);
    later_logs :
      exists X, logs w' = logs w ++ X /\
                forall c, CommandIsRunning c ∈ X -> c = Command (rerun w);
    later_pending :
      forall e, fsnotify.Errors (watcher (rerun w)) = Some e ->
                fsnotify.Errors (watcher (rerun w')) = Some e }.

(** A computation whose final world, whatever the outcome, comes later. *)
Definition keeps {A} (m : M A) : Prop := forall w, later w (final (m w)).

(** The command line [main] hands to [NewRerun]: the arguments after a
    leading --debug, joined by single spaces. *)
Definition command_line (args : list string) : string :=
  String.concat " "
    (match args with
     | a :: rest => if String.eqb a "--debug" then rest else args
     | [] => []
     end).

(** * Proofs *)

(** ** Running computations *)

Lemma bind_Ret {A B} (m : M A) (k : A -> M B) w a w' :
  m w = Ret a w' -> (x ← m; k x) w = k a w'.
Proof. intros H. unfold mbind, M_bind, bind. now rewrite H. Qed.

Lemma seq_Ret {A B} (m : M A) (k : M B) w a w' :
  m w = Ret a w' -> (m ;; k) w = k w'.
Proof. intros H. unfold mbind, M_bind, bind. now rewrite H. Qed.

(** Unfolding the monad and the record updates. *)
Ltac wsimpl :=
  cbv beta iota delta
    [mbind M_bind bind mret M_ret ret log modify gets panic block os_Exit
     with_logs with_ctxs with_gos with_procs with_rerun
     set_watcher set_cancel set_exiting set_Command set_WaitGroup
     rerun ctxs gos procs logs WaitGroup Command exiting cancel watcher
     g_ctx g_state g_cmd] in *.

(** ** Induction on directory trees *)

Section Node_induction.
Variable P : Node -> Prop.
Hypothesis P_File : forall s, P (File s).
Hypothesis P_Dir : forall s es, Forall P es -> P (Dir s es).

Lemma Node_tree_ind : forall n, P n.
Proof.
  fix IH 1. intros [s | s es].
  - apply P_File.
  - apply P_Dir. induction es as [| e es' IHes]; constructor.
    + apply IH.
    + exact IHes.
Qed.
End Node_induction.

(** ** The startup traversal *)

Lemma watching_self w : watching (registered w) (logs w) w = w.
Proof. destruct w as [[? ? ? ? []] ? ? ? ?]. reflexivity. Qed.

Lemma watching_watching S L S' L' w :
  watching S' L' (watching S L w) = watching S' L' w.
Proof. reflexivity. Qed.

Lemma watch_set_open w :
  fsnotify.closed (watcher (rerun w)) = false -> watch_set w = registered w.
Proof. unfold watch_set, registered, fsnotify.WatchList. now intros ->. Qed.

Lemma watch_set_closed w :
  fsnotify.closed (watcher (rerun w)) = true -> watch_set w = ∅.
Proof. unfold watch_set, fsnotify.WatchList. now intros ->. Qed.

Lemma watch_set_watching S L w :
  fsnotify.closed (watcher (rerun w)) = false -> watch_set (watching S L w) = S.
Proof. intros H. rewrite watch_set_open; [reflexivity | exact H]. Qed.

Section Traversal.
Variable env : Env.

(** What one call of [WatchDir] does to the watch set and the log. *)
Lemma WatchDir_watching path f e S L w :
  WatchDir env path f e (watching S L w) =
  if IsDir f then
    if String.eqb (Name f) ".git"
    then Ret SkipDir (watching S (L ++ [IgnoringGit]) w)
    else if fsnotify.closed (watcher (rerun w))
         then Ret (Failure "fsnotify: watcher already closed")
                  (watching S (L ++ [UnableToWatch path]) w)
         else if Add_refused env path
              then Ret (Failure "cannot add watch")
                       (watching S (L ++ [UnableToWatch path]) w)
              else Ret NoError
                       (watching ({[path]} ∪ S) (L ++ [AddedDir path]) w)
  else Ret e (watching S L w).
Proof.
  destruct w as [[wg cmd ex cn [ws cl er]] cs gs ps ls].
  unfold WatchDir. destruct (IsDir f); [| reflexivity].
  destruct (String.eqb (Name f) ".git"); [reflexivity |].
  unfold mbind, M_bind, bind, watcher_Add, fsnotify.Add. cbn.
  destruct cl; [reflexivity |].
  destruct (Add_refused env path); reflexivity.
Qed.

Lemma walk_entries_WatchDir path es :
  Forall (fun n => forall path S L w, exists e S' L',
              filepath.walk (WatchDir env) path n (watching S L w)
              = Ret e (watching S' L' w) /\ walk_ok env path n S w e S') es ->
  forall S L w, exists e S' L',
    filepath.walk_entries (filepath.walk (WatchDir env)) path es (watching S L w)
    = Ret e (watching S' L' w) /\
    S ⊆ S' /\
    S' ⊆ S ∪ list_to_set (flat_map (fun e => watchable (Join path (node_name e)) e) es) /\
    e <> SkipDir /\
    (fsnotify.closed (watcher (rerun w)) = false ->
     (forall q, q ∈ flat_map (fun e => watchable (Join path (node_name e)) e) es ->
                Add_refused env q = false) ->
     S' = S ∪ list_to_set (flat_map (fun e => watchable (Join path (node_name e)) e) es)
     /\ e = NoError).
Proof.
  induction 1 as [| n es Hn _ IH]; intros S L w.
  - exists NoError, S, L. cbn. split; [reflexivity |].
    split; [reflexivity |]. split; [apply union_subseteq_l |].
    split; [discriminate |].
    intros _ _. split; [| reflexivity].
    clear; set_solver.
  - destruct (Hn (Join path (node_name n)) S L w)
      as (e1 & S1 & L1 & Hrun & Hsub1 & Hsup1 & Hskip & Hall1).
    destruct (IH S1 L1 w) as (e2 & S2 & L2 & Hrest & Hsub2 & Hsup2 & Hne2 & Hall2).
    cbn [filepath.walk_entries flat_map].
    rewrite (bind_Ret _ _ _ _ _ Hrun), list_to_set_app_L.
    assert (Hcontinue :
              exists e S' L',
                filepath.walk_entries (filepath.walk (WatchDir env)) path es
                  (watching S1 L1 w) = Ret e (watching S' L' w) /\
                S ⊆ S' /\
                S' ⊆ S ∪ (list_to_set (watchable (Join path (node_name n)) n) ∪
                          list_to_set (flat_map (fun e => watchable (Join path (node_name e)) e) es)) /\
                e <> SkipDir /\
                (fsnotify.closed (watcher (rerun w)) = false ->
                 (forall q, q ∈ watchable (Join path (node_name n)) n ++
                                flat_map (fun e => watchable (Join path (node_name e)) e) es ->
                            Add_refused env q = false) ->
                 S' = S ∪ (list_to_set (watchable (Join path (node_name n)) n) ∪
                           list_to_set (flat_map (fun e => watchable (Join path (node_name e)) e) es))
                 /\ e = NoError)).
    { exists e2, S2, L2. split; [exact Hrest |].
      split; [clear - Hsub1 Hsub2; set_solver |].
      split; [clear - Hsup1 Hsup2; set_solver |].
      split; [exact Hne2 |].
      intros Hopen Hfree.
      destruct Hall1 as [-> _];
        [assumption | intros q Hq; apply Hfree, elem_of_app; now left |].
      destruct Hall2 as [-> ->];
        [assumption | intros q Hq; apply Hfree, elem_of_app; now right |].
      split; [| reflexivity]. now rewrite (assoc_L (∪)). }
    destruct e1 as [| | msg]; cbn [is_nil is_SkipDir negb orb].
    + (* the entry was walked: go on *)
      exact Hcontinue.
    + (* SkipDir: the entry is a directory named .git *)
      destruct Hskip as [es' ->]; [reflexivity |]. exact Hcontinue.
    + (* a failure ends the walk *)
      rewrite orb_true_r.
      exists (Failure msg), S1, L1. split; [reflexivity |].
      split; [exact Hsub1 |].
      split; [clear - Hsup1; set_solver |].
      split; [discriminate |].
      intros Hopen Hfree.
      destruct Hall1 as [_ Hno];
        [assumption | intros q Hq; apply Hfree, elem_of_app; now left |].
      discriminate Hno.
Qed.

Lemma walk_WatchDir n :
  forall path S L w, exists e S' L',
    filepath.walk (WatchDir env) path n (watching S L w)
    = Ret e (watching S' L' w) /\ walk_ok env path n S w e S'.
Proof.
  induction n as [s | s es IH] using Node_tree_ind; intros path S L w.
  - exists NoError, S, L. cbn [filepath.walk].
    rewrite WatchDir_watching. cbn. split; [reflexivity |].
    unfold walk_ok. cbn.
    split; [reflexivity |]. split; [clear; set_solver |].
    split; [discriminate |].
    intros _ _. split; [clear; set_solver | reflexivity].
  - cbn [filepath.walk node_info].
    unfold mbind at 1, M_bind at 1, bind at 1.
    rewrite WatchDir_watching. cbn [IsDir Name].
    unfold walk_ok. cbn [watchable].
    destruct (String.eqb_spec s ".git") as [-> | Hname].
    + exists SkipDir, S, (L ++ [IgnoringGit]). split; [reflexivity |].
      split; [reflexivity |]. split; [clear; set_solver |].
      split; [eauto |].
      intros _ _. split; [clear; set_solver | reflexivity].
    + destruct (fsnotify.closed (watcher (rerun w))) eqn:Hclosed.
      { eexists _, S, _. split; [reflexivity |].
        split; [reflexivity |]. split; [clear; set_solver |].
        split; discriminate. }
      destruct (Add_refused env path) eqn:Hrefused.
      { eexists _, S, _. split; [reflexivity |].
        split; [reflexivity |]. split; [clear; set_solver |].
        split; [discriminate |]. intros _ Hfree.
        rewrite Hfree in Hrefused; [discriminate | now left]. }
      cbn [is_nil].
      destruct (walk_entries_WatchDir path es IH ({[path]} ∪ S)
                  (L ++ [AddedDir path]) w)
        as (e & S' & L' & Hrun & Hsub & Hsup & Hne & Hall).
      exists e, S', L'. split; [exact Hrun |].
      split; [clear - Hsub; set_solver |].
      split; [clear - Hsup; set_solver |].
      split; [intros ->; now destruct Hne |].
      intros _ Hfree.
      destruct (Hall Hclosed) as [-> ->]; [intros q Hq; apply Hfree; now right |].
      split; [clear; set_solver | reflexivity].
Qed.

End Traversal.

(** [watchable] lists exactly the directories the specification names. *)
Lemma watchable_to_watch t :
  forall root q, q ∈ watchable root t <-> to_watch root t q.
Proof.
  induction t as [s | s es IH] using Node_tree_ind; intros root q.
  - cbn. split; [intros H; inversion H |].
    intros (names & name & entries & Hreach & _). inversion Hreach.
  - cbn [watchable]. destruct (String.eqb_spec s ".git") as [-> | Hname].
    + split; [intros H; inversion H |].
      intros (names & name & entries & Hreach & Hnames & Hne).
      inversion Hreach; subst.
      * now destruct Hne.
      * destruct Hnames. left.
    + rewrite elem_of_cons, list_elem_of_In, in_flat_map. split.
      * intros [-> | (e & He & Hq)].
        -- exists [], s, es. repeat split; [constructor | | assumption].
           intros H; inversion H.
        -- apply list_elem_of_In in He, Hq.
           rewrite Forall_forall in IH.
           apply (IH e He) in Hq as (names & name & entries & Hreach & Hnames & Hne).
           exists (s :: names), name, entries. repeat split; [| | assumption].
           ++ econstructor; eassumption.
           ++ rewrite elem_of_cons. intros [Heq | Hin]; [now symmetry in Heq | auto].
      * intros (names & name & entries & Hreach & Hnames & Hne).
        inversion Hreach; subst; [now left | right].
        match goal with
        | He : _ ∈ es, Hr : reach _ ?e _ q _ |- _ =>
            exists e; split; [now apply list_elem_of_In |];
            apply list_elem_of_In; rewrite Forall_forall in IH;
            apply (IH e He); eexists _, name, entries;
            repeat split; [exact Hr | | assumption]
        end.
        intros Hin. apply Hnames. now right.
Qed.

(** ** The traversal, with refusals *)

Lemma until_refused_none r l : existsb r l = false -> until_refused r l = l.
Proof.
  induction l as [| p l IH]; cbn; [reflexivity |].
  destruct (r p); cbn; [discriminate |]. intros H. now rewrite IH.
Qed.

Lemma until_refused_app r l1 l2 :
  until_refused r (l1 ++ l2)
  = if existsb r l1 then until_refused r l1 else l1 ++ until_refused r l2.
Proof.
  induction l1 as [| p l1 IH]; cbn; [reflexivity |].
  destruct (r p); cbn; [reflexivity |]. rewrite IH. now destruct (existsb r l1).
Qed.

Section Traversal_exact.
Variable env : Env.

Lemma walk_entries_exact path es :
  Forall (fun n => forall path S L w,
              fsnotify.closed (watcher (rerun w)) = false ->
              exists e L',
                filepath.walk (WatchDir env) path n (watching S L w)
                = Ret e (watching
                           (S ∪ list_to_set
                                  (until_refused (Add_refused env) (watchable path n)))
                           L' w) /\
                is_Failure e = existsb (Add_refused env) (watchable path n) /\
                (e = SkipDir -> exists es, n = Dir ".git" es)) es ->
  forall S L w,
    fsnotify.closed (watcher (rerun w)) = false ->
    exists e L',
      filepath.walk_entries (filepath.walk (WatchDir env)) path es (watching S L w)
      = Ret e (watching
                 (S ∪ list_to_set
                        (until_refused (Add_refused env)
                           (flat_map (fun e => watchable (Join path (node_name e)) e) es)))
                 L' w) /\
      is_Failure e
      = existsb (Add_refused env)
          (flat_map (fun e => watchable (Join path (node_name e)) e) es) /\
      e <> SkipDir.
Proof.
  induction 1 as [| n es Hn _ IH]; intros S L w Hopen.
  - exists NoError, L. cbn. split; [| split; [reflexivity | discriminate]].
    unfold ret. do 2 f_equal. clear. set_solver.
  - destruct (Hn (Join path (node_name n)) S L w Hopen)
      as (e1 & L1 & Hrun & Hfail & Hskip).
    cbn [filepath.walk_entries flat_map].
    rewrite (bind_Ret _ _ _ _ _ Hrun), until_refused_app, existsb_app.
    set (W := watchable (Join path (node_name n)) n) in *.
    assert (Hcontinue :
              existsb (Add_refused env) W = false ->
              exists e L',
                filepath.walk_entries (filepath.walk (WatchDir env)) path es
                  (watching (S ∪ list_to_set (until_refused (Add_refused env) W)) L1 w)
                = Ret e (watching
                           (S ∪ list_to_set
                                  (W ++ until_refused (Add_refused env)
                                          (flat_map (fun e => watchable (Join path (node_name e)) e) es)))
                           L' w) /\
                is_Failure e
                = false || existsb (Add_refused env)
                             (flat_map (fun e => watchable (Join path (node_name e)) e) es) /\
                e <> SkipDir).
    { intros Hnone. rewrite (until_refused_none _ _ Hnone).
      destruct (IH (S ∪ list_to_set W) L1 w Hopen) as (e2 & L2 & Hrest & Hfail2 & Hne2).
      exists e2, L2. split; [| now split].
      rewrite Hrest. do 2 f_equal. rewrite list_to_set_app_L. clear. set_solver. }
    destruct e1 as [| | msg]; cbn [is_nil is_SkipDir negb orb is_Failure] in *.
    + rewrite <- Hfail. now apply Hcontinue.
    + rewrite <- Hfail. destruct Hskip as [es' Hgit]; [reflexivity |].
      assert (Hd : IsDir (node_info n) = true) by now rewrite Hgit.
      rewrite Hd. cbn [negb orb]. now apply Hcontinue.
    + rewrite orb_true_r, <- Hfail. cbn [orb].
      exists (Failure msg), L1. split; [reflexivity |]. split; [reflexivity | discriminate].
Qed.

Lemma walk_exact n :
  forall path S L w,
    fsnotify.closed (watcher (rerun w)) = false ->
    exists e L',
      filepath.walk (WatchDir env) path n (watching S L w)
      = Ret e (watching
                 (S ∪ list_to_set (until_refused (Add_refused env) (watchable path n)))
                 L' w) /\
      is_Failure e = existsb (Add_refused env) (watchable path n) /\
      (e = SkipDir -> exists es, n = Dir ".git" es).
Proof.
  induction n as [s | s es IH] using Node_tree_ind; intros path S L w Hopen.
  - exists NoError, L. cbn [filepath.walk]. rewrite WatchDir_watching. cbn.
    split; [| split; [reflexivity | discriminate]].
    do 2 f_equal. clear. set_solver.
  - cbn [filepath.walk node_info].
    unfold mbind at 1, M_bind at 1, bind at 1.
    rewrite WatchDir_watching, Hopen. cbn [IsDir Name watchable].
    destruct (String.eqb_spec s ".git") as [-> | Hname].
    + exists SkipDir, (L ++ [IgnoringGit]). cbn.
      split; [| split; [reflexivity | eauto]].
      do 2 f_equal. clear. set_solver.
    + cbn [until_refused existsb].
      destruct (Add_refused env path) eqn:Hrefused.
      * exists (Failure "cannot add watch"), (L ++ [UnableToWatch path]). cbn.
        split; [| split; [reflexivity | discriminate]].
        do 2 f_equal. clear. set_solver.
      * cbn [is_nil orb].
        destruct (walk_entries_exact path es IH ({[path]} ∪ S) (L ++ [AddedDir path]) w Hopen)
          as (e & L' & Hrun & Hfail & Hne).
        exists e, L'. split; [| split; [exact Hfail | intros ->; now destruct Hne]].
        rewrite Hrun. do 2 f_equal. clear. set_solver.
Qed.

End Traversal_exact.


Lemma until_refused_elem r l x :
  x ∈ until_refused r l -> x ∈ l /\ r x = false.
Proof.
  induction l as [| p l IH]; cbn; [intros H; inversion H |].
  destruct (r p) eqn:Hp; [intros H; inversion H |].
  rewrite !elem_of_cons. intros [-> | Hin]; [now split; [left |] |].
  destruct (IH Hin). split; [now right | assumption].
Qed.

Lemma until_refused_cut r l1 q l2 :
  r q = true -> (forall p, p ∈ l1 -> r p = false) ->
  until_refused r (l1 ++ q :: l2) = l1.
Proof.
  intros Hq. induction l1 as [| p l1 IH]; cbn; intros Hl1.
  - now rewrite Hq.
  - rewrite (Hl1 p) by now left. f_equal. apply IH.
    intros p' Hp'. apply Hl1. now right.
Qed.

Lemma existsb_none {A} (r : A -> bool) (l : list A) :
  (forall x, x ∈ l -> r x = false) -> existsb r l = false.
Proof.
  induction l as [| x l IH]; cbn; [reflexivity |]. intros H.
  rewrite (H x) by now left. apply IH. intros y Hy. apply H. now right.
Qed.

(** C5.  After [NewRerun] (watcher created, current directory known) only
    directories reachable from the root that are neither named .git nor
    below a directory named .git are registered.  Every such directory is
    registered exactly when no registration is refused: the first refused
    registration ends the traversal, and of the directories to register
    only those that the walk met before it are in the watch set, so that
    directories that are reachable, not named .git and not refused
    themselves stay unregistered. *)
Theorem NewRerun_registers_reachable_directories env command cwd w :
  NewWatcher_ok env = true ->
  Getwd env = Some cwd ->
  exists w',
    NewRerun env command w = Ret tt w' /\
    (forall q, q ∈ watch_set w' -> to_watch cwd (tree env) q) /\
    ((forall q, to_watch cwd (tree env) q -> q ∈ watch_set w') <->
     (forall q, to_watch cwd (tree env) q -> Add_refused env q = false)) /\
    (forall l1 q l2,
        watchable cwd (tree env) = l1 ++ q :: l2 ->
        Add_refused env q = true ->
        (forall p, p ∈ l1 -> Add_refused env p = false) ->
        forall p, p ∈ watch_set w' <-> p ∈ l1).
Proof.
  intros Hok Hcwd. unfold NewRerun. rewrite Hok, Hcwd.
  destruct w as [[wg cmd ex cn wt] cs gs ps ls].
  set (w0 := {| rerun := {| WaitGroup := wg; Command := command;
                            exiting := false; cancel := cn;
                            watcher := fsnotify.NewWatcher |};
                ctxs := cs; gos := gs; procs := ps; logs := ls |}).
  destruct (walk_exact env (tree env) cwd ∅
              ((ls ++ [CalledNewRerun]) ++ [FindingSubDirs]) w0 eq_refl)
    as (e & L' & Hrun & _).
  set (W := watchable cwd (tree env)) in *.
  exists (watching (∅ ∪ list_to_set (until_refused (Add_refused env) W)) L' w0).
  split.
  { unfold filepath.Walk. wsimpl.
    change (filepath.walk (WatchDir env) cwd (tree env) _)
      with (filepath.walk (WatchDir env) cwd (tree env)
              (watching ∅ ((ls ++ [CalledNewRerun]) ++ [FindingSubDirs]) w0)).
    rewrite Hrun. now destruct (is_SkipDir e). }
  rewrite watch_set_watching by reflexivity.
  assert (Hset : forall q,
             q ∈ (∅ ∪ list_to_set (until_refused (Add_refused env) W) : gset string)
             <-> q ∈ until_refused (Add_refused env) W).
  { intros q. clear. set_solver. }
  split; [| split].
  - intros q Hq. apply Hset, until_refused_elem in Hq as [Hq _].
    now apply watchable_to_watch.
  - split.
    + intros Hall q Hq. apply Hall, Hset, until_refused_elem in Hq. tauto.
    + intros Hfree q Hq. apply Hset.
      rewrite until_refused_none; [now apply watchable_to_watch |].
      apply existsb_none. intros x Hx. now apply Hfree, watchable_to_watch.
  - intros l1 q l2 HW Hq Hl1 p. rewrite Hset, HW.
    now rewrite (until_refused_cut _ _ _ _ Hq Hl1).
Qed.

(** ** The runner *)

Lemma for_each_app l1 l2 f w :
  for_each (l1 ++ l2) f w = (for_each l1 f ;; for_each l2 f) w.
Proof.
  revert w. induction l1 as [| i l1 IH]; intros w; [reflexivity |].
  cbn [for_each app]. unfold mbind, M_bind, bind in *.
  destruct (f i w); try reflexivity. apply IH.
Qed.

Lemma for_each_idle l f w :
  (forall i, i ∈ l -> f i w = Ret tt w) -> for_each l f w = Ret tt w.
Proof.
  induction l as [| i l IH]; intros H; [reflexivity |].
  cbn [for_each]. rewrite (seq_Ret _ _ _ _ _ (H i ltac:(left))).
  apply IH. intros j Hj. apply H. now right.
Qed.

Lemma lookup_returned (l : list Goroutine) g i gi :
  Forall returned l -> (l ++ [g]) !! i = Some gi -> i ∈ seq 0 (length l) ->
  g_state gi = Returned.
Proof.
  intros Hl Hi Hin. apply elem_of_seq in Hin.
  rewrite lookup_app_l in Hi by lia.
  rewrite Forall_forall in Hl. apply Hl. eapply list_elem_of_lookup_2, Hi.
Qed.

Lemma go_enter_idle ok i w :
  (forall g, gos w !! i = Some g -> g_state g <> Spawned) ->
  go_enter ok i w = Ret tt w.
Proof.
  intros H. unfold go_enter. destruct (gos w !! i) as [[c [] p] |] eqn:E;
    try reflexivity. now destruct (H _ eq_refl).
Qed.

Lemma go_leave_idle i w :
  (forall g, gos w !! i = Some g -> g_state g = Looping -> ctx_done (g_ctx g) w = false) ->
  go_leave i w = Ret tt w.
Proof.
  intros H. unfold go_leave. destruct (gos w !! i) as [[c [] p] |] eqn:E;
    try reflexivity. pose proof (H _ eq_refl eq_refl) as Hd. cbn in Hd. now rewrite Hd.
Qed.

Lemma drain_one_idle i w :
  (forall g, gos w !! i = Some g -> g_state g = Returned) ->
  drain_one i w = Ret tt w.
Proof.
  intros H. unfold drain_one.
  destruct (gos w !! i) as [g |] eqn:E; [| reflexivity].
  assert (Hs : forall g', gos w !! i = Some g' -> g_state g' = Returned).
  { intros g' Hg'. apply H. now rewrite <- Hg'. }
  destruct (ctx_done (g_ctx g) w); [| reflexivity].
  rewrite (seq_Ret _ _ _ tt w).
  - apply go_leave_idle. intros g' Hg' Hl. rewrite (Hs _ Hg') in Hl. discriminate.
  - apply go_enter_idle. intros g' Hg'. rewrite (Hs _ Hg'). discriminate.
Qed.

Lemma drain_last w l g :
  gos w = l ++ [g] -> Forall returned l ->
  drain w = drain_one (length l) w.
Proof.
  intros Hg Hl. unfold drain, all_gos, gets.
  unfold mbind at 1, M_bind at 1, bind at 1.
  rewrite Hg, length_app, Nat.add_1_r, seq_S, for_each_app. cbn [plus].
  rewrite (seq_Ret _ _ _ tt w).
  - cbn [for_each]. unfold mbind, M_bind, bind.
    now destruct (drain_one (length l) w) as [[] ? | | |].
  - apply for_each_idle. intros i Hi. apply drain_one_idle. intros gi Hgi.
    rewrite Hg in Hgi. eapply lookup_returned; eauto.
Qed.

Lemma insert_last {A} (l : list A) (x y : A) :
  <[length l := y]> (l ++ [x]) = l ++ [y].
Proof. rewrite insert_app_r_alt by lia. now rewrite Nat.sub_diag. Qed.

(** The goroutine launched last reaches its loop. *)
Lemma go_enter_last ok w l c p :
  gos w = l ++ [ {| g_ctx := c; g_state := Spawned; g_cmd := p |} ] ->
  go_enter ok (length l) w =
  Ret tt
    {| rerun := rerun w; ctxs := ctxs w;
       gos := l ++ [ {| g_ctx := c; g_state := Looping;
                        g_cmd := if ctx_done c w || negb ok then None
                                 else Some (length (procs w)) |} ];
       procs := if ctx_done c w || negb ok then procs w
                else procs w ++ [child_of 0%nat (procs w)];
       logs := logs w ++ [StartedGoroutine; CommandIsRunning (Command (rerun w))] |}.
Proof.
  destruct w as [r cs gs ps ls]. wsimpl. intros ->.
  unfold go_enter, cmd_Start, set_go. wsimpl.
  rewrite list_lookup_middle by reflexivity.
  destruct (ctx_done c _ || negb ok); wsimpl;
    now rewrite insert_last, <- app_assoc.
Qed.

(** The goroutine launched last leaves its loop once its context is done. *)
Lemma go_leave_last w l c p :
  gos w = l ++ [ {| g_ctx := c; g_state := Looping; g_cmd := p |} ] ->
  ctx_done c w = true ->
  0 <= WaitGroup (rerun w) - 1 ->
  go_leave (length l) w =
  Ret tt
    {| rerun := set_WaitGroup (WaitGroup (rerun w) - 1) (rerun w);
       ctxs := ctxs w;
       gos := l ++ [ {| g_ctx := c; g_state := Returned; g_cmd := p |} ];
       procs := procs w;
       logs := logs w ++ [CommandStopped] |}.
Proof.
  destruct w as [[wg cmd ex cn wt] cs gs ps ls]. wsimpl. intros -> Hdone Hwg.
  unfold go_leave, wg_Done, wg_Add, set_go. wsimpl.
  rewrite list_lookup_middle by reflexivity. rewrite Hdone.
  change (wg + -1) with (wg - 1).
  destruct (Z.ltb_spec (wg - 1) 0) as [Hlt | _]; [lia |].
  now rewrite insert_last.
Qed.

Lemma Stop_last w l g :
  gos w = l ++ [g] -> Forall returned l -> g_state g <> Returned ->
  cancel (rerun w) = Some (g_ctx g) -> (g_ctx g < length (ctxs w))%nat ->
  WaitGroup (rerun w) = 1 ->
  Stop w =
  Ret tt {| rerun := set_WaitGroup 0 (rerun w);
            ctxs := <[g_ctx g := true]> (ctxs w);
            gos := l ++ [ {| g_ctx := g_ctx g; g_state := Returned;
                             g_cmd := match g_state g with
                                      | Spawned => None
                                      | _ => g_cmd g
                                      end |} ];
            procs := procs w;
            logs := logs w ++ [CalledStop; WaitingForWaitgroup]
                      ++ entering (g_state g) (Command (rerun w))
                      ++ [CommandStopped] |}.
Proof.
  destruct w as [[wg cmd ex cn wt] cs gs ps ls], g as [c st p].
  wsimpl. intros -> Hl Hst -> Hc ->.
  unfold Stop, call_cancel, ctx_cancel, Wait. wsimpl.
  erewrite drain_last; [| reflexivity | assumption].
  unfold drain_one. wsimpl.
  rewrite list_lookup_middle by reflexivity.
  assert (Hdone : forall r gs' ps' ls',
             ctx_done c {| rerun := r; ctxs := <[c:=true]> cs; gos := gs';
                           procs := ps'; logs := ls' |} = true).
  { intros. unfold ctx_done. wsimpl. now rewrite list_lookup_insert_eq. }
  rewrite Hdone.
  destruct st; [| | now destruct Hst].
  - erewrite go_enter_last by reflexivity. wsimpl. rewrite Hdone. cbn [orb].
    erewrite go_leave_last; [| reflexivity | apply Hdone | wsimpl; lia].
    wsimpl. cbn [entering Z.sub Z.add Z.opp Z.pos_sub Z.eqb].
    now rewrite <- !app_assoc.
  - rewrite go_enter_idle by (wsimpl; intros g; rewrite list_lookup_middle by reflexivity;
                              intros [= <-]; discriminate).
    erewrite go_leave_last; [| reflexivity | apply Hdone | wsimpl; lia].
    wsimpl. cbn [entering Z.sub Z.add Z.opp Z.pos_sub Z.eqb].
    now rewrite <- !app_assoc.
Qed.

(** [Start] while exiting only replaces the cancel function. *)
Lemma Start_exiting w :
  exiting (rerun w) = true ->
  Start w =
  Ret tt {| rerun := set_cancel (Some (length (ctxs w))) (rerun w);
            ctxs := ctxs w ++ [false];
            gos := gos w; procs := procs w;
            logs := logs w ++ [CalledStart] |}.
Proof.
  destruct w as [[wg cmd ex cn wt] cs gs ps ls]. wsimpl. intros ->.
  unfold Start, WithCancel. wsimpl. reflexivity.
Qed.

(** [Start] otherwise also counts one more goroutine and launches it. *)
Lemma Start_launches w :
  exiting (rerun w) = false ->
  0 <= WaitGroup (rerun w) + 1 ->
  Start w =
  Ret tt {| rerun := set_WaitGroup (WaitGroup (rerun w) + 1)
                       (set_cancel (Some (length (ctxs w))) (rerun w));
            ctxs := ctxs w ++ [false];
            gos := gos w ++ [ {| g_ctx := length (ctxs w); g_state := Spawned;
                                 g_cmd := None |} ];
            procs := procs w;
            logs := logs w ++ [CalledStart] |}.
Proof.
  destruct w as [[wg cmd ex cn wt] cs gs ps ls]. wsimpl. intros -> Hwg.
  unfold Start, WithCancel, wg_Add, go. wsimpl. cbn [negb].
  destruct (Z.ltb_spec (wg + 1) 0) as [Hlt | _]; [lia | reflexivity].
Qed.

(** The watchers of [exec.CommandContext] only touch the process table. *)
Lemma exec_watch_frame g w :
  exists ps, exec_watch g w = with_procs (fun _ => ps) w.
Proof.
  unfold exec_watch, Process_Kill. destruct w as [r cs gs ps ls].
  destruct (g_cmd g) as [pid |]; [| now exists ps].
  destruct (ctx_done _ _); [| now exists ps].
  now exists (SIGKILL pid ps).
Qed.

Lemma exec_watches_frame l w :
  exists ps, foldr exec_watch w l = with_procs (fun _ => ps) w.
Proof.
  induction l as [| g l [ps IH]]; cbn [foldr].
  - exists (procs w). now destruct w.
  - rewrite IH. destruct (exec_watch_frame g (with_procs (fun _ => ps) w)) as [ps' ->].
    now exists ps'.
Qed.

Lemma for_each_returned (f : nat -> M unit) w l g :
  gos w = l ++ [g] -> Forall returned l ->
  (forall i, (forall gi, gos w !! i = Some gi -> g_state gi = Returned) ->
             f i w = Ret tt w) ->
  for_each (seq 0 (length l)) f w = Ret tt w.
Proof.
  intros Hg Hl Hf. apply for_each_idle. intros i Hi. apply Hf.
  intros gi Hgi. rewrite Hg in Hgi. eapply lookup_returned; eauto.
Qed.

Lemma go_enter_returned ok i w :
  (forall gi, gos w !! i = Some gi -> g_state gi = Returned) ->
  go_enter ok i w = Ret tt w.
Proof.
  intros H. apply go_enter_idle. intros g Hg. rewrite (H _ Hg). discriminate.
Qed.

Lemma go_leave_returned i w :
  (forall gi, gos w !! i = Some gi -> g_state gi = Returned) ->
  go_leave i w = Ret tt w.
Proof.
  intros H. apply go_leave_idle. intros g Hg Hs. rewrite (H _ Hg) in Hs. discriminate.
Qed.

(** Once every goroutine is in its loop or returned and the last one's
    context is not done, a scheduling round only lets the watchers of
    [exec.CommandContext] act. *)
Lemma tick_settled w l c p :
  gos w = l ++ [ {| g_ctx := c; g_state := Looping; g_cmd := p |} ] ->
  Forall returned l -> ctx_done c w = false ->
  exists ps,
    (for_each (seq 0 (length l) ++ [length l]) go_leave ;;
     modify (fun w => foldr exec_watch w (gos w))) w =
    Ret tt (with_procs (fun _ => ps) w).
Proof.
  intros Hg Hl Hdone.
  destruct (exec_watches_frame (gos w) w) as [ps Hps]. exists ps.
  rewrite (seq_Ret _ _ _ tt w); [unfold modify; now rewrite Hps |].
  rewrite for_each_app.
  rewrite (seq_Ret _ _ _ tt w).
  - cbn [for_each]. rewrite (seq_Ret _ _ _ tt w); [reflexivity |].
    apply go_leave_idle. intros g. rewrite Hg, list_lookup_middle by reflexivity.
    intros [= <-] _. exact Hdone.
  - eapply for_each_returned; eauto. intros; now apply go_leave_returned.
Qed.

(** The other goroutines run while one execution is under way. *)
Lemma tick_last ok w l g :
  gos w = l ++ [g] -> Forall returned l -> g_state g <> Returned ->
  ctx_done (g_ctx g) w = false ->
  exists ps,
    tick ok w =
    Ret tt {| rerun := rerun w; ctxs := ctxs w;
              gos := l ++ [ {| g_ctx := g_ctx g; g_state := Looping;
                               g_cmd := match g_state g with
                                        | Spawned => if ok then Some (length (procs w)) else None
                                        | _ => g_cmd g
                                        end |} ];
              procs := ps;
              logs := logs w ++ entering (g_state g) (Command (rerun w)) |}.
Proof.
  destruct g as [c st p]. cbn [g_ctx g_state g_cmd].
  intros Hg Hl Hst Hdone.
  unfold tick, all_gos.
  rewrite (bind_Ret _ _ w _ w) by reflexivity.
  rewrite Hg, length_app, Nat.add_1_r, seq_S. cbn [plus].
  destruct st; [| | now destruct Hst].
  - erewrite seq_Ret; cycle 1.
    { rewrite for_each_app. rewrite (seq_Ret _ _ _ tt w).
      - cbn [for_each]. erewrite seq_Ret; [reflexivity |].
        eapply go_enter_last, Hg.
      - eapply for_each_returned; eauto. intros; now apply go_enter_returned. }
    rewrite Hdone. cbn [orb].
    edestruct tick_settled as [ps ->]; [reflexivity | exact Hl | | ].
    + destruct w; exact Hdone.
    + exists ps. destruct w as [r cs gs pr ls0], ok; wsimpl; reflexivity.
  - rewrite (seq_Ret _ _ w tt w); cycle 1.
    { rewrite for_each_app. rewrite (seq_Ret _ _ _ tt w).
      - cbn [for_each]. rewrite (seq_Ret _ _ _ tt w); [reflexivity |].
        apply go_enter_idle. intros g. rewrite Hg, list_lookup_middle by reflexivity.
        intros [= <-]. discriminate.
      - eapply for_each_returned; eauto. intros; now apply go_enter_returned. }
    edestruct tick_settled as [ps ->]; [exact Hg | exact Hl | exact Hdone |].
    exists ps. destruct w as [r cs gs pr ls0]. wsimpl. cbn [entering].
    subst gs. now rewrite app_nil_r.
Qed.

(** ** Events *)

Lemma UnwatchDir_watching path S L w :
  UnwatchDir path (watching S L w) =
  if fsnotify.closed (watcher (rerun w))
  then Ret tt (watching S (L ++ [RemovedDir path]) w)
  else if decide (path ∈ S)
       then Ret tt (watching (S ∖ {[path]}) (L ++ [RemovedDir path]) w)
       else Ret tt (watching S L w).
Proof.
  destruct w as [[wg cmd ex cn [ws cl er]] cs gs ps ls].
  unfold UnwatchDir, watcher_Remove, fsnotify.Remove_, watching. wsimpl.
  cbn [fsnotify.watches fsnotify.closed]. destruct cl; [reflexivity |].
  now destruct (decide (path ∈ S)).
Qed.

Lemma log_watching l S L w :
  log l (watching S L w) = Ret tt (watching S (L ++ [l]) w).
Proof. reflexivity. Qed.

Lemma closed_watching S L w :
  fsnotify.closed (watcher (rerun (watching S L w))) = fsnotify.closed (watcher (rerun w)).
Proof. reflexivity. Qed.

(** The create branch of the loop. *)
Lemma create_branch_watching env ev S L w :
  (if fsnotify.has fsnotify.Create ev then
     match Stat env (fsnotify.EName ev) with
     | None => log (UnableToStat (fsnotify.EName ev))
     | Some fileInfo =>
         _ ← WatchDir env (fsnotify.EName ev) fileInfo NoError; ret tt
     end
   else ret tt) (watching S L w) =
  Ret tt (watching (after_create env ev (fsnotify.closed (watcher (rerun w))) S)
                   (L ++ create_log env ev (fsnotify.closed (watcher (rerun w)))) w).
Proof.
  unfold after_create, create_log.
  destruct (fsnotify.has fsnotify.Create ev); [| now rewrite app_nil_r].
  destruct (Stat env (fsnotify.EName ev)) as [f |]; [| reflexivity].
  unfold mbind, M_bind, bind. rewrite WatchDir_watching.
  destruct (IsDir f); cbn [andb]; [| now rewrite app_nil_r].
  destruct (String.eqb (Name f) ".git"); cbn [andb negb]; [reflexivity |].
  destruct (fsnotify.closed (watcher (rerun w))); cbn [andb negb orb]; [reflexivity |].
  now destruct (Add_refused env (fsnotify.EName ev)).
Qed.

(** The remove branch of the loop. *)
Lemma remove_branch_watching ev S L w :
  (if fsnotify.has fsnotify.Remove ev
   then UnwatchDir (fsnotify.EName ev) else ret tt) (watching S L w) =
  Ret tt (watching (after_remove ev (fsnotify.closed (watcher (rerun w))) S)
                   (L ++ remove_log ev (fsnotify.closed (watcher (rerun w))) S) w).
Proof.
  unfold after_remove, remove_log.
  destruct (fsnotify.has fsnotify.Remove ev); cbn [andb]; [| now rewrite app_nil_r].
  rewrite UnwatchDir_watching.
  destruct (fsnotify.closed (watcher (rerun w))); cbn [negb orb]; [reflexivity |].
  destruct (decide (fsnotify.EName ev ∈ S)) as [Hin | Hout].
  - now rewrite bool_decide_true.
  - rewrite bool_decide_false by assumption.
    rewrite app_nil_r. replace (S ∖ {[fsnotify.EName ev]}) with S; [reflexivity |].
    clear - Hout. set_solver.
Qed.

(** The event branch of the loop: the two updates of the watch set, then
    [Stop] and [Start]. *)
Lemma handle_event_watching env ev S L w :
  handle_event env ev (watching S L w) =
  (Stop ;; Start)
    (watching
       (after_remove ev (fsnotify.closed (watcher (rerun w)))
          (after_create env ev (fsnotify.closed (watcher (rerun w))) S))
       (L ++ [ReceivedEvent; FileSystemEvent ev]
          ++ create_log env ev (fsnotify.closed (watcher (rerun w)))
          ++ remove_log ev (fsnotify.closed (watcher (rerun w)))
               (after_create env ev (fsnotify.closed (watcher (rerun w))) S))
       w).
Proof.
  unfold handle_event.
  rewrite (seq_Ret _ _ _ _ _ (log_watching _ _ _ _)).
  rewrite (seq_Ret _ _ _ _ _ (log_watching _ _ _ _)).
  rewrite (seq_Ret _ _ _ _ _ (create_branch_watching _ _ _ _ _)).
  rewrite (seq_Ret _ _ _ _ _ (remove_branch_watching _ _ _ _)).
  now rewrite <- !app_assoc.
Qed.

(** ** One execution at a time *)

Lemma running_watching S L w : running w -> running (watching S L w).
Proof. intros [Hwg Hex Hgo]. now split. Qed.

Lemma current_last w l g : gos w = l ++ [g] -> current w = g_state g.
Proof. intros H. unfold current. now rewrite H, last_snoc. Qed.

(** [Stop] with one execution under way: the context is cancelled, the
    goroutine runs to its end, the wait group falls to zero, and [Stop]
    returns.  The process table is not touched. *)
Lemma running_Stop w :
  WaitGroup (rerun w) = 1 ->
  (exists l g,
      gos w = l ++ [g] /\ Forall returned l /\ g_state g <> Returned /\
      cancel (rerun w) = Some (g_ctx g) /\ ctxs w !! g_ctx g = Some false) ->
  exists w',
    Stop w = Ret tt w' /\ quiet w' /\
    rerun w' = set_WaitGroup 0 (rerun w) /\
    procs w' = procs w /\
    length (ctxs w') = length (ctxs w) /\
    logs w' = logs w ++ [CalledStop; WaitingForWaitgroup]
                ++ entering (current w) (Command (rerun w)) ++ [CommandStopped].
Proof.
  intros Hwg (l & g & Hg & Hl & Hst & Hc & Hctx).
  eexists. split.
  - apply (Stop_last w l g); auto. eapply lookup_lt_Some, Hctx.
  - split; [split |]; cbn [rerun gos procs logs ctxs].
    + reflexivity.
    + apply Forall_app. split; [assumption |]. now repeat constructor.
    + rewrite (current_last _ _ _ Hg), length_insert. auto.
Qed.

(** [Start] when nothing runs and the program is not exiting. *)
Lemma quiet_Start w :
  quiet w -> exiting (rerun w) = false ->
  exists w',
    Start w = Ret tt w' /\ running w' /\ current w' = Spawned /\
    rerun w' = set_WaitGroup 1 (set_cancel (Some (length (ctxs w))) (rerun w)) /\
    procs w' = procs w /\
    logs w' = logs w ++ [CalledStart].
Proof.
  intros [Hwg Hgos] Hex. eexists. split.
  - apply Start_launches; [assumption | lia].
  - rewrite Hwg. cbn [Z.add].
    split; [split |]; cbn [rerun gos procs logs ctxs].
    + reflexivity.
    + destruct w as [[] ?]. exact Hex.
    + eexists _, _. split; [reflexivity |]. split; [assumption |].
      cbn [g_state g_ctx]. split; [discriminate |].
      split; [now destruct w as [[] ?] |].
      now rewrite lookup_app_r, Nat.sub_diag by lia.
    + split; [| auto]. unfold current. cbn [gos]. now rewrite last_snoc.
Qed.

Lemma timeline_app t l1 l2 :
  timeline t (l1 ++ l2) =
  match timeline t l1 with Some t' => timeline t' l2 | None => None end.
Proof.
  revert t. induction l1 as [| l l1 IH]; intros t; [reflexivity |].
  cbn [timeline app]. destruct (advance t l); [apply IH | reflexivity].
Qed.

Lemma timeline_neutral t X :
  Forall (fun l => neutral l = true) X -> timeline t X = Some t.
Proof.
  induction 1 as [| l X Hl _ IH]; [reflexivity |].
  cbn [timeline]. now destruct l; try discriminate Hl; cbn [advance].
Qed.

Lemma create_log_neutral env ev cl :
  Forall (fun l => neutral l = true) (create_log env ev cl).
Proof.
  unfold create_log. destruct (fsnotify.has _ _); [| constructor].
  destruct (Stat _ _) as [f |]; [| now repeat constructor].
  destruct (IsDir f); [| constructor].
  destruct (String.eqb _ _); [now repeat constructor |].
  destruct (_ || _); now repeat constructor.
Qed.

Lemma remove_log_neutral ev cl S :
  Forall (fun l => neutral l = true) (remove_log ev cl S).
Proof.
  unfold remove_log. destruct (fsnotify.has _ _); [| constructor].
  destruct (_ || _); now repeat constructor.
Qed.

(** The timeline of one event: the execution under way ends before [Start]
    is called again, and the restart is over when the next event comes. *)
Lemma timeline_event st cmd ev X :
  st <> Returned ->
  Forall (fun l => neutral l = true) X ->
  timeline {| launched := true; executing := is_Looping st; restarting := false;
              closing := false |}
           ([ReceivedEvent; FileSystemEvent ev] ++ X
              ++ ([CalledStop; WaitingForWaitgroup] ++ entering st cmd ++ [CommandStopped])
              ++ [CalledStart])
  = Some {| launched := true; executing := false; restarting := false;
            closing := false |}.
Proof.
  intros Hst HX.
  cbn [app timeline advance launched executing restarting closing orb andb negb].
  rewrite timeline_app, (timeline_neutral _ _ HX).
  destruct st; [reflexivity | reflexivity | now destruct Hst].
Qed.

(** [Stop] then [Start] with one execution under way. *)
Lemma running_restart w :
  running w ->
  exists w',
    (Stop ;; Start) w = Ret tt w' /\ running w' /\ current w' = Spawned /\
    watcher (rerun w') = watcher (rerun w) /\
    Command (rerun w') = Command (rerun w) /\
    procs w' = procs w /\
    logs w' = logs w ++ ([CalledStop; WaitingForWaitgroup]
                           ++ entering (current w) (Command (rerun w))
                           ++ [CommandStopped]) ++ [CalledStart].
Proof.
  intros [Hwg Hex Hgo].
  destruct (running_Stop w Hwg Hgo) as (w1 & HStop & Hquiet & Hr1 & Hp1 & _ & Hl1).
  destruct (quiet_Start w1 Hquiet) as (w2 & HStart & Hrun & Hcur & Hr2 & Hp2 & Hl2).
  { rewrite Hr1. now destruct (rerun w). }
  exists w2. rewrite (seq_Ret _ _ _ _ _ HStop).
  split; [exact HStart |]. split; [exact Hrun |]. split; [exact Hcur |].
  rewrite Hr2, Hr1, Hp2, Hp1, Hl2, Hl1, <- app_assoc. now destruct (rerun w).
Qed.

Lemma current_running w : running w -> current w <> Returned.
Proof.
  intros [_ _ (l & g & Hg & _ & Hst & _)]. now rewrite (current_last _ _ _ Hg).
Qed.

(** An event in a steady state leads to a steady state. *)
Lemma handle_event_on_time env ev w :
  on_time w ->
  exists w', handle_event env ev w = Ret tt w' /\ on_time w'.
Proof.
  intros [Hrun Hlog].
  replace (handle_event env ev w)
    with (handle_event env ev (watching (registered w) (logs w) w))
    by now rewrite watching_self.
  rewrite handle_event_watching.
  set (S' := after_remove ev _ _). set (L' := logs w ++ _).
  destruct (running_restart (watching S' L' w) (running_watching _ _ _ Hrun))
    as (w' & Hgo & Hrun' & Hcur' & _ & _ & _ & Hlog').
  exists w'. split; [exact Hgo |]. split; [exact Hrun' |].
  rewrite Hlog'. cbn [logs watching with_logs]. unfold L'.
  rewrite <- !app_assoc, timeline_app, Hlog.
  unfold steady. rewrite Hcur'. cbn [is_Looping].
  change (current (watching S' (logs w ++ _) w)) with (current w).
  pose proof (timeline_event (current w) (Command (rerun w)) ev
                (create_log env ev (fsnotify.closed (watcher (rerun w)))
                   ++ remove_log ev (fsnotify.closed (watcher (rerun w)))
                        (after_create env ev (fsnotify.closed (watcher (rerun w)))
                           (registered w)))
                (current_running w Hrun)) as Ht.
  rewrite <- !app_assoc in Ht. apply Ht.
  apply Forall_app. split; [apply create_log_neutral | apply remove_log_neutral].
Qed.

Lemma ctx_done_false c w : ctxs w !! c = Some false -> ctx_done c w = false.
Proof. unfold ctx_done. now intros ->. Qed.

(** A scheduling round in a steady state. *)
Lemma tick_on_time ok w :
  on_time w -> exists w', tick ok w = Ret tt w' /\ on_time w'.
Proof.
  intros [[Hwg Hex (l & g & Hg & Hl & Hst & Hc & Hctx)] Hlog].
  destruct (tick_last ok w l g Hg Hl Hst (ctx_done_false _ _ Hctx)) as [ps Htick].
  eexists. split; [exact Htick |]. split.
  - split; cbn [rerun gos ctxs]; [assumption | assumption |].
    eexists l, _. split; [reflexivity |]. split; [assumption |].
    cbn [g_state g_ctx]. split; [discriminate |]. now split.
  - cbn [logs]. rewrite timeline_app, Hlog. unfold steady, current.
    cbn [gos]. rewrite Hg, !last_snoc. cbn [g_state is_Looping].
    destruct (g_state g); [reflexivity | reflexivity | now destruct Hst].
Qed.

Lemma fork_frame p w : exists ps, fork p w = with_procs (fun _ => ps) w.
Proof.
  unfold fork. destruct (procs w !! p) as [[? ? []] |]; eauto;
    exists (procs w); now destruct w.
Qed.

Lemma on_time_procs ps w : on_time w -> on_time (with_procs (fun _ => ps) w).
Proof. intros [[Hwg Hex Hgo] Hlog]. now repeat split. Qed.

Lemma on_time_watcher f w :
  on_time w -> on_time (with_rerun (fun r => set_watcher (f r) r) w).
Proof. intros [[Hwg Hex Hgo] Hlog]. now repeat split. Qed.

(** [cleanup] with one execution under way: the execution ends and the
    watcher is closed. *)
Lemma running_cleanup w :
  WaitGroup (rerun w) = 1 ->
  (exists l g,
      gos w = l ++ [g] /\ Forall returned l /\ g_state g <> Returned /\
      cancel (rerun w) = Some (g_ctx g) /\ ctxs w !! g_ctx g = Some false) ->
  exists w',
    cleanup w = Ret tt w' /\ winding_down w' /\
    procs w' = procs w /\
    length (gos w') = length (gos w) /\
    Command (rerun w') = Command (rerun w) /\
    logs w' = logs w ++ [CalledCleanup]
                ++ ([CalledStop; WaitingForWaitgroup]
                      ++ entering (current w) (Command (rerun w))
                      ++ [CommandStopped])
                ++ [StoppingWatcher].
Proof.
  intros Hwg Hgo.
  set (w0 := with_rerun (set_exiting true) (with_logs (fun ls => ls ++ [CalledCleanup]) w)).
  assert (Hgo0 : exists l g,
             gos w0 = l ++ [g] /\ Forall returned l /\ g_state g <> Returned /\
             cancel (rerun w0) = Some (g_ctx g) /\ ctxs w0 !! g_ctx g = Some false).
  { destruct w as [[] ?]. exact Hgo. }
  destruct (running_Stop w0) as (w1 & HStop & [Hq1 Hq2] & Hr1 & Hp1 & _ & Hl1);
    [destruct w as [[] ?]; exact Hwg | exact Hgo0 |].
  assert (Hlen : length (gos w1) = length (gos w)).
  { destruct Hgo0 as (l & g & Hg & Hl & Hst & Hc & Hctx).
    assert (Hlt : (g_ctx g < length (ctxs w0))%nat) by (eapply lookup_lt_Some, Hctx).
    assert (Hwg0 : WaitGroup (rerun w0) = 1) by (destruct w as [[] ?]; exact Hwg).
    pose proof (Stop_last w0 l g Hg Hl Hst Hc Hlt Hwg0) as HS.
    rewrite HS in HStop. injection HStop as <-. cbn [gos].
    change (gos w) with (gos w0). rewrite Hg, !length_app. reflexivity. }
  unfold cleanup.
  unfold mbind, M_bind, bind, log, modify. fold w0. rewrite HStop.
  eexists. split; [reflexivity |].
  destruct Hgo as (l & g & _ & _ & _ & Hc & _).
  destruct w1 as [r1 cs1 gs1 ps1 ls1]. cbn [rerun gos procs logs] in *.
  subst r1 ps1 ls1. unfold current, w0.
  destruct w as [[wg cmd ex cn wt] cs gs ps ls]. wsimpl.
  split; [| split; [reflexivity | split; [exact Hlen | split; [reflexivity |] ] ] ].
  - split; cbn [rerun gos exiting watcher cancel WaitGroup fsnotify.closed fsnotify.Close];
      [now split | reflexivity | reflexivity |].
    cbn [rerun cancel] in Hc. rewrite Hc. discriminate.
  - now rewrite <- !app_assoc.
Qed.

(** [Stop] with no execution under way. *)
Lemma quiet_Stop w c :
  quiet w -> cancel (rerun w) = Some c ->
  Stop w = Ret tt (with_ctxs (<[c:=true]>)
                     (with_logs (fun ls => ls ++ [CalledStop; WaitingForWaitgroup]) w)).
Proof.
  intros [Hwg Hgos] Hc.
  destruct w as [[wg cmd ex cn wt] cs gs ps ls].
  cbn [rerun cancel ctxs WaitGroup gos] in *. subst wg cn.
  unfold Stop, call_cancel, ctx_cancel, Wait. wsimpl.
  unfold drain, all_gos. wsimpl.
  rewrite for_each_idle.
  - wsimpl. now rewrite <- app_assoc.
  - intros i _. apply drain_one_idle. cbn [gos]. intros g Hg.
    rewrite Forall_forall in Hgos. eapply Hgos, list_elem_of_lookup_2, Hg.
Qed.

(** A round of the loop after [cleanup]: the zero event is received from
    the closed channel, there is nothing to stop, and [Start] launches
    nothing. *)
Lemma winding_event env w :
  winding_down w ->
  exists w',
    handle_event env fsnotify.zero_Event w = Ret tt w' /\ winding_down w' /\
    gos w' = gos w /\ procs w' = procs w /\
    watcher (rerun w') = watcher (rerun w) /\
    Command (rerun w') = Command (rerun w) /\
    logs w' = logs w ++ [ReceivedEvent; FileSystemEvent fsnotify.zero_Event;
                         CalledStop; WaitingForWaitgroup; CalledStart].
Proof.
  intros [[Hwg Hgos] Hex Hcl Hcn].
  destruct (cancel (rerun w)) as [c |] eqn:Hc; [clear Hcn | now destruct Hcn].
  unfold handle_event. cbn [fsnotify.has fsnotify.zero_Event fsnotify.Op Z.land Z.eqb].
  do 2 rewrite (seq_Ret (log _) _ _ tt _ eq_refl).
  do 2 rewrite (seq_Ret (ret tt) _ _ tt _ eq_refl).
  erewrite seq_Ret; cycle 1.
  { apply (quiet_Stop _ c); [split; [exact Hwg | exact Hgos] | exact Hc]. }
  rewrite Start_exiting by exact Hex.
  eexists. split; [reflexivity |].
  destruct w as [[wg cmd ex cn wt] cs gs ps ls].
  cbn [rerun gos procs logs ctxs WaitGroup exiting cancel watcher] in *.
  split; [| repeat split; try reflexivity; cbn; now rewrite <- !app_assoc].
  split; cbn; [now split | assumption | assumption | discriminate].
Qed.

Lemma receive_closed env ev w :
  fsnotify.closed (watcher (rerun w)) = true ->
  receive env ev w = handle_event env fsnotify.zero_Event w.
Proof. unfold receive. now intros ->. Qed.

Lemma receive_stalled env ev w :
  stalled w = true -> receive env ev w = Ret tt w.
Proof.
  unfold receive, stalled, fsnotify.blocked. intros H.
  apply andb_true_iff in H as [Hcl Hb]. apply negb_true_iff in Hcl.
  now rewrite Hcl, Hb.
Qed.

(** What [receive] hands to [handle_event], if anything. *)
Lemma receive_cases env ev w :
  receive env ev w = Ret tt w \/
  exists ev', receive env ev w = handle_event env ev' w.
Proof.
  unfold receive. destruct (fsnotify.closed _); [right; eauto |].
  destruct (fsnotify.blocked _); [now left | right; eauto].
Qed.

(** One delivery in a steady state. *)
Lemma deliver_on_time d w :
  d <> Signalled -> on_time w ->
  exists w', deliver d w = Ret tt w' /\ on_time w'.
Proof.
  intros Hd Hw. destruct d as [env ev | e | ok | p | | path]; cbn [deliver].
  - destruct (receive_cases env ev w) as [-> | [ev' ->]]; [now exists w |].
    now apply handle_event_on_time.
  - eexists. split; [reflexivity |].
    apply (on_time_watcher (fun r => fsnotify.offer e (watcher r))), Hw.
  - now apply tick_on_time.
  - eexists. split; [reflexivity |].
    destruct (fork_frame p w) as [ps ->]. now apply on_time_procs.
  - now destruct Hd.
  - eexists. split; [reflexivity |].
    apply (on_time_watcher (fun r => fsnotify.drop_watch path (watcher r))), Hw.
Qed.

Lemma winding_down_procs ps w :
  winding_down w -> winding_down (with_procs (fun _ => ps) w).
Proof. intros [[Hwg Hgos] Hex Hcl Hcn]. now repeat split. Qed.

Lemma winding_down_watcher x w :
  winding_down w -> fsnotify.closed x = true ->
  winding_down (with_rerun (set_watcher x) w).
Proof. intros [[Hwg Hgos] Hex Hcl Hcn] Hx. now repeat split. Qed.

(** ** Startup *)

Section Traversal_log.
Variable env : Env.

Lemma walk_entries_log path es :
  Forall (fun n => forall path S L w, exists e S' X,
              filepath.walk (WatchDir env) path n (watching S L w)
              = Ret e (watching S' (L ++ X) w) /\
              Forall (fun l => neutral l = true) X) es ->
  forall S L w, exists e S' X,
    filepath.walk_entries (filepath.walk (WatchDir env)) path es (watching S L w)
    = Ret e (watching S' (L ++ X) w) /\
    Forall (fun l => neutral l = true) X.
Proof.
  induction 1 as [| n es Hn _ IH]; intros S L w.
  - exists NoError, S, []. rewrite app_nil_r. now split.
  - destruct (Hn (Join path (node_name n)) S L w) as (e1 & S1 & X1 & Hrun & HX1).
    destruct (IH S1 (L ++ X1) w) as (e2 & S2 & X2 & Hrest & HX2).
    cbn [filepath.walk_entries]. rewrite (bind_Ret _ _ _ _ _ Hrun).
    assert (Hcontinue :
              exists e S' X,
                filepath.walk_entries (filepath.walk (WatchDir env)) path es
                  (watching S1 (L ++ X1) w) = Ret e (watching S' (L ++ X) w) /\
                Forall (fun l => neutral l = true) X).
    { exists e2, S2, (X1 ++ X2). rewrite app_assoc. split; [exact Hrest |].
      apply Forall_app. now split. }
    destruct (is_nil e1); [exact Hcontinue |].
    destruct (negb (IsDir (node_info n)) || negb (is_SkipDir e1));
      [| exact Hcontinue].
    now exists e1, S1, X1.
Qed.

Lemma walk_log n :
  forall path S L w, exists e S' X,
    filepath.walk (WatchDir env) path n (watching S L w)
    = Ret e (watching S' (L ++ X) w) /\
    Forall (fun l => neutral l = true) X.
Proof.
  induction n as [s | s es IH] using Node_tree_ind; intros path S L w.
  - exists NoError, S, []. cbn [filepath.walk]. rewrite WatchDir_watching.
    cbn. rewrite app_nil_r. now split.
  - cbn [filepath.walk node_info].
    unfold mbind at 1, M_bind at 1, bind at 1.
    rewrite WatchDir_watching. cbn [IsDir Name].
    destruct (String.eqb s ".git").
    { exists SkipDir, S, [IgnoringGit]. split; [reflexivity | now repeat constructor]. }
    destruct (fsnotify.closed (watcher (rerun w))).
    { eexists _, S, [UnableToWatch path]. split; [reflexivity | now repeat constructor]. }
    destruct (Add_refused env path).
    { eexists _, S, [UnableToWatch path]. split; [reflexivity | now repeat constructor]. }
    cbn [is_nil].
    destruct (walk_entries_log path es IH ({[path]} ∪ S) (L ++ [AddedDir path]) w)
      as (e & S' & X & Hrun & HX).
    exists e, S', (AddedDir path :: X). split.
    + rewrite Hrun. now rewrite <- app_assoc.
    + now constructor.
Qed.

End Traversal_log.

(** The three ways [NewRerun] ends: no watcher, no current directory, or
    the traversal has run. *)
Lemma NewRerun_cases env command w :
  let w0 := with_rerun (fun r => set_Command command (set_exiting false r)) w in
  let w1 := with_rerun (set_watcher fsnotify.NewWatcher) w0 in
  (NewWatcher_ok env = false /\
   NewRerun env command w =
   Exit 1 (with_logs (fun ls => ls ++ [CalledNewRerun; FatalWatcher]) w0)) \/
  (NewWatcher_ok env = true /\ Getwd env = None /\
   NewRerun env command w =
   Exit 1 (with_logs (fun ls => ls ++ [CalledNewRerun; FatalGetwd]) w1)) \/
  (NewWatcher_ok env = true /\ Getwd env <> None /\
   exists S X,
     NewRerun env command w =
     Ret tt (watching S (logs w ++ [CalledNewRerun; FindingSubDirs] ++ X) w1) /\
     Forall (fun l => neutral l = true) X).
Proof.
  intros w0 w1. unfold NewRerun.
  destruct w as [[wg cmd ex cn wt] cs gs ps ls].
  destruct (NewWatcher_ok env).
  2:{ left. split; [reflexivity |]. unfold w0. wsimpl. now rewrite <- app_assoc. }
  right. destruct (Getwd env) as [cwd |].
  2:{ left. split; [reflexivity |]. split; [reflexivity |].
      unfold w1, w0. wsimpl. now rewrite <- app_assoc. }
  right. split; [reflexivity |]. split; [discriminate |].
  destruct (walk_log env (tree env) cwd ∅ (ls ++ [CalledNewRerun; FindingSubDirs]) w1)
    as (e & S & X & Hrun & HX).
  exists S, X. split; [| exact HX].
  unfold filepath.Walk. unfold w1, w0 in *. wsimpl.
  change (filepath.walk (WatchDir env) cwd (tree env) _)
    with (filepath.walk (WatchDir env) cwd (tree env)
            (watching ∅ ((ls ++ [CalledNewRerun]) ++ [FindingSubDirs])
               {| rerun := {| WaitGroup := wg; Command := command; exiting := false;
                              cancel := cn; watcher := fsnotify.NewWatcher |};
                  ctxs := cs; gos := gs; procs := ps; logs := ls |})).
  rewrite <- app_assoc. cbn [app] in *. rewrite Hrun.
  destruct (is_SkipDir e); wsimpl; now rewrite <- app_assoc.
Qed.

(** A scheduling round when every goroutine has returned: only the watchers
    of [exec.CommandContext] act. *)
Lemma tick_quiet ok w :
  Forall returned (gos w) -> tick ok w = Ret tt (foldr exec_watch w (gos w)).
Proof.
  intros Hq. unfold tick, all_gos.
  rewrite (bind_Ret _ _ w _ w) by reflexivity.
  assert (Hidle : forall f : nat -> M unit,
             (forall i, (forall gi, gos w !! i = Some gi -> g_state gi = Returned) ->
                        f i w = Ret tt w) ->
             for_each (seq 0 (length (gos w))) f w = Ret tt w).
  { intros f Hf. apply for_each_idle. intros i _. apply Hf. intros gi Hgi.
    rewrite Forall_forall in Hq. eapply Hq, list_elem_of_lookup_2, Hgi. }
  rewrite (seq_Ret _ _ w tt w) by (apply Hidle; intros; now apply go_enter_returned).
  rewrite (seq_Ret _ _ w tt w) by (apply Hidle; intros; now apply go_leave_returned).
  reflexivity.
Qed.

(** ** The controller loop *)

Lemma main_loop_cons d ds :
  d <> Signalled -> main_loop (d :: ds) = (deliver d ;; main_loop ds).
Proof. intros Hd. destruct d; try reflexivity. now destruct Hd. Qed.

Lemma signal_or_not d : d = Signalled \/ d <> Signalled.
Proof. destruct d; first [now left | now right]. Qed.

Lemma main_loop_signal ds :
  main_loop (Signalled :: ds) = (cleanup ;; last_rounds ds).
Proof. reflexivity. Qed.

(** One delivery after [cleanup]: at most a round of the loop on the zero
    event, in which nothing is stopped and nothing is launched. *)
Lemma deliver_winding d w :
  winding_down w ->
  exists w' X,
    deliver d w = Ret tt w' /\ winding_down w' /\
    gos w' = gos w /\ Command (rerun w') = Command (rerun w) /\
    logs w' = logs w ++ X /\
    timeline end_of_time X = Some end_of_time /\
    Forall (fun l => idle_line l = true) X.
Proof.
  intros Hw.
  assert (Hsame : forall w', winding_down w' -> gos w' = gos w ->
                             Command (rerun w') = Command (rerun w) ->
                             logs w' = logs w ->
                             exists w'' X,
                               Ret tt w' = Ret tt w'' /\ winding_down w'' /\
                               gos w'' = gos w /\
                               Command (rerun w'') = Command (rerun w) /\
                               logs w'' = logs w ++ X /\
                               timeline end_of_time X = Some end_of_time /\
                               Forall (fun l => idle_line l = true) X).
  { intros w' H1 H2 H3 H4. exists w', []. rewrite app_nil_r.
    split; [reflexivity |]. split; [exact H1 |]. split; [exact H2 |].
    split; [exact H3 |]. split; [exact H4 |]. split; [reflexivity | constructor]. }
  destruct d as [env ev | e | ok | p | | path]; cbn [deliver].
  - rewrite receive_closed by apply Hw.
    destruct (winding_event env w Hw) as (w' & Hrun & Hw' & Hg & _ & _ & Hc & Hl).
    exists w', [ReceivedEvent; FileSystemEvent fsnotify.zero_Event;
                CalledStop; WaitingForWaitgroup; CalledStart].
    split; [exact Hrun |]. split; [exact Hw' |]. split; [exact Hg |].
    split; [exact Hc |]. split; [exact Hl |]. split; [reflexivity |].
    now repeat constructor.
  - apply Hsame; try reflexivity.
    apply winding_down_watcher; [exact Hw |].
    unfold fsnotify.offer. destruct Hw as [_ _ Hcl _]. now rewrite Hcl.
  - rewrite tick_quiet by apply Hw.
    destruct (exec_watches_frame (gos w) w) as [ps ->].
    apply Hsame; try reflexivity. now apply winding_down_procs.
  - unfold modify. destruct (fork_frame p w) as [ps ->].
    apply Hsame; try reflexivity. now apply winding_down_procs.
  - now apply Hsame.
  - apply Hsame; try reflexivity.
    apply winding_down_watcher; [exact Hw |]. apply Hw.
Qed.

(** After [cleanup] the loop goes on until [os.Exit(1)] takes effect: it
    launches nothing and only logs idle rounds. *)
Lemma last_rounds_winding ds :
  forall w, winding_down w ->
  exists w' X,
    last_rounds ds w = Exit 1 w' /\ winding_down w' /\
    gos w' = gos w /\ Command (rerun w') = Command (rerun w) /\
    logs w' = logs w ++ X /\
    timeline end_of_time X = Some end_of_time /\
    Forall (fun l => idle_line l = true) X.
Proof.
  induction ds as [| d ds IH]; intros w Hw.
  - exists w, []. rewrite app_nil_r.
    split; [reflexivity |]. split; [exact Hw |].
    repeat (split; [reflexivity |]). constructor.
  - destruct (deliver_winding d w Hw) as (w1 & X1 & Hrun & Hw1 & Hg1 & Hc1 & Hl1 & Ht1 & Hi1).
    destruct (IH w1 Hw1) as (w' & X2 & Hrest & Hw' & Hg2 & Hc2 & Hl2 & Ht2 & Hi2).
    exists w', (X1 ++ X2). cbn [last_rounds]. rewrite (seq_Ret _ _ _ _ _ Hrun).
    split; [exact Hrest |]. split; [exact Hw' |].
    split; [congruence |]. split; [congruence |].
    split; [now rewrite Hl2, Hl1, app_assoc |].
    split; [now rewrite timeline_app, Ht1 | now apply Forall_app].
Qed.

(** From a steady state the loop either is still in a steady state after
    what was delivered, or a signal has come, [cleanup] has run, and
    [os.Exit(1)] has ended the program with no execution left. *)
Lemma main_loop_on_time ds :
  forall w, on_time w ->
  (exists w', main_loop ds w = Ret tt w' /\ on_time w') \/
  (exists w', main_loop ds w = Exit 1 w' /\ winding_down w' /\
              timeline start_of_time (logs w') = Some end_of_time).
Proof.
  induction ds as [| d ds IH]; intros w Hw.
  - left. now exists w.
  - destruct (signal_or_not d) as [-> | Hd].
    + right. destruct Hw as [[Hwg Hex Hgo] Hlog].
      destruct (running_cleanup w Hwg Hgo) as (w1 & Hrun & Hw1 & _ & _ & _ & Hl1).
      destruct (last_rounds_winding ds w1 Hw1)
        as (w' & X & Hrest & Hw' & _ & _ & Hl' & Ht & _).
      exists w'. rewrite main_loop_signal, (seq_Ret _ _ _ _ _ Hrun).
      split; [exact Hrest |]. split; [exact Hw' |].
      rewrite Hl', Hl1, !timeline_app, Hlog. unfold steady.
      assert (Hst : current w <> Returned)
        by (apply current_running; now split).
      destruct (current w); [exact Ht | exact Ht | now destruct Hst].
    + destruct (deliver_on_time d w Hd Hw) as (w1 & Hrun & Hw1).
      rewrite (main_loop_cons d ds Hd), (seq_Ret _ _ _ _ _ Hrun). now apply IH.
Qed.

Lemma on_time_log_line l w :
  neutral l = true -> on_time w -> on_time (with_logs (fun ls => ls ++ [l]) w).
Proof.
  intros Hl [[Hwg Hex Hgo] Hlog]. split; [now split |].
  cbn [logs with_logs]. rewrite timeline_app, Hlog.
  apply timeline_neutral. now repeat constructor.
Qed.

(** The program from [NewRerun] on, started in the initial world. *)
Lemma startup_on_time env command ds :
  let o := (NewRerun env command ;; Start ;; log StartingMainLoop ;; main_loop ds)
             init_world in
  (exists t, timeline start_of_time (logs (final o)) = Some t /\
             WaitGroup (rerun (final o)) = (if launched t then 1 else 0)) /\
  ((exists w, o = Ret tt w /\ running w) \/ (exists w, o = Exit 1 w /\ quiet w)).
Proof.
  intros o. subst o.
  destruct (NewRerun_cases env command init_world)
    as [[_ Hrun] | [(_ & _ & Hrun) | (_ & _ & S & X & Hrun & HX)]].
  - unfold mbind, M_bind, bind. rewrite Hrun. split.
    + now exists start_of_time.
    + right. eexists. split; [reflexivity |]. split; [reflexivity | constructor].
  - unfold mbind, M_bind, bind. rewrite Hrun. split.
    + now exists start_of_time.
    + right. eexists. split; [reflexivity |]. split; [reflexivity | constructor].
  - rewrite (seq_Ret _ _ _ _ _ Hrun).
    match goal with |- context [watching S ?L ?w1] => set (wN := watching S L w1) end.
    destruct (quiet_Start wN) as (w2 & HStart & Hrun2 & Hcur2 & _ & _ & Hl2).
    { split; [reflexivity | constructor]. }
    { reflexivity. }
    rewrite (seq_Ret _ _ _ _ _ HStart).
    rewrite (seq_Ret (log _) _ w2 tt _ eq_refl).
    assert (Hw3 : on_time (with_logs (fun ls => ls ++ [StartingMainLoop]) w2)).
    { apply on_time_log_line; [reflexivity |]. split; [exact Hrun2 |].
      rewrite Hl2. unfold wN. cbn [logs watching with_logs init_world app].
      cbn [timeline advance].
      rewrite timeline_app, (timeline_neutral _ _ HX). unfold steady. now rewrite Hcur2. }
    destruct (main_loop_on_time ds _ Hw3)
      as [(w' & -> & [Hrun' Hlog']) | (w' & -> & [Hq _ _ _] & Hlog')]; cbn [final].
    + split; [| left; eauto]. exists (steady w'). split; [exact Hlog' |].
      now destruct Hrun'.
    + split; [| right; eauto]. exists end_of_time. split; [exact Hlog' |].
      now destruct Hq.
Qed.

(** C1, as amended.  Whatever the arguments, the environment and what is
    delivered (events, subscription errors, dropped watches, scheduling of
    the other goroutines, forks, a termination signal), the goroutines that
    [Start] launches never overlap: the log of the run is a timeline, in
    which [Start] launches a goroutine only when none is launched, a
    goroutine begins only when none is executing, and an event is received
    only once the restart for the previous one is complete; the wait group
    is at one exactly when the timeline has a goroutine launched.  The run is
    either still looping with exactly one goroutine that has not returned,
    or was ended by [os.Exit(1)] with none.  This is about the goroutines
    and the wait group only: the processes of the command are not waited
    for. *)
Theorem one_execution_at_a_time args env ds :
  (exists t,
      timeline start_of_time (logs (final (main args env ds init_world))) = Some t /\
      WaitGroup (rerun (final (main args env ds init_world)))
      = (if launched t then 1 else 0)) /\
  ((exists w, main args env ds init_world = Ret tt w /\ running w) \/
   (exists w, main args env ds init_world = Exit 1 w /\ quiet w)).
Proof.
  assert (Hno : forall o : Outcome unit,
             o = Exit 1 (with_logs (fun ls => ls ++ [NoCommand]) init_world) ->
             (exists t, timeline start_of_time (logs (final o)) = Some t /\
                        WaitGroup (rerun (final o)) = (if launched t then 1 else 0)) /\
             ((exists w, o = Ret tt w /\ running w) \/
              (exists w, o = Exit 1 w /\ quiet w))).
  { intros o ->. split; [now exists start_of_time |].
    right. eexists. split; [reflexivity |]. split; [reflexivity | constructor]. }
  unfold main.
  destruct args as [| a rest]; [now apply Hno |].
  destruct (String.eqb a "--debug").
  - destruct rest as [| b rest]; [now apply Hno | apply startup_on_time].
  - apply startup_on_time.
Qed.

(** ** What one event does *)

Lemma started_is_Start : Start init_world = Ret tt started.
Proof. reflexivity. Qed.

Lemma started_running : running started.
Proof.
  split; [reflexivity | reflexivity |].
  exists [], {| g_ctx := 0; g_state := Spawned; g_cmd := None |}.
  repeat split; [constructor | discriminate].
Qed.

(** An event with one execution under way: the watch set is updated, the
    execution is stopped and a new one is started. *)
Lemma handle_event_running env ev w :
  running w ->
  exists w',
    handle_event env ev w = Ret tt w' /\ running w' /\ current w' = Spawned /\
    registered w' =
      after_remove ev (fsnotify.closed (watcher (rerun w)))
        (after_create env ev (fsnotify.closed (watcher (rerun w))) (registered w)) /\
    procs w' = procs w /\
    logs w' =
      logs w ++ [ReceivedEvent; FileSystemEvent ev]
        ++ create_log env ev (fsnotify.closed (watcher (rerun w)))
        ++ remove_log ev (fsnotify.closed (watcher (rerun w)))
             (after_create env ev (fsnotify.closed (watcher (rerun w))) (registered w))
        ++ ([CalledStop; WaitingForWaitgroup]
              ++ entering (current w) (Command (rerun w)) ++ [CommandStopped])
        ++ [CalledStart] /\
    fsnotify.closed (watcher (rerun w')) = fsnotify.closed (watcher (rerun w)) /\
    fsnotify.Errors (watcher (rerun w')) = fsnotify.Errors (watcher (rerun w)) /\
    Command (rerun w') = Command (rerun w).
Proof.
  intros Hrun.
  replace (handle_event env ev w)
    with (handle_event env ev (watching (registered w) (logs w) w))
    by now rewrite watching_self.
  rewrite handle_event_watching.
  set (S' := after_remove ev _ _). set (L' := logs w ++ _).
  destruct (running_restart (watching S' L' w) (running_watching _ _ _ Hrun))
    as (w' & Hgo & Hrun' & Hcur' & Hwt & Hcmd & Hp & Hlog').
  exists w'. split; [exact Hgo |]. split; [exact Hrun' |]. split; [exact Hcur' |].
  split; [unfold registered; now rewrite Hwt |]. split; [exact Hp |].
  split; [| now rewrite Hwt, Hcmd].
  rewrite Hlog'. unfold L'. cbn [logs watching with_logs].
  now rewrite <- !app_assoc.
Qed.

Lemma create_log_calls env ev cl :
  List.filter is_restart_call (create_log env ev cl) = [].
Proof.
  unfold create_log. destruct (fsnotify.has _ _); [| reflexivity].
  destruct (Stat _ _) as [f |]; [| reflexivity].
  destruct (IsDir f); [| reflexivity].
  destruct (String.eqb _ _); [reflexivity |].
  now destruct (_ || _).
Qed.

Lemma remove_log_calls ev cl S :
  List.filter is_restart_call (remove_log ev cl S) = [].
Proof.
  unfold remove_log. destruct (fsnotify.has _ _); [| reflexivity].
  now destruct (_ || _).
Qed.

(** C2, as amended.  For every event received with one execution under way,
    whatever its kind: a create event is stat'ed; a stat failure is logged
    and the loop goes on; a directory not named .git is registered when the
    registration succeeds (and stays registered unless the event is also a
    remove event); a path named .git is never added; a remove event leaves
    the path unregistered; no other path is touched; and exactly one [Stop]
    followed by one [Start] is performed, which leaves exactly one
    execution. *)
Theorem event_updates_watches_and_restarts_once env ev w :
  running w ->
  exists w' X,
    handle_event env ev w = Ret tt w' /\
    running w' /\
    logs w' = logs w ++ X /\
    List.filter is_restart_call X = [CalledStop; CalledStart] /\
    (fsnotify.has fsnotify.Create ev = true ->
     Stat env (fsnotify.EName ev) = None ->
     UnableToStat (fsnotify.EName ev) ∈ X) /\
    (forall f,
        fsnotify.has fsnotify.Create ev = true ->
        Stat env (fsnotify.EName ev) = Some f ->
        IsDir f = true -> Name f <> ".git" ->
        fsnotify.closed (watcher (rerun w)) = false ->
        Add_refused env (fsnotify.EName ev) = false ->
        fsnotify.has fsnotify.Remove ev = false ->
        fsnotify.EName ev ∈ watch_set w') /\
    (forall f,
        Stat env (fsnotify.EName ev) = Some f -> Name f = ".git" ->
        fsnotify.EName ev ∉ watch_set w ->
        fsnotify.EName ev ∉ watch_set w') /\
    (fsnotify.has fsnotify.Remove ev = true -> fsnotify.EName ev ∉ watch_set w') /\
    (forall p, p <> fsnotify.EName ev -> p ∈ watch_set w' <-> p ∈ watch_set w).
Proof.
  intros Hrun.
  destruct (handle_event_running env ev w Hrun)
    as (w' & Hgo & Hrun' & _ & Hws & _ & Hlog & Hcl & _).
  eexists w', _. split; [exact Hgo |]. split; [exact Hrun' |].
  split; [exact Hlog |].
  split.
  { rewrite !List.filter_app, create_log_calls, remove_log_calls.
    now destruct (current w). }
  split.
  { unfold create_log. intros -> ->. rewrite !elem_of_app. right. left. now left. }
  destruct (fsnotify.closed (watcher (rerun w))) eqn:Hclosed.
  { (* a closed watcher lists no path *)
    rewrite (watch_set_closed w Hclosed), (watch_set_closed w') by congruence.
    split; [discriminate |].
    split; [intros _ _ _ _; apply not_elem_of_empty |].
    split; [intros _; apply not_elem_of_empty | reflexivity]. }
  rewrite (watch_set_open w Hclosed), (watch_set_open w') by congruence.
  rewrite Hws. unfold after_create, after_remove.
  set (name := fsnotify.EName ev). set (S := registered w).
  split.
  { intros f -> -> -> Hname _ -> ->.
    rewrite (proj2 (String.eqb_neq _ _) Hname). cbn. clear. set_solver. }
  split.
  { intros f -> ->. rewrite String.eqb_refl, andb_false_r. cbn [andb negb].
    intros Hout.
    assert (Hsame : (if fsnotify.has fsnotify.Create ev then S else S) = S)
      by now destruct (fsnotify.has _ _).
    rewrite Hsame. destruct (fsnotify.has fsnotify.Remove ev); cbn [andb];
      clear - Hout; set_solver. }
  split.
  { intros ->. cbn [andb negb]. clear. set_solver. }
  intros p Hp. clear - Hp.
  destruct (fsnotify.has fsnotify.Remove ev), (fsnotify.has fsnotify.Create ev);
    cbn [andb negb];
    try destruct (Stat env name) as [f |]; try destruct (_ && _);
    set_solver.
Qed.

(** ** Who is signalled *)

Lemma SIGKILL_lookup pid ps q :
  SIGKILL pid ps !! q = (if Nat.eqb pid q then killed else id) <$> ps !! q.
Proof.
  unfold SIGKILL. destruct (Nat.eqb_spec pid q) as [-> | Hne].
  - destruct (ps !! q) as [[g pp st] |] eqn:E; [| now rewrite E].
    destruct st; try now rewrite E.
    rewrite list_lookup_insert_eq by (eapply lookup_lt_Some, E). reflexivity.
  - destruct (ps !! pid) as [[g pp []] |] eqn:E;
      try (now destruct (ps !! q)).
    rewrite list_lookup_insert_ne by assumption. now destruct (ps !! q).
Qed.

Lemma killed_killed p : killed (killed p) = killed p.
Proof. destruct p as [g pp []]; reflexivity. Qed.

Lemma ctx_done_procs f c w : ctx_done c (with_procs f w) = ctx_done c w.
Proof. reflexivity. Qed.

(** After the watchers of [exec.CommandContext] have run, a process has
    received SIGKILL exactly when it is the shell of a command whose context
    is done. *)
Lemma exec_watches_lookup gs w q :
  procs (foldr exec_watch w gs) !! q
  = (if signalled w gs q then killed else id) <$> procs w !! q.
Proof.
  induction gs as [| g gs IH]; cbn [foldr signalled existsb].
  - now destruct (procs w !! q).
  - destruct (exec_watches_frame gs w) as [ps Hps].
    fold (signalled w gs q). rewrite Hps in *. cbn [procs with_procs] in IH.
    unfold exec_watch, Process_Kill.
    destruct (g_cmd g) as [pid |]; cbn [orb]; [| exact IH].
    rewrite ctx_done_procs.
    destruct (ctx_done (g_ctx g) w); [| now rewrite andb_false_r].
    rewrite andb_true_r. cbn [procs with_procs]. rewrite SIGKILL_lookup, IH.
    destruct (Nat.eqb pid q), (signalled w gs q), (procs w !! q) as [p |];
      cbn; try reflexivity.
    now rewrite killed_killed.
Qed.


Lemma shell_running_is_tick : tick true started = Ret tt shell_running.
Proof. reflexivity. Qed.

(** C4, as amended.  With an execution under way whose shell is process
    [pid], [Stop] cancels the context and returns without touching the
    process table; when the watcher of [exec.CommandContext] then runs,
    SIGKILL goes to [pid], and every process that is not the shell of an
    execution (whatever the shells forked, in whatever process group) is left
    as it was. *)
Theorem cancel_signals_the_shell_only ok w l g pid p :
  WaitGroup (rerun w) = 1 ->
  gos w = l ++ [g] -> Forall returned l -> g_state g = Looping ->
  cancel (rerun w) = Some (g_ctx g) -> ctxs w !! g_ctx g = Some false ->
  g_cmd g = Some pid -> procs w !! pid = Some p ->
  exists w1 w2,
    Stop w = Ret tt w1 /\ procs w1 = procs w /\
    tick ok w1 = Ret tt w2 /\
    procs w2 !! pid = Some (killed p) /\
    (forall q, (forall g', g' ∈ gos w -> g_cmd g' <> Some q) ->
               procs w2 !! q = procs w !! q).
Proof.
  intros Hwg Hg Hl Hst Hc Hctx Hcmd Hp.
  assert (Hlt : (g_ctx g < length (ctxs w))%nat) by (eapply lookup_lt_Some, Hctx).
  eexists _, _. split.
  { apply (Stop_last w l g); auto. rewrite Hst. discriminate. }
  split; [reflexivity |]. split.
  { apply tick_quiet. cbn [gos]. apply Forall_app. split; [assumption |].
    now repeat constructor. }
  rewrite Hst, Hcmd.
  assert (Hdone : forall gs ps ls r,
             ctx_done (g_ctx g)
               {| rerun := r; ctxs := <[g_ctx g := true]> (ctxs w); gos := gs;
                  procs := ps; logs := ls |} = true).
  { intros. unfold ctx_done. cbn [ctxs]. now rewrite list_lookup_insert_eq. }
  split.
  - rewrite exec_watches_lookup. cbn [gos procs]. rewrite Hp.
    unfold signalled. rewrite existsb_app. cbn [existsb g_cmd g_ctx].
    now rewrite Nat.eqb_refl, Hdone, orb_true_r.
  - intros q Hq. rewrite exec_watches_lookup. cbn [gos procs].
    replace (signalled _ _ q) with false; [now destruct (procs w !! q) |].
    symmetry. unfold signalled. rewrite existsb_app. cbn [existsb g_cmd g_ctx].
    apply orb_false_iff. split.
    + apply not_true_is_false. intros (g' & Hin & Hg')%existsb_exists.
      destruct (g_cmd g') as [pid' |] eqn:E; [| discriminate].
      apply andb_true_iff in Hg' as [->%Nat.eqb_eq _].
      apply (Hq g'); [| exact E]. rewrite Hg. apply elem_of_app. left.
      now apply list_elem_of_In.
    + rewrite orb_false_r. apply andb_false_iff. left. apply Nat.eqb_neq.
      intros ->. apply (Hq g); [| exact Hcmd]. rewrite Hg. apply elem_of_app.
      right. now left.
Qed.

Lemma cancel_signals_the_shell_only_witness :
  exists w1 w2,
    Stop shell_with_child = Ret tt w1 /\ procs w1 = procs shell_with_child /\
    tick true w1 = Ret tt w2 /\
    procs w2 !! 1%nat = Some {| pgid := 0; ppid := 0; pstate := PZombie |} /\
    (forall q, (forall g', g' ∈ gos shell_with_child -> g_cmd g' <> Some q) ->
               procs w2 !! q = procs shell_with_child !! q).
Proof.
  apply (cancel_signals_the_shell_only true shell_with_child []
           {| g_ctx := 0; g_state := Looping; g_cmd := Some 1%nat |} 1%nat
           {| pgid := 0; ppid := 0; pstate := PRunning |});
    first [reflexivity | constructor].
Defined.

(** C4 fails as stated: after [Stop] and the delivery of the kill, the child
    that the shell forked, which is in the shell's process group, is still
    running. *)
Lemma kill_misses_the_process_group :
  ~ (forall w w1 w2 l g pid p q pq,
        gos w = l ++ [g] -> g_cmd g = Some pid -> procs w !! pid = Some p ->
        Stop w = Ret tt w1 -> tick true w1 = Ret tt w2 ->
        procs w2 !! q = Some pq -> pgid pq = pgid p ->
        pstate pq <> PRunning).
Proof.
  intros H.
  apply (H shell_with_child _ _ []
           {| g_ctx := 0; g_state := Looping; g_cmd := Some 1%nat |} 1%nat
           {| pgid := 0; ppid := 0; pstate := PRunning |} 2%nat
           {| pgid := 0; ppid := 1; pstate := PRunning |}
           eq_refl eq_refl eq_refl eq_refl eq_refl eq_refl eq_refl).
  reflexivity.
Qed.

(** ** What [Stop] waits for *)

Lemma tick_running ok w :
  running w -> exists w', tick ok w = Ret tt w' /\ running w'.
Proof.
  intros [Hwg Hex (l & g & Hg & Hl & Hst & Hc & Hctx)].
  destruct (tick_last ok w l g Hg Hl Hst (ctx_done_false _ _ Hctx)) as [ps Htick].
  eexists. split; [exact Htick |].
  split; cbn [rerun gos ctxs]; [assumption | assumption |].
  eexists l, _. split; [reflexivity |]. split; [assumption |].
  cbn [g_state g_ctx]. split; [discriminate |]. now split.
Qed.

Lemma ticks_running sched :
  forall w, running w ->
  exists w', main_loop (map Scheduled sched) w = Ret tt w' /\ running w'.
Proof.
  induction sched as [| ok sched IH]; intros w Hw; [now exists w |].
  destruct (tick_running ok w Hw) as (w1 & Htick & Hw1).
  cbn [map main_loop]. rewrite (seq_Ret _ _ _ _ _ Htick). now apply IH.
Qed.

(** C3, as amended.  For every execution started by [Start] (nothing was
    running, the program is not exiting), however the other goroutines are
    scheduled in between, a subsequent [Stop] returns; when it returns the
    wait group is at zero and every goroutine has returned, so that the next
    [Start] finds the same situation; and [Stop] leaves the process table as
    it found it: no process is waited for or reaped. *)
Theorem Stop_waits_for_the_goroutine_only w sched :
  quiet w -> exiting (rerun w) = false ->
  exists w1 w2 w3,
    Start w = Ret tt w1 /\
    main_loop (map Scheduled sched) w1 = Ret tt w2 /\
    Stop w2 = Ret tt w3 /\
    WaitGroup (rerun w3) = 0 /\ Forall returned (gos w3) /\
    exiting (rerun w3) = false /\
    procs w3 = procs w2.
Proof.
  intros Hq Hex.
  destruct (quiet_Start w Hq Hex) as (w1 & HStart & Hrun1 & _).
  destruct (ticks_running sched w1 Hrun1) as (w2 & Hticks & [Hwg2 Hex2 Hgo2]).
  destruct (running_Stop w2 Hwg2 Hgo2) as (w3 & HStop & [Hwg3 Hgos3] & Hr3 & Hp3 & _).
  exists w1, w2, w3. repeat (split; [assumption |]).
  split; [| exact Hp3]. rewrite Hr3. now destruct (rerun w2).
Qed.

Lemma Stop_waits_for_the_goroutine_only_witness :
  exists w1 w2 w3,
    Start init_world = Ret tt w1 /\
    main_loop (map Scheduled [true]) w1 = Ret tt w2 /\
    Stop w2 = Ret tt w3 /\
    WaitGroup (rerun w3) = 0 /\ Forall returned (gos w3) /\
    exiting (rerun w3) = false /\
    procs w3 = procs w2.
Proof.
  apply (Stop_waits_for_the_goroutine_only init_world [true]).
  - split; [reflexivity | constructor].
  - reflexivity.
Defined.

Lemma shell_cancelled_is_Stop : Stop shell_running = Ret tt shell_cancelled.
Proof. vm_compute. reflexivity. Qed.

(** C3 fails as stated: [Stop] returns while the shell started for the
    execution is still running; it has not exited, let alone been reaped. *)
Lemma Stop_returns_before_the_process_exits :
  ~ (forall w w1 w2 w3 g pid p,
        Start w = Ret tt w1 -> tick true w1 = Ret tt w2 -> Stop w2 = Ret tt w3 ->
        g ∈ gos w3 -> g_cmd g = Some pid -> procs w3 !! pid = Some p ->
        pstate p = PReaped).
Proof.
  intros H.
  assert (Habs : pstate {| pgid := 0; ppid := 0; pstate := PRunning |} = PReaped).
  { apply (H init_world started shell_running shell_cancelled
             {| g_ctx := 0; g_state := Returned; g_cmd := Some 1%nat |} 1%nat
             {| pgid := 0; ppid := 0; pstate := PRunning |}
             started_is_Start shell_running_is_tick shell_cancelled_is_Stop);
      [now left | reflexivity | reflexivity]. }
  discriminate Habs.
Qed.

(** C2 fails as stated: a create event for a directory named .git does not
    add it to the watch set. *)
Lemma created_git_directory_is_not_watched :
  ~ (forall env ev w f,
        running w ->
        fsnotify.has fsnotify.Create ev = true ->
        Stat env (fsnotify.EName ev) = Some f -> IsDir f = true ->
        exists w', handle_event env ev w = Ret tt w' /\
                   fsnotify.EName ev ∈ watch_set w').
Proof.
  intros H.
  destruct (H sample_env (created "/r/.git") started
              {| Name := ".git"; IsDir := true |} started_running
              eq_refl eq_refl eq_refl) as (w' & Hgo & Hin).
  destruct (handle_event_running sample_env (created "/r/.git") started
              started_running) as (w2 & Hgo2 & _ & _ & Hws & _ & _ & Hcl & _).
  rewrite Hgo in Hgo2. injection Hgo2 as <-.
  rewrite (watch_set_open w' Hcl), Hws in Hin.
  cbn in Hin. now apply not_elem_of_empty in Hin.
Qed.

Lemma event_updates_watches_and_restarts_once_witness :
  exists w',
    handle_event sample_env (created "/r/n") started = Ret tt w' /\
    running w' /\ "/r/n" ∈ watch_set w'.
Proof.
  destruct (event_updates_watches_and_restarts_once sample_env (created "/r/n") started)
    as (w' & X & Hgo & Hrun & _ & _ & _ & Hadd & _).
  - split; [reflexivity | reflexivity |].
    exists [], {| g_ctx := 0; g_state := Spawned; g_cmd := None |}.
    repeat split; [constructor | discriminate].
  - exists w'. split; [exact Hgo |]. split; [exact Hrun |].
    apply (Hadd {| Name := "n"; IsDir := true |}); first [reflexivity | discriminate].
Defined.

(** The failing input of C5: /r/b is reachable, is not named .git, and its
    registration would not be refused; it is not registered, because the
    registration of /r/a, which the walk meets first, is refused. *)
Lemma NewRerun_registers_reachable_directories_witness :
  exists w',
    NewRerun refusing_env "make" init_world = Ret tt w' /\
    to_watch "/r" (tree refusing_env) "/r/b" /\
    Add_refused refusing_env "/r/b" = false /\
    ("/r/b" ∉ watch_set w') /\
    (forall p, (p ∈ watch_set w') <-> (p = "/r")).
Proof.
  destruct (NewRerun_registers_reachable_directories refusing_env "make" "/r"
              init_world eq_refl eq_refl) as (w' & Hrun & _ & _ & Hcut).
  specialize (Hcut ["/r"] "/r/a" ["/r/a/c"; "/r/b"] eq_refl eq_refl).
  assert (Hfirst : forall p, p ∈ ["/r"] -> Add_refused refusing_env p = false).
  { intros p Hp. apply list_elem_of_singleton in Hp. now subst p. }
  specialize (Hcut Hfirst).
  exists w'. split; [exact Hrun |]. split.
  { apply watchable_to_watch. apply list_elem_of_In. cbn. tauto. }
  split; [reflexivity |]. split.
  - intros Hin. apply Hcut, list_elem_of_singleton in Hin. discriminate Hin.
  - intros p. rewrite Hcut. apply list_elem_of_singleton.
Defined.

(** ** A refused registration *)

Lemma walk_entries_app fn path l1 l2 w :
  filepath.walk_entries (filepath.walk fn) path (l1 ++ l2) w =
  match filepath.walk_entries (filepath.walk fn) path l1 w with
  | Ret NoError w' => filepath.walk_entries (filepath.walk fn) path l2 w'
  | o => o
  end.
Proof.
  revert w. induction l1 as [| e l1 IH]; intros w; [reflexivity |].
  cbn [app filepath.walk_entries]. unfold mbind, M_bind, bind.
  destruct (filepath.walk fn (Join path (node_name e)) e w) as [err w1 | | |];
    try reflexivity.
  destruct err as [| | msg]; cbn [is_nil is_SkipDir negb].
  - apply IH.
  - rewrite orb_false_r. destruct (IsDir (node_info e)); [apply IH | reflexivity].
  - now rewrite orb_true_r.
Qed.

(** C6: what the code does when a registration is refused.  When the
    registration of a directory entry of the root is refused, [WatchDir]
    returns the error of [watcher.Add], so [filepath.Walk] stops there: the
    failure is logged, and only the root and what was walked before the
    refused entry is registered.  The entries after it, and the directories
    below them, are not visited. *)
Theorem refused_registration_ends_the_walk
        env command cwd name es1 dn des es2 w :
  NewWatcher_ok env = true ->
  Getwd env = Some cwd ->
  tree env = Dir name (es1 ++ Dir dn des :: es2) ->
  name <> ".git" -> dn <> ".git" ->
  Add_refused env cwd = false ->
  (forall q, q ∈ flat_map (fun e => watchable (Join cwd (node_name e)) e) es1 ->
             Add_refused env q = false) ->
  Add_refused env (Join cwd dn) = true ->
  exists w',
    NewRerun env command w = Ret tt w' /\
    watch_set w' =
      {[cwd]} ∪ list_to_set (flat_map (fun e => watchable (Join cwd (node_name e)) e) es1) /\
    UnableToWatch (Join cwd dn) ∈ logs w'.
Proof.
  intros Hok Hcwd Htree Hname Hdn Hroot Hes1 Hrefused.
  unfold NewRerun. rewrite Hok, Hcwd, Htree.
  destruct w as [[wg cmd ex cn wt] cs gs ps ls].
  set (w0 := {| rerun := {| WaitGroup := wg; Command := command;
                            exiting := false; cancel := cn;
                            watcher := fsnotify.NewWatcher |};
                ctxs := cs; gos := gs; procs := ps; logs := ls |}).
  set (L0 := (ls ++ [CalledNewRerun]) ++ [FindingSubDirs]).
  assert (Hwalk : exists L',
             filepath.walk (WatchDir env) cwd (Dir name (es1 ++ Dir dn des :: es2))
               (watching ∅ L0 w0)
             = Ret (Failure "cannot add watch")
                   (watching
                      ({[cwd]} ∪ list_to_set
                         (flat_map (fun e => watchable (Join cwd (node_name e)) e) es1))
                      (L' ++ [UnableToWatch (Join cwd dn)]) w0)).
  { cbn [filepath.walk node_info].
    unfold mbind at 1, M_bind at 1, bind at 1.
    rewrite WatchDir_watching. cbn [IsDir Name].
    rewrite (proj2 (String.eqb_neq _ _) Hname), Hroot.
    cbn [fsnotify.closed fsnotify.NewWatcher watcher rerun w0 is_nil].
    rewrite walk_entries_app.
    assert (Hnodes : Forall (fun n => forall path S L w, exists e S' L',
                                 filepath.walk (WatchDir env) path n (watching S L w)
                                 = Ret e (watching S' L' w) /\
                                 walk_ok env path n S w e S') es1).
    { apply Forall_forall. intros n _. apply walk_WatchDir. }
    destruct (walk_entries_WatchDir env cwd es1 Hnodes
                ({[cwd]} ∪ ∅) (L0 ++ [AddedDir cwd]) w0)
      as (e & S' & L' & Hrun & _ & _ & _ & Hall).
    destruct (Hall eq_refl Hes1) as [-> ->].
    rewrite Hrun. exists L'.
    cbn [filepath.walk_entries node_name filepath.walk node_info].
    unfold mbind, M_bind, bind. rewrite WatchDir_watching. cbn [IsDir Name].
    rewrite (proj2 (String.eqb_neq _ _) Hdn), Hrefused.
    cbn [fsnotify.closed fsnotify.NewWatcher watcher rerun w0 is_nil is_SkipDir
         negb orb].
    unfold ret. do 2 f_equal. clear. set_solver. }
  destruct Hwalk as [L' Hwalk].
  eexists. split.
  - unfold filepath.Walk. wsimpl.
    change (filepath.walk (WatchDir env) cwd _ _)
      with (filepath.walk (WatchDir env) cwd (Dir name (es1 ++ Dir dn des :: es2))
              (watching ∅ L0 w0)).
    rewrite Hwalk. reflexivity.
  - split; [reflexivity |]. cbn [logs watching with_logs].
    apply elem_of_app. right. now left.
Qed.

Lemma refused_registration_ends_the_walk_witness :
  exists w',
    NewRerun refusing_env "make" init_world = Ret tt w' /\
    watch_set w' =
      {["/r"]} ∪ list_to_set
        (flat_map (fun e => watchable (Join "/r" (node_name e)) e)
                  [Dir ".git" [Dir "objects" []]]) /\
    UnableToWatch (Join "/r" "a") ∈ logs w'.
Proof.
  apply (refused_registration_ends_the_walk refusing_env "make" "/r" "r"
           [Dir ".git" [Dir "objects" []]] "a" [File "x"; Dir "c" []]
           [File "f"; Dir "b" []] init_world);
    try reflexivity; try discriminate.
  intros q Hq. cbn in Hq. now apply elem_of_nil in Hq.
Defined.

(** ** [Stop] with nothing to stop *)

(** C7: what the code does before the first [Start].  [r.cancel] is still
    the nil function, and calling it panics: [Stop] logs its first line and
    the program dies. *)
Theorem Stop_before_Start_panics w :
  cancel (rerun w) = None ->
  Stop w = Panic (with_logs (fun ls => ls ++ [CalledStop]) w).
Proof.
  destruct w as [[wg cmd ex cn wt] cs gs ps ls]. cbn [rerun cancel].
  intros ->. reflexivity.
Qed.

Lemma Stop_before_Start_panics_witness :
  Stop init_world = Panic (with_logs (fun ls => ls ++ [CalledStop]) init_world).
Proof. apply (Stop_before_Start_panics init_world). reflexivity. Defined.

(** After a [Start], [Stop] with no execution under way returns at once:
    cancelling again changes nothing but the log. *)
Lemma Stop_again w c :
  quiet w -> cancel (rerun w) = Some c -> ctxs w !! c = Some true ->
  Stop w = Ret tt (with_logs (fun ls => ls ++ [CalledStop; WaitingForWaitgroup]) w).
Proof.
  intros [Hwg Hgos] Hc Hdone.
  destruct w as [[wg cmd ex cn wt] cs gs ps ls].
  cbn [rerun cancel ctxs WaitGroup gos] in *. subst wg cn.
  unfold Stop, call_cancel, ctx_cancel, Wait. wsimpl.
  rewrite (list_insert_id _ _ _ Hdone).
  unfold drain, all_gos. wsimpl.
  rewrite for_each_idle.
  - wsimpl. now rewrite <- app_assoc.
  - intros i _. apply drain_one_idle. cbn [gos]. intros g Hg.
    rewrite Forall_forall in Hgos. eapply Hgos, list_elem_of_lookup_2, Hg.
Qed.

(** ** [Start] while exiting *)

(** C8, as amended.  When the exiting flag is set, [Start] launches nothing:
    no goroutine, no process, the wait group, the command, the flag and the
    watcher are unchanged.  It does create a context, and [r.cancel] becomes
    the cancel function of that context, which is not done. *)
Theorem Start_while_exiting_only_replaces_cancel w :
  exiting (rerun w) = true ->
  exists w',
    Start w = Ret tt w' /\
    gos w' = gos w /\ procs w' = procs w /\
    WaitGroup (rerun w') = WaitGroup (rerun w) /\
    Command (rerun w') = Command (rerun w) /\
    exiting (rerun w') = true /\
    watcher (rerun w') = watcher (rerun w) /\
    cancel (rerun w') = Some (length (ctxs w)) /\
    ctxs w' = ctxs w ++ [false] /\
    logs w' = logs w ++ [CalledStart].
Proof.
  intros Hex. eexists. split; [now apply Start_exiting |].
  destruct w as [[wg cmd ex cn wt] cs gs ps ls]. cbn in *. now subst ex.
Qed.

Lemma Start_while_exiting_only_replaces_cancel_witness :
  exists w',
    Start (with_rerun (set_exiting true) init_world) = Ret tt w' /\
    gos w' = [] /\ procs w' = procs init_world /\
    WaitGroup (rerun w') = 0 /\
    Command (rerun w') = EmptyString /\
    exiting (rerun w') = true /\
    watcher (rerun w') = fsnotify.NewWatcher /\
    cancel (rerun w') = Some 0%nat /\
    ctxs w' = [false] /\
    logs w' = [CalledStart].
Proof.
  apply (Start_while_exiting_only_replaces_cancel
           (with_rerun (set_exiting true) init_world)).
  reflexivity.
Defined.

(** C8 fails as stated: [Start] while exiting modifies the cancel handle. *)
Lemma Start_while_exiting_changes_cancel :
  ~ (forall w, exiting (rerun w) = true ->
               exists w', Start w = Ret tt w' /\ rerun w' = rerun w /\
                          gos w' = gos w).
Proof.
  intros H.
  destruct (H (with_rerun (set_exiting true) init_world) eq_refl)
    as (w' & Hgo & Hr & _).
  injection Hgo as <-. discriminate Hr.
Qed.

(** ** A signal before the first [Start] *)

(** C9: what the code does when the signal arrives after [NewRerun] has
    installed the signal goroutine and before [main] has called [Start].
    [cleanup] sets the exiting flag and calls [Stop], which panics on the nil
    cancel function: the watcher is not closed and the process does not
    reach [os.Exit(1)]. *)
Theorem signal_before_Start_panics env command w :
  NewWatcher_ok env = true -> Getwd env <> None ->
  cancel (rerun w) = None ->
  exists w',
    (NewRerun env command ;; signal_goroutine) w = Panic w' /\
    exiting (rerun w') = true /\
    fsnotify.closed (watcher (rerun w')) = false.
Proof.
  intros Hok Hcwd Hc.
  destruct (NewRerun_cases env command w)
    as [[Hno _] | [(_ & Hno & _) | (_ & _ & S & X & Hrun & _)]];
    [congruence | congruence |].
  rewrite (seq_Ret _ _ _ _ _ Hrun).
  destruct w as [[wg cmd ex cn wt] cs gs ps ls]. cbn [rerun cancel] in Hc. subst cn.
  eexists. split; [reflexivity |]. now split.
Qed.

Lemma signal_before_Start_panics_witness :
  exists w',
    (NewRerun sample_env "make" ;; signal_goroutine) init_world = Panic w' /\
    exiting (rerun w') = true /\
    fsnotify.closed (watcher (rerun w')) = false.
Proof.
  apply (signal_before_Start_panics sample_env "make" init_world);
    first [reflexivity | discriminate].
Defined.

(** ** The loop with one execution under way *)

(** One delivery with one execution under way. *)
Lemma deliver_running d w :
  d <> Signalled -> running w ->
  exists w', deliver d w = Ret tt w' /\ running w'.
Proof.
  intros Hd Hw. destruct d as [env ev | e | ok | p | | path]; cbn [deliver].
  - destruct (receive_cases env ev w) as [-> | [ev' ->]]; [now exists w |].
    destruct (handle_event_running env ev' w Hw) as (w1 & Hgo & Hrun & _).
    now exists w1.
  - eexists. split; [reflexivity |]. destruct Hw as [Hwg Hex Hgo]. now split.
  - now apply tick_running.
  - eexists. split; [reflexivity |].
    destruct (fork_frame p w) as [ps ->]. destruct Hw as [Hwg Hex Hgo]. now split.
  - now destruct Hd.
  - eexists. split; [reflexivity |]. destruct Hw as [Hwg Hex Hgo]. now split.
Qed.




(** ** What no run undoes *)

Lemma later_refl w : later w w.
Proof.
  split; [reflexivity | | auto].
  exists []. split; [now rewrite app_nil_r |]. intros c Hc. inversion Hc.
Qed.

Lemma later_trans w1 w2 w3 : later w1 w2 -> later w2 w3 -> later w1 w3.
Proof.
  intros [Hc1 (X1 & Hl1 & Hx1) Hp1] [Hc2 (X2 & Hl2 & Hx2) Hp2].
  split; [congruence | | auto].
  exists (X1 ++ X2). split; [now rewrite Hl2, Hl1, app_assoc |].
  intros c Hc. apply elem_of_app in Hc as [Hc | Hc]; [auto |].
  rewrite <- Hc1. auto.
Qed.

Lemma later_log_lines w L :
  (forall c, CommandIsRunning c ∈ L -> c = Command (rerun w)) ->
  later w (with_logs (fun ls => ls ++ L) w).
Proof. intros HL. split; [reflexivity | now exists L | auto]. Qed.

(** A step that leaves the command line, the log and the subscription's
    error as they are. *)
Lemma later_same w w' :
  Command (rerun w') = Command (rerun w) ->
  logs w' = logs w ->
  fsnotify.Errors (watcher (rerun w')) = fsnotify.Errors (watcher (rerun w)) ->
  later w w'.
Proof.
  intros Hc Hl He. split; [exact Hc | | now rewrite He].
  exists []. split; [now rewrite app_nil_r |]. intros c Hin. inversion Hin.
Qed.

Lemma keeps_ret {A} (a : A) : keeps (ret a).
Proof. intros w. apply later_refl. Qed.

Lemma keeps_bind {A B} (m : M A) (k : A -> M B) :
  keeps m -> (forall a, keeps (k a)) -> keeps (x ← m; k x).
Proof.
  intros Hm Hk w. unfold mbind, M_bind, bind. specialize (Hm w).
  destruct (m w) as [a w1 | w1 | w1 | c w1]; cbn [final] in *; try exact Hm.
  eapply later_trans; [exact Hm | apply Hk].
Qed.

Lemma keeps_if {A} (b : bool) (m1 m2 : M A) :
  keeps m1 -> keeps m2 -> keeps (if b then m1 else m2).
Proof. now destruct b. Qed.

Lemma keeps_modify f : (forall w, later w (f w)) -> keeps (modify f).
Proof. intros Hf w. apply Hf. Qed.

Lemma keeps_gets {A} (f : World -> A) : keeps (gets f).
Proof. intros w. apply later_refl. Qed.

Lemma keeps_panic {A} : keeps (@panic A).
Proof. intros w. apply later_refl. Qed.

Lemma keeps_block {A} : keeps (@block A).
Proof. intros w. apply later_refl. Qed.

Lemma keeps_os_Exit {A} c : keeps (@os_Exit A c).
Proof. intros w. apply later_refl. Qed.

Lemma keeps_log l :
  (forall c, l <> CommandIsRunning c) -> keeps (log l).
Proof.
  intros Hl w. apply (later_log_lines w [l]).
  intros c Hc. apply list_elem_of_singleton in Hc. now destruct (Hl c).
Qed.

Lemma keeps_watcher_Add env path : keeps (watcher_Add env path).
Proof.
  intros [[wg cmd ex cn [ws cl er]] cs gs ps ls].
  unfold watcher_Add, fsnotify.Add. cbn [rerun watcher fsnotify.closed].
  destruct cl; [now apply later_same |].
  destruct (Add_refused env path); now apply later_same.
Qed.

Lemma keeps_watcher_Remove path : keeps (watcher_Remove path).
Proof.
  intros [[wg cmd ex cn [ws cl er]] cs gs ps ls].
  unfold watcher_Remove, fsnotify.Remove_.
  cbn [rerun watcher fsnotify.closed fsnotify.watches].
  destruct cl; [now apply later_same |].
  destruct (decide (path ∈ ws)); now apply later_same.
Qed.

Lemma keeps_WithCancel : keeps WithCancel.
Proof. intros w. now apply later_same. Qed.

Lemma keeps_ctx_cancel c : keeps (ctx_cancel c).
Proof. intros w. now apply later_same. Qed.

Lemma keeps_wg_Add d : keeps (wg_Add d).
Proof.
  intros w. unfold wg_Add. destruct (_ <? 0); cbn [final]; [apply later_refl |].
  now apply later_same.
Qed.

Lemma keeps_go c : keeps (go c).
Proof. intros w. now apply later_same. Qed.

Lemma keeps_set_go i g : keeps (set_go i g).
Proof. intros w. now apply later_same. Qed.

Lemma keeps_cmd_Start ok c : keeps (cmd_Start ok c).
Proof.
  intros w. unfold cmd_Start.
  destruct (_ || _); cbn [final]; [apply later_refl | now apply later_same].
Qed.

(** The goroutine announces the command line of the [Rerun] value. *)
Lemma keeps_announce (k : M unit) :
  keeps k ->
  keeps (cmd ← gets (fun w => Command (rerun w)); log (CommandIsRunning cmd) ;; k).
Proof.
  intros Hk w. unfold mbind, M_bind, bind, gets, log, modify.
  eapply later_trans; [| apply Hk].
  apply (later_log_lines w [CommandIsRunning (Command (rerun w))]).
  intros c Hc. apply list_elem_of_singleton in Hc. now injection Hc.
Qed.

Create HintDb keeps.

#[local] Hint Resolve keeps_ret keeps_modify keeps_gets keeps_panic keeps_block
  keeps_os_Exit keeps_watcher_Add keeps_watcher_Remove keeps_WithCancel
  keeps_ctx_cancel keeps_wg_Add keeps_go keeps_set_go keeps_cmd_Start : keeps.

Ltac keeps_steps :=
  repeat first
    [ solve [auto with keeps]
    | apply keeps_log; discriminate
    | apply keeps_announce
    | apply keeps_bind; [| intros ?]
    | apply keeps_if
    | apply keeps_modify; intros ?; now apply later_same ].

Lemma keeps_go_enter ok i : keeps (go_enter ok i).
Proof.
  intros w. unfold go_enter.
  destruct (gos w !! i) as [[c [] p] |]; try apply later_refl.
  revert w.
  change (keeps (log StartedGoroutine ;;
                 p ← cmd_Start ok c;
                 cmd ← gets (fun w => Command (rerun w));
                 log (CommandIsRunning cmd) ;;
                 set_go i {| g_ctx := c; g_state := Looping; g_cmd := p |})).
  keeps_steps.
Qed.

Lemma keeps_go_leave i : keeps (go_leave i).
Proof.
  intros w. unfold go_leave.
  destruct (gos w !! i) as [[c [] p] |]; try apply later_refl.
  destruct (ctx_done c w); [| apply later_refl].
  revert w.
  change (keeps (log CommandStopped ;; wg_Done ;;
                 set_go i {| g_ctx := c; g_state := Returned; g_cmd := p |})).
  unfold wg_Done. keeps_steps.
Qed.

Lemma keeps_for_each f l : (forall i, keeps (f i)) -> keeps (for_each l f).
Proof.
  intros Hf. induction l as [| i l IH]; cbn [for_each]; keeps_steps.
Qed.

#[local] Hint Resolve keeps_go_enter keeps_go_leave keeps_for_each : keeps.

Lemma keeps_drain_one i : keeps (drain_one i).
Proof.
  intros w. unfold drain_one.
  destruct (gos w !! i) as [g |]; [| apply later_refl].
  destruct (ctx_done (g_ctx g) w); [| apply later_refl].
  revert w. change (keeps (go_enter true i ;; go_leave i)). keeps_steps.
Qed.

Lemma keeps_exec_watches : keeps (modify (fun w => foldr exec_watch w (gos w))).
Proof.
  apply keeps_modify. intros w.
  destruct (exec_watches_frame (gos w) w) as [ps ->]. now apply later_same.
Qed.

Lemma keeps_fork p : keeps (modify (fork p)).
Proof.
  apply keeps_modify. intros w.
  destruct (fork_frame p w) as [ps ->]. now apply later_same.
Qed.

#[local] Hint Resolve keeps_drain_one keeps_exec_watches keeps_fork : keeps.

Lemma keeps_tick ok : keeps (tick ok).
Proof. unfold tick, all_gos. keeps_steps. Qed.

Lemma keeps_Wait : keeps Wait.
Proof. unfold Wait, drain, all_gos. keeps_steps. Qed.

Lemma keeps_call_cancel : keeps call_cancel.
Proof.
  unfold call_cancel. apply keeps_bind; [auto with keeps |].
  intros [c |]; auto with keeps.
Qed.

#[local] Hint Resolve keeps_tick keeps_Wait keeps_call_cancel : keeps.

Lemma keeps_Stop : keeps Stop.
Proof. unfold Stop. keeps_steps. Qed.

Lemma keeps_Start : keeps Start.
Proof. unfold Start. keeps_steps. Qed.

Lemma keeps_WatchDir env path f err : keeps (WatchDir env path f err).
Proof. unfold WatchDir. keeps_steps. Qed.

Lemma keeps_UnwatchDir path : keeps (UnwatchDir path).
Proof. unfold UnwatchDir. keeps_steps. Qed.

#[local] Hint Resolve keeps_Stop keeps_Start keeps_WatchDir keeps_UnwatchDir
  : keeps.

Lemma keeps_handle_event env ev : keeps (handle_event env ev).
Proof.
  unfold handle_event. keeps_steps.
  destruct (Stat env _); keeps_steps.
Qed.

Lemma keeps_receive env ev : keeps (receive env ev).
Proof.
  intros w. unfold receive.
  destruct (fsnotify.closed _); [apply keeps_handle_event |].
  destruct (fsnotify.blocked _); [apply later_refl | apply keeps_handle_event].
Qed.

(** [Close] does not receive the error either. *)
Lemma keeps_cleanup : keeps cleanup.
Proof. unfold cleanup. keeps_steps. Qed.

(** An error the subscription is waiting to hand over stays: it cannot
    report another one. *)
Lemma keeps_offer e :
  keeps (modify (with_rerun (fun r => set_watcher (fsnotify.offer e (watcher r)) r))).
Proof.
  apply keeps_modify. intros [[wg cmd ex cn [ws cl er]] cs gs ps ls].
  split; [reflexivity | | ].
  - exists []. split; [now rewrite app_nil_r |]. intros c Hin. inversion Hin.
  - cbn. intros e' ->. unfold fsnotify.offer. cbn. now destruct cl.
Qed.

#[local] Hint Resolve keeps_handle_event keeps_receive keeps_cleanup keeps_offer
  : keeps.

Lemma keeps_deliver d : keeps (deliver d).
Proof. destruct d; cbn [deliver]; keeps_steps. Qed.

#[local] Hint Resolve keeps_deliver : keeps.

Lemma keeps_last_rounds ds : keeps (last_rounds ds).
Proof. induction ds as [| d ds IH]; cbn [last_rounds]; keeps_steps. Qed.

#[local] Hint Resolve keeps_last_rounds : keeps.

Lemma keeps_main_loop ds : keeps (main_loop ds).
Proof.
  induction ds as [| d ds IH]; [apply keeps_ret |].
  destruct (signal_or_not d) as [-> | Hd].
  - rewrite main_loop_signal. keeps_steps.
  - rewrite (main_loop_cons d ds Hd). keeps_steps.
Qed.

(** ** The errors of the subscription are never read *)

Lemma stalled_watcher w w' :
  fsnotify.closed (watcher (rerun w')) = fsnotify.closed (watcher (rerun w)) ->
  fsnotify.Errors (watcher (rerun w')) = fsnotify.Errors (watcher (rerun w)) ->
  stalled w' = stalled w.
Proof. unfold stalled, fsnotify.blocked. now intros -> ->. Qed.

(** One delivery while the subscription waits in its send: an event does
    not reach the loop, and nothing else restarts the command. *)
Lemma deliver_stalled d w :
  d <> Signalled -> running w -> stalled w = true ->
  exists w' X,
    deliver d w = Ret tt w' /\ running w' /\ stalled w' = true /\
    (is_event d = true -> w' = w) /\
    logs w' = logs w ++ X /\
    Forall (fun l => begin_line l = true) X /\
    length (gos w') = length (gos w).
Proof.
  intros Hd Hw Hs.
  assert (Hsame : forall w', running w' -> stalled w' = true ->
                             logs w' = logs w -> length (gos w') = length (gos w) ->
                             exists w'' X,
                               Ret tt w' = Ret tt w'' /\ running w'' /\
                               stalled w'' = true /\
                               (false = true -> w'' = w) /\
                               logs w'' = logs w ++ X /\
                               Forall (fun l => begin_line l = true) X /\
                               length (gos w'') = length (gos w)).
  { intros w' H1 H2 H3 H4. exists w', []. rewrite app_nil_r.
    split; [reflexivity |]. split; [exact H1 |]. split; [exact H2 |].
    split; [discriminate |]. split; [exact H3 |].
    split; [constructor | exact H4]. }
  destruct d as [env ev | e | ok | p | | path]; cbn [deliver is_event].
  - rewrite receive_stalled by exact Hs. exists w, []. rewrite app_nil_r.
    split; [reflexivity |]. split; [exact Hw |]. split; [exact Hs |].
    split; [reflexivity |]. split; [reflexivity |].
    split; [constructor | reflexivity].
  - apply Hsame; [| | reflexivity | reflexivity].
    + destruct Hw as [Hwg Hex Hgo]. now split.
    + rewrite <- Hs. unfold stalled, fsnotify.blocked, fsnotify.offer in *.
      destruct w as [[wg cmd ex cn [ws cl er]] cs gs ps ls]. cbn in *.
      destruct cl; [discriminate Hs |]. now destruct er.
  - destruct Hw as [Hwg Hex (l & g & Hg & Hl & Hst & Hc & Hctx)].
    destruct (tick_last ok w l g Hg Hl Hst (ctx_done_false _ _ Hctx)) as [ps Htick].
    rewrite Htick. eexists _, _.
    split; [reflexivity |]. split.
    { split; cbn [rerun gos ctxs]; [assumption | assumption |].
      eexists l, _. split; [reflexivity |]. split; [assumption |].
      cbn [g_state g_ctx]. split; [discriminate |]. now split. }
    split; [exact Hs |]. split; [discriminate |].
    split; [reflexivity |].
    split; [destruct (g_state g); now repeat constructor |].
    cbn [gos]. rewrite Hg, !length_app. reflexivity.
  - unfold modify. destruct (fork_frame p w) as [ps ->].
    apply Hsame; [| exact Hs | reflexivity | reflexivity].
    destruct Hw as [Hwg Hex Hgo]. now split.
  - now destruct Hd.
  - apply Hsame; [| | reflexivity | reflexivity].
    + destruct Hw as [Hwg Hex Hgo]. now split.
    + rewrite <- Hs. now apply stalled_watcher.
Qed.

(** While the subscription waits in its send, the loop handles no event. *)
Lemma stalled_loop ds :
  Forall (fun d => d <> Signalled) ds ->
  forall w, running w -> stalled w = true ->
  exists w' X,
    main_loop ds w = Ret tt w' /\ running w' /\ stalled w' = true /\
    main_loop ds w = main_loop (List.filter (fun d => negb (is_event d)) ds) w /\
    logs w' = logs w ++ X /\
    Forall (fun l => begin_line l = true) X /\
    length (gos w') = length (gos w).
Proof.
  induction 1 as [| d ds Hd _ IH]; intros w Hw Hs.
  - exists w, []. rewrite app_nil_r.
    split; [reflexivity |]. split; [exact Hw |]. split; [exact Hs |].
    split; [reflexivity |]. split; [reflexivity |].
    split; [constructor | reflexivity].
  - destruct (deliver_stalled d w Hd Hw Hs)
      as (w1 & X1 & Hrun & Hw1 & Hs1 & Hev & Hl1 & Hf1 & Hg1).
    destruct (IH w1 Hw1 Hs1) as (w' & X2 & Hrest & Hw' & Hs' & Heq & Hl2 & Hf2 & Hg2).
    exists w', (X1 ++ X2).
    rewrite (main_loop_cons d ds Hd), (seq_Ret _ _ _ _ _ Hrun).
    split; [exact Hrest |]. split; [exact Hw' |]. split; [exact Hs' |].
    split.
    { cbn [List.filter]. destruct (is_event d) eqn:Hd'; cbn [negb].
      - rewrite <- (Hev eq_refl). exact Heq.
      - rewrite (main_loop_cons d _ Hd), (seq_Ret _ _ _ _ _ Hrun). exact Heq. }
    split; [now rewrite Hl2, Hl1, app_assoc |].
    split; [now apply Forall_app | congruence].
Qed.

(** C10, as amended.  The errors of the subscription are never received.
    With one execution under way and a subscription that is open and not
    waiting, an error it has to report is neither fatal nor logged: the loop
    goes on and the execution stays.  But the subscription now waits in its
    send on [watcher.Errors], and it waits for good: whatever is delivered
    afterwards, a signal included, the error is still there at the end.
    Until a signal comes no event reaches the loop any more (the run is the
    run without the events): all that is logged is what the goroutine under
    way writes when it begins, [Stop] and [Start] are not called again, and
    no goroutine is launched. *)
Theorem subscription_errors_are_never_read e ds w :
  running w ->
  fsnotify.closed (watcher (rerun w)) = false ->
  fsnotify.Errors (watcher (rerun w)) = None ->
  Forall (fun d => d <> Signalled) ds ->
  exists w' X,
    main_loop (ErrorOffered e :: ds) w = Ret tt w' /\
    running w' /\
    stalled w' = true /\
    (forall ds',
        fsnotify.Errors (watcher (rerun (final (main_loop ds' w')))) = Some e) /\
    main_loop (ErrorOffered e :: ds) w
    = main_loop (ErrorOffered e :: List.filter (fun d => negb (is_event d)) ds) w /\
    logs w' = logs w ++ X /\
    Forall (fun l => begin_line l = true) X /\
    length (gos w') = length (gos w).
Proof.
  intros Hw Hopen Hnone Hds.
  set (w0 := with_rerun (fun r => set_watcher (fsnotify.offer e (watcher r)) r) w).
  assert (Hw0 : running w0) by (destruct Hw as [Hwg Hex Hgo]; now split).
  assert (He0 : fsnotify.Errors (watcher (rerun w0)) = Some e).
  { unfold w0, fsnotify.offer. destruct w as [[wg cmd ex cn [ws cl er]] cs gs ps ls].
    cbn in *. now rewrite Hopen, Hnone. }
  assert (Hs0 : stalled w0 = true).
  { unfold stalled, fsnotify.blocked. rewrite He0.
    unfold w0, fsnotify.offer. destruct w as [[wg cmd ex cn [ws cl er]] cs gs ps ls].
    cbn in *. now rewrite Hopen, Hnone. }
  destruct (stalled_loop ds Hds w0 Hw0 Hs0)
    as (w' & X & Hrun & Hw' & Hs' & Heq & Hl & Hf & Hg).
  exists w', X.
  assert (Hstep : forall ds0, main_loop (ErrorOffered e :: ds0) w = main_loop ds0 w0)
    by reflexivity.
  rewrite !Hstep.
  split; [exact Hrun |]. split; [exact Hw' |]. split; [exact Hs' |].
  split; [| now repeat split].
  intros ds'.
  assert (He' : fsnotify.Errors (watcher (rerun w')) = Some e).
  { pose proof (later_pending _ _ (keeps_main_loop ds w0) e He0) as H.
    now rewrite Hrun in H. }
  exact (later_pending _ _ (keeps_main_loop ds' w') e He').
Qed.

Lemma subscription_errors_are_never_read_witness :
  exists w' X,
    main_loop (ErrorOffered "overflow"
               :: [Received sample_env (created "/r/n"); Scheduled true]) started
    = Ret tt w' /\
    running w' /\
    stalled w' = true /\
    (forall ds',
        fsnotify.Errors (watcher (rerun (final (main_loop ds' w')))) = Some "overflow") /\
    main_loop (ErrorOffered "overflow"
               :: [Received sample_env (created "/r/n"); Scheduled true]) started
    = main_loop (ErrorOffered "overflow"
                 :: List.filter (fun d => negb (is_event d))
                      [Received sample_env (created "/r/n"); Scheduled true]) started /\
    logs w' = logs started ++ X /\
    Forall (fun l => begin_line l = true) X /\
    length (gos w') = length (gos started).
Proof.
  apply (subscription_errors_are_never_read "overflow"
           [Received sample_env (created "/r/n"); Scheduled true] started).
  - split; [reflexivity | reflexivity |].
    exists [], {| g_ctx := 0; g_state := Spawned; g_cmd := None |}.
    repeat split; [constructor | discriminate].
  - reflexivity.
  - reflexivity.
  - repeat constructor; discriminate.
Defined.

(** C10 fails as stated: the loop does not continue unaffected.  With the
    error the event that follows is not handled; without it, it is. *)
Lemma unread_error_stalls_the_loop :
  ~ (forall e ds w,
        running w ->
        logs (final (main_loop (ErrorOffered e :: ds) w))
        = logs (final (main_loop ds w))).
Proof.
  intros H.
  specialize (H "overflow" [Received sample_env (created "/r/n")] started
                started_running).
  vm_compute in H. discriminate H.
Qed.

(** C1 fails as stated: the commands of two executions run side by side.
    The first command has put a process in the background; an event comes,
    [Stop] and [Start] are called, the new shell starts, and the kill that
    the cancellation leads to reaches the old shell only: the background
    process of the first execution runs on beside the second execution. *)
Lemma commands_of_two_executions_run_together :
  ~ (forall args env ds w i j,
        main args env ds init_world = Ret tt w ->
        active w i = true -> active w j = true -> i = j).
Proof.
  intros H.
  assert (Hrun : exists w,
             main ["sleep 30 & wait"] sample_env
               [Scheduled true; Forked 1; Received sample_env (created "/r/n");
                Scheduled true] init_world = Ret tt w /\
             active w 0 = true /\ active w 1 = true).
  { eexists. split; [vm_compute; reflexivity |].
    split; vm_compute; reflexivity. }
  destruct Hrun as (w & Hw & H0 & H1).
  specialize (H _ _ _ w 0%nat 1%nat Hw H0 H1). discriminate H.
Qed.


(** * Further properties of the program *)

(** ** Startup *)

(** X1.  When the watcher cannot be created, [NewRerun] logs the fatal error and
    the process exits with status 1 before anything is walked: the command
    line is already stored, the watcher field and the watch set are as they
    were, and no goroutine or context exists that was not there before. *)
Theorem NewRerun_without_watcher_is_fatal env command w :
  NewWatcher_ok env = false ->
  exists w',
    NewRerun env command w = Exit 1 w' /\
    logs w' = logs w ++ [CalledNewRerun; FatalWatcher] /\
    watcher (rerun w') = watcher (rerun w) /\
    Command (rerun w') = command /\
    gos w' = gos w /\ ctxs w' = ctxs w /\ procs w' = procs w.
Proof.
  intros Hno.
  destruct (NewRerun_cases env command w)
    as [[_ Hrun] | [(Hok & _) | (Hok & _)]]; [| congruence | congruence].
  eexists. split; [exact Hrun |].
  now destruct w as [[wg cmd ex cn wt] cs gs ps ls].
Qed.

Lemma NewRerun_without_watcher_is_fatal_witness :
  exists w',
    NewRerun no_watcher_env "make" init_world = Exit 1 w' /\
    logs w' = logs init_world ++ [CalledNewRerun; FatalWatcher] /\
    watcher (rerun w') = watcher (rerun init_world) /\
    Command (rerun w') = "make" /\
    gos w' = gos init_world /\ ctxs w' = ctxs init_world /\
    procs w' = procs init_world.
Proof.
  apply (NewRerun_without_watcher_is_fatal no_watcher_env "make" init_world).
  reflexivity.
Defined.

(** X2.  When the current directory cannot be determined, [NewRerun] has created
    the watcher, logs the fatal error and the process exits with status 1:
    nothing is registered. *)
Theorem NewRerun_without_cwd_is_fatal env command w :
  NewWatcher_ok env = true -> Getwd env = None ->
  exists w',
    NewRerun env command w = Exit 1 w' /\
    logs w' = logs w ++ [CalledNewRerun; FatalGetwd] /\
    watcher (rerun w') = fsnotify.NewWatcher /\
    watch_set w' = ∅ /\
    gos w' = gos w /\ ctxs w' = ctxs w /\ procs w' = procs w.
Proof.
  intros Hok Hno.
  destruct (NewRerun_cases env command w)
    as [[Hbad _] | [(_ & _ & Hrun) | (_ & Hcwd & _)]]; [congruence | | congruence].
  eexists. split; [exact Hrun |].
  now destruct w as [[wg cmd ex cn wt] cs gs ps ls].
Qed.

Lemma NewRerun_without_cwd_is_fatal_witness :
  exists w',
    NewRerun no_cwd_env "make" init_world = Exit 1 w' /\
    logs w' = logs init_world ++ [CalledNewRerun; FatalGetwd] /\
    watcher (rerun w') = fsnotify.NewWatcher /\
    watch_set w' = ∅ /\
    gos w' = gos init_world /\ ctxs w' = ctxs init_world /\
    procs w' = procs init_world.
Proof.
  apply (NewRerun_without_cwd_is_fatal no_cwd_env "make" init_world); reflexivity.
Defined.

(** ** [Stop] twice *)

(** X3.  With one execution under way, a second [Stop] right after the first
    returns at once: the context is already cancelled, the wait group is
    already at zero, and only the two log lines of [Stop] are added. *)
Theorem Stop_twice_is_Stop_once w :
  running w ->
  exists w1,
    Stop w = Ret tt w1 /\
    Stop w1 = Ret tt (with_logs (fun ls => ls ++ [CalledStop; WaitingForWaitgroup]) w1).
Proof.
  intros [Hwg Hex (l & g & Hg & Hl & Hst & Hc & Hctx)].
  assert (Hlt : (g_ctx g < length (ctxs w))%nat) by (eapply lookup_lt_Some, Hctx).
  eexists. split; [apply (Stop_last w l g); auto |].
  apply (Stop_again _ (g_ctx g)).
  - split; cbn [rerun gos]; [now destruct (rerun w) |].
    apply Forall_app. split; [assumption |]. now repeat constructor.
  - cbn [rerun]. now destruct (rerun w).
  - cbn [ctxs]. now apply list_lookup_insert_eq.
Qed.

Lemma Stop_twice_is_Stop_once_witness :
  exists w1,
    Stop started = Ret tt w1 /\
    Stop w1 = Ret tt (with_logs (fun ls => ls ++ [CalledStop; WaitingForWaitgroup]) w1).
Proof.
  apply (Stop_twice_is_Stop_once started).
  split; [reflexivity | reflexivity |].
  exists [], {| g_ctx := 0; g_state := Spawned; g_cmd := None |}.
  repeat split; [constructor | discriminate].
Defined.

(** ** The loop *)



(** X5.  The loop has no exit of its own: with one execution under way and no
    signal among what is delivered, it handles everything, neither panics
    nor blocks nor exits, and is left with exactly one execution. *)
Theorem loop_only_ends_by_signal ds w :
  running w ->
  Forall (fun d => d <> Signalled) ds ->
  exists w', main_loop ds w = Ret tt w' /\ running w' /\
             exiting (rerun w') = false.
Proof.
  intros Hw Hds. revert w Hw.
  induction Hds as [| d ds Hd _ IH]; intros w Hw.
  - exists w. split; [reflexivity |]. split; [exact Hw | now destruct Hw].
  - destruct (deliver_running d w Hd Hw) as (w1 & Hrun & Hw1).
    rewrite (main_loop_cons d ds Hd), (seq_Ret _ _ _ _ _ Hrun).
    now apply IH.
Qed.

Lemma loop_only_ends_by_signal_witness :
  exists w',
    main_loop [Received sample_env (created "/r/n"); Scheduled true; Forked 1;
               Dropped "/r/n"; Received sample_env (created "/r/.git");
               ErrorOffered "overflow"]
              started = Ret tt w' /\
    running w' /\ exiting (rerun w') = false.
Proof.
  apply (loop_only_ends_by_signal
           [Received sample_env (created "/r/n"); Scheduled true; Forked 1;
            Dropped "/r/n"; Received sample_env (created "/r/.git");
            ErrorOffered "overflow"]
           started).
  - split; [reflexivity | reflexivity |].
    exists [], {| g_ctx := 0; g_state := Spawned; g_cmd := None |}.
    repeat split; [constructor | discriminate].
  - repeat constructor; discriminate.
Defined.

(** ** The watch set *)


(** X6.  On an open watcher, unregistering a path that is not registered does
    nothing: the error of [watcher.Remove] is dropped and nothing is
    logged. *)
Theorem UnwatchDir_unregistered_is_silent path w :
  fsnotify.closed (watcher (rerun w)) = false ->
  path ∉ watch_set w -> UnwatchDir path w = Ret tt w.
Proof.
  intros Hopen Hout. rewrite (watch_set_open w Hopen) in Hout.
  replace (UnwatchDir path w) with (UnwatchDir path (watching (registered w) (logs w) w))
    by now rewrite watching_self.
  rewrite UnwatchDir_watching, Hopen.
  destruct (decide (path ∈ registered w)); [contradiction |].
  now rewrite watching_self.
Qed.

Lemma UnwatchDir_unregistered_is_silent_witness :
  UnwatchDir "/r/b" started_watching_a = Ret tt started_watching_a.
Proof.
  apply (UnwatchDir_unregistered_is_silent "/r/b" started_watching_a);
    [reflexivity |].
  unfold started_watching_a. rewrite watch_set_watching by reflexivity.
  intros Hin. apply elem_of_singleton in Hin. discriminate Hin.
Defined.

(** X7.  Registering a directory that was not registered and unregistering it
    again restores the world, but for the two log lines. *)
Theorem WatchDir_then_UnwatchDir env path f e w :
  IsDir f = true -> Name f <> ".git" ->
  fsnotify.closed (watcher (rerun w)) = false ->
  Add_refused env path = false ->
  path ∉ watch_set w ->
  (WatchDir env path f e ;; UnwatchDir path) w
  = Ret tt (with_logs (fun ls => ls ++ [AddedDir path; RemovedDir path]) w).
Proof.
  intros Hdir Hname Hopen Hfree Hout. rewrite (watch_set_open w Hopen) in Hout.
  replace ((WatchDir env path f e ;; UnwatchDir path) w)
    with ((WatchDir env path f e ;; UnwatchDir path) (watching (registered w) (logs w) w))
    by now rewrite watching_self.
  unfold mbind, M_bind, bind. rewrite WatchDir_watching.
  rewrite Hdir, (proj2 (String.eqb_neq _ _) Hname), Hopen, Hfree.
  rewrite UnwatchDir_watching, Hopen.
  destruct (decide (path ∈ {[path]} ∪ registered w)) as [_ | Hno];
    [| destruct Hno; clear; set_solver].
  replace (({[path]} ∪ registered w) ∖ {[path]}) with (registered w)
    by (clear - Hout; set_solver).
  rewrite <- app_assoc.
  destruct w as [[wg cmd ex cn [ws cl er]] cs gs ps ls]. reflexivity.
Qed.

Lemma WatchDir_then_UnwatchDir_witness :
  (WatchDir sample_env "/r/b" {| Name := "b"; IsDir := true |} NoError ;;
   UnwatchDir "/r/b") started_watching_a
  = Ret tt (with_logs (fun ls => ls ++ [AddedDir "/r/b"; RemovedDir "/r/b"])
              started_watching_a).
Proof.
  apply (WatchDir_then_UnwatchDir sample_env "/r/b" {| Name := "b"; IsDir := true |}
           NoError started_watching_a);
    [reflexivity | discriminate | reflexivity | reflexivity |].
  unfold started_watching_a. rewrite watch_set_watching by reflexivity.
  intros Hin. apply elem_of_singleton in Hin. discriminate Hin.
Defined.

(** X8.  For an event that is neither a create nor a remove event (a write, a
    rename, a chmod) the program touches nothing of the watcher: it
    registers and unregisters no path and logs no line about a watch.  The
    execution is restarted all the same: [Stop] and [Start] are called once
    each, in this order, and one execution is under way afterwards. *)
Theorem other_events_only_restart env ev w :
  running w ->
  fsnotify.has fsnotify.Create ev = false ->
  fsnotify.has fsnotify.Remove ev = false ->
  exists w' X,
    handle_event env ev w = Ret tt w' /\ running w' /\
    watcher (rerun w') = watcher (rerun w) /\
    logs w' = logs w ++ X /\
    List.filter is_restart_call X = [CalledStop; CalledStart] /\
    (forall p, (AddedDir p ∉ X) /\ (RemovedDir p ∉ X) /\ (UnableToWatch p ∉ X)).
Proof.
  intros Hrun Hc Hr.
  destruct (handle_event_running env ev w Hrun)
    as (w' & Hgo & Hrun' & _ & Hws & _ & Hlog & Hcl & Herr & _).
  eexists w', _. split; [exact Hgo |]. split; [exact Hrun' |].
  split; [| split; [exact Hlog |] ].
  - unfold registered, after_remove, after_create in Hws. rewrite Hc, Hr in Hws.
    cbn [andb] in Hws.
    destruct (watcher (rerun w')) as [ws' cl' er'], (watcher (rerun w)) as [ws cl er].
    cbn in *. now subst.
  - unfold create_log, remove_log. rewrite Hc, Hr. cbn [app].
    split; [now destruct (current w) |].
    intros p.
    destruct (current w); cbn [entering app];
      rewrite !elem_of_cons, !elem_of_nil; intuition discriminate.
Qed.

Lemma other_events_only_restart_witness :
  exists w' X,
    handle_event sample_env (renamed "/r/a") started_watching_a = Ret tt w' /\
    running w' /\
    watcher (rerun w') = watcher (rerun started_watching_a) /\
    logs w' = logs started_watching_a ++ X /\
    List.filter is_restart_call X = [CalledStop; CalledStart] /\
    (forall p, (AddedDir p ∉ X) /\ (RemovedDir p ∉ X) /\ (UnableToWatch p ∉ X)).
Proof.
  apply (other_events_only_restart sample_env (renamed "/r/a") started_watching_a).
  - split; [reflexivity | reflexivity |].
    exists [], {| g_ctx := 0; g_state := Spawned; g_cmd := None |}.
    repeat split; [constructor | discriminate].
  - reflexivity.
  - reflexivity.
Defined.



(** X10.  After [NewRerun] the watch set is exactly the set of directories that
    come before the first refused registration, in the order of the walk
    (a directory before its entries, the entries in the order they are
    listed, nothing of a directory named .git): with no refusal that is every
    such directory, and a refusal cuts the list there. *)
Theorem NewRerun_registers_until_first_refusal env command cwd w :
  NewWatcher_ok env = true ->
  Getwd env = Some cwd ->
  exists w',
    NewRerun env command w = Ret tt w' /\
    watch_set w'
    = list_to_set (until_refused (Add_refused env) (watchable cwd (tree env))).
Proof.
  intros Hok Hcwd. unfold NewRerun. rewrite Hok, Hcwd.
  destruct w as [[wg cmd ex cn wt] cs gs ps ls].
  set (w0 := {| rerun := {| WaitGroup := wg; Command := command;
                            exiting := false; cancel := cn;
                            watcher := fsnotify.NewWatcher |};
                ctxs := cs; gos := gs; procs := ps; logs := ls |}).
  destruct (walk_exact env (tree env) cwd ∅
              ((ls ++ [CalledNewRerun]) ++ [FindingSubDirs]) w0 eq_refl)
    as (e & L' & Hrun & _).
  eexists. split.
  - unfold filepath.Walk. wsimpl.
    change (filepath.walk (WatchDir env) cwd (tree env) _)
      with (filepath.walk (WatchDir env) cwd (tree env)
              (watching ∅ ((ls ++ [CalledNewRerun]) ++ [FindingSubDirs]) w0)).
    rewrite Hrun. now destruct (is_SkipDir e).
  - rewrite watch_set_watching by reflexivity. clear. set_solver.
Qed.

Lemma NewRerun_registers_until_first_refusal_witness :
  exists w',
    NewRerun refusing_env "make" init_world = Ret tt w' /\
    watch_set w'
    = list_to_set (until_refused (Add_refused refusing_env)
                     (watchable "/r" (tree refusing_env))).
Proof.
  apply (NewRerun_registers_until_first_refusal refusing_env "make" "/r" init_world);
    reflexivity.
Defined.

(** X11.  Started in a directory that is itself named .git, the program watches
    nothing: [WatchDir] answers [SkipDir] for the root, which [Walk] takes
    for a normal end, so [NewRerun] returns with an empty watch set and one
    log line for the traversal. *)
Theorem NewRerun_in_a_git_directory_watches_nothing env command cwd es w :
  NewWatcher_ok env = true ->
  Getwd env = Some cwd ->
  tree env = Dir ".git" es ->
  exists w',
    NewRerun env command w = Ret tt w' /\
    watch_set w' = ∅ /\
    logs w' = logs w ++ [CalledNewRerun; FindingSubDirs; IgnoringGit].
Proof.
  intros Hok Hcwd Htree. unfold NewRerun. rewrite Hok, Hcwd, Htree.
  destruct w as [[wg cmd ex cn wt] cs gs ps ls].
  eexists. split; [reflexivity |]. split; [reflexivity |].
  wsimpl. rewrite <- ?app_assoc. reflexivity.
Qed.

Lemma NewRerun_in_a_git_directory_watches_nothing_witness :
  exists w',
    NewRerun git_env "make" init_world = Ret tt w' /\
    watch_set w' = ∅ /\
    logs w' = logs init_world ++ [CalledNewRerun; FindingSubDirs; IgnoringGit].
Proof.
  apply (NewRerun_in_a_git_directory_watches_nothing git_env "make" "/r/.git"
           [Dir "objects" []; File "HEAD"] init_world); reflexivity.
Defined.

(** ** One restart for each event *)

Lemma restart_sizes w :
  running w ->
  exists w',
    (Stop ;; Start) w = Ret tt w' /\ running w' /\
    length (gos w') = S (length (gos w)) /\
    length (ctxs w') = S (length (ctxs w)).
Proof.
  intros [Hwg Hex (l & g & Hg & Hl & Hst & Hc & Hctx)].
  assert (Hlt : (g_ctx g < length (ctxs w))%nat) by (eapply lookup_lt_Some, Hctx).
  destruct (running_restart w) as (w' & Hgo & Hrun' & _).
  { split; eauto 10. }
  exists w'. split; [exact Hgo |]. split; [exact Hrun' |].
  rewrite (seq_Ret _ _ _ _ _ (Stop_last w l g Hg Hl Hst Hc Hlt Hwg)) in Hgo.
  rewrite Start_launches in Hgo.
  - injection Hgo as <-. cbn [gos ctxs].
    rewrite Hg, !length_app, length_insert. cbn [length]. lia.
  - cbn [rerun]. now destruct (rerun w).
  - cbn [rerun]. destruct (rerun w). cbn. lia.
Qed.

Lemma handle_event_sizes env ev w :
  running w ->
  exists w',
    handle_event env ev w = Ret tt w' /\ running w' /\
    length (gos w') = S (length (gos w)) /\
    length (ctxs w') = S (length (ctxs w)).
Proof.
  intros Hw.
  replace (handle_event env ev w)
    with (handle_event env ev (watching (registered w) (logs w) w))
    by now rewrite watching_self.
  rewrite handle_event_watching.
  match goal with |- context [watching ?S ?L w] => set (wm := watching S L w) end.
  apply (restart_sizes wm). now apply running_watching.
Qed.

Lemma received_app X Y : received (X ++ Y) = (received X + received Y)%nat.
Proof. unfold received. now rewrite List.filter_app, length_app. Qed.

Lemma received_create_log env ev cl : received (create_log env ev cl) = 0%nat.
Proof.
  unfold create_log. destruct (fsnotify.has _ _); [| reflexivity].
  destruct (Stat _ _) as [f |]; [| reflexivity].
  destruct (IsDir f); [| reflexivity].
  destruct (String.eqb _ _); [reflexivity |].
  now destruct (_ || _).
Qed.

Lemma received_remove_log ev cl S : received (remove_log ev cl S) = 0%nat.
Proof.
  unfold remove_log. destruct (fsnotify.has _ _); [| reflexivity].
  now destruct (_ || _).
Qed.

(** One event handled: one goroutine, one context, one line that says so. *)
Lemma handle_event_received env ev w :
  running w ->
  exists w' X,
    handle_event env ev w = Ret tt w' /\ running w' /\
    logs w' = logs w ++ X /\ received X = 1%nat /\
    length (gos w') = S (length (gos w)) /\
    length (ctxs w') = S (length (ctxs w)) /\
    stalled w' = stalled w.
Proof.
  intros Hw.
  destruct (handle_event_running env ev w Hw)
    as (w' & Hgo & Hrun' & _ & _ & _ & Hlog & Hcl & Herr & _).
  destruct (handle_event_sizes env ev w Hw) as (w2 & Hgo2 & _ & Hg & Hc).
  rewrite Hgo in Hgo2. injection Hgo2 as <-.
  eexists w', _. split; [exact Hgo |]. split; [exact Hrun' |].
  split; [exact Hlog |].
  split; [| split; [exact Hg | split; [exact Hc | now apply stalled_watcher] ] ].
  rewrite !received_app, received_create_log, received_remove_log.
  now destruct (current w).
Qed.

(** What one delivery adds. *)
Lemma deliver_sizes d w :
  d <> Signalled -> running w ->
  exists w' X,
    deliver d w = Ret tt w' /\ running w' /\
    logs w' = logs w ++ X /\
    length (gos w') = (length (gos w) + received X)%nat /\
    length (ctxs w') = (length (ctxs w) + received X)%nat /\
    (stalled w = false -> (forall e, d <> ErrorOffered e) ->
     stalled w' = false /\ received X = (if is_event d then 1 else 0)%nat).
Proof.
  intros Hd Hw.
  assert (Hsame : forall w', running w' ->
                             logs w' = logs w -> length (gos w') = length (gos w) ->
                             length (ctxs w') = length (ctxs w) ->
                             (stalled w = false -> (forall e, d <> ErrorOffered e) ->
                              stalled w' = false) ->
                             is_event d = false ->
                             exists w'' X,
                               Ret tt w' = Ret tt w'' /\ running w'' /\
                               logs w'' = logs w ++ X /\
                               length (gos w'') = (length (gos w) + received X)%nat /\
                               length (ctxs w'') = (length (ctxs w) + received X)%nat /\
                               (stalled w = false -> (forall e, d <> ErrorOffered e) ->
                                stalled w'' = false /\
                                received X = (if is_event d then 1 else 0)%nat)).
  { intros w' H1 H2 H3 H4 H5 H6. exists w', []. rewrite app_nil_r, H6.
    split; [reflexivity |]. split; [exact H1 |]. split; [exact H2 |].
    cbn. rewrite !Nat.add_0_r. split; [exact H3 |]. split; [exact H4 |].
    intros Hs He. split; [now apply H5 | reflexivity]. }
  destruct d as [env ev | e | ok | p | | path]; cbn [deliver].
  - unfold receive.
    destruct (fsnotify.closed (watcher (rerun w))) eqn:Hcl;
      [| destruct (fsnotify.blocked (watcher (rerun w))) eqn:Hb].
    + destruct (handle_event_received env fsnotify.zero_Event w Hw)
        as (w' & X & Hgo & Hw' & Hl & Hr & Hg & Hc & Hs).
      exists w', X. rewrite Hr, Hg, Hc, Hs.
      split; [exact Hgo |]. split; [exact Hw' |]. split; [exact Hl |].
      split; [lia |]. split; [lia |]. intros -> _. now split.
    + exists w, []. rewrite app_nil_r. cbn. rewrite !Nat.add_0_r.
      split; [reflexivity |]. split; [exact Hw |]. split; [reflexivity |].
      split; [reflexivity |]. split; [reflexivity |].
      unfold stalled. rewrite Hb. discriminate.
    + destruct (handle_event_received env ev w Hw)
        as (w' & X & Hgo & Hw' & Hl & Hr & Hg & Hc & Hs).
      exists w', X. rewrite Hr, Hg, Hc, Hs.
      split; [exact Hgo |]. split; [exact Hw' |]. split; [exact Hl |].
      split; [lia |]. split; [lia |]. intros -> _. now split.
  - apply Hsame; try reflexivity.
    + destruct Hw as [Hwg Hex Hgo]. now split.
    + intros _ He. now destruct (He e).
  - destruct Hw as [Hwg Hex (l & g & Hg & Hl & Hst & Hc & Hctx)].
    destruct (tick_last ok w l g Hg Hl Hst (ctx_done_false _ _ Hctx)) as [ps Htick].
    rewrite Htick. eexists _, _.
    split; [reflexivity |]. split.
    { split; cbn [rerun gos ctxs]; [assumption | assumption |].
      eexists l, _. split; [reflexivity |]. split; [assumption |].
      cbn [g_state g_ctx]. split; [discriminate |]. now split. }
    split; [reflexivity |].
    assert (Hr : received (entering (g_state g) (Command (rerun w))) = 0%nat)
      by now destruct (g_state g).
    rewrite Hr, !Nat.add_0_r. cbn [gos ctxs is_event].
    split; [rewrite Hg, !length_app; reflexivity |].
    split; [reflexivity |]. intros Hs _. split; [exact Hs | reflexivity].
  - unfold modify. destruct (fork_frame p w) as [ps ->].
    apply Hsame; try reflexivity; [| intros Hs _; exact Hs].
    destruct Hw as [Hwg Hex Hgo]. now split.
  - now destruct Hd.
  - apply Hsame; try reflexivity.
    + destruct Hw as [Hwg Hex Hgo]. now split.
    + intros <- _. now apply stalled_watcher.
Qed.

(** X12.  Every event the loop receives launches exactly one goroutine and
    creates exactly one context; scheduling rounds, forks, dropped watches
    and subscription errors launch nothing.  After any signal-free sequence
    the numbers of goroutines and of contexts have grown by the number of
    events received, which the log counts; and when the subscription is not
    waiting on an unread error and reports none, that is the number of
    events it had for the loop. *)
Theorem one_goroutine_and_one_context_per_event ds w :
  running w ->
  Forall (fun d => d <> Signalled) ds ->
  exists w' X,
    main_loop ds w = Ret tt w' /\
    logs w' = logs w ++ X /\
    length (gos w') = (length (gos w) + received X)%nat /\
    length (ctxs w') = (length (ctxs w) + received X)%nat /\
    (stalled w = false -> Forall (fun d => forall e, d <> ErrorOffered e) ds ->
     received X = events ds).
Proof.
  intros Hw Hds. revert w Hw.
  induction Hds as [| d ds Hd _ IH]; intros w Hw.
  - exists w, []. rewrite app_nil_r. cbn. rewrite !Nat.add_0_r.
    split; [reflexivity |]. split; [reflexivity |]. split; [reflexivity |].
    split; [reflexivity |]. reflexivity.
  - destruct (deliver_sizes d w Hd Hw) as (w1 & X1 & Hrun & Hw1 & Hl1 & Hg1 & Hc1 & Hs1).
    destruct (IH w1 Hw1) as (w' & X2 & Hloop & Hl2 & Hg2 & Hc2 & Hs2).
    exists w', (X1 ++ X2).
    rewrite (main_loop_cons d ds Hd), (seq_Ret _ _ _ _ _ Hrun), received_app.
    split; [exact Hloop |]. split; [now rewrite Hl2, Hl1, app_assoc |].
    split; [lia |]. split; [lia |].
    intros Hs Hno. apply Forall_cons in Hno as [Hno1 Hno].
    destruct (Hs1 Hs Hno1) as [Hs' ->]. rewrite (Hs2 Hs' Hno).
    unfold events. cbn [List.filter]. fold (is_event d).
    now destruct (is_event d).
Qed.

Lemma one_goroutine_and_one_context_per_event_witness :
  exists w' X,
    main_loop [Received sample_env (created "/r/n"); Scheduled true;
               Received sample_env (renamed "/r/a")] started = Ret tt w' /\
    logs w' = logs started ++ X /\
    length (gos w') = (length (gos started) + received X)%nat /\
    length (ctxs w') = (length (ctxs started) + received X)%nat /\
    (stalled started = false ->
     Forall (fun d => forall e, d <> ErrorOffered e)
            [Received sample_env (created "/r/n"); Scheduled true;
             Received sample_env (renamed "/r/a")] ->
     received X = 2%nat).
Proof.
  apply (one_goroutine_and_one_context_per_event
           [Received sample_env (created "/r/n"); Scheduled true;
            Received sample_env (renamed "/r/a")] started).
  - split; [reflexivity | reflexivity |].
    exists [], {| g_ctx := 0; g_state := Spawned; g_cmd := None |}.
    repeat split; [constructor | discriminate].
  - repeat constructor; discriminate.
Defined.

(** ** When the shell cannot be started *)

(** X13.  The error of [cmd.Start()] is dropped: when the shell cannot be started,
    the goroutine still logs that the command is running and goes on to wait
    for the cancellation; the execution counts as under way although it has
    no process. *)
Theorem failed_start_goes_unnoticed w :
  running w -> current w = Spawned ->
  exists w' l g,
    tick false w = Ret tt w' /\ running w' /\
    gos w' = l ++ [g] /\ g_state g = Looping /\ g_cmd g = None /\
    logs w' = logs w ++ [StartedGoroutine; CommandIsRunning (Command (rerun w))].
Proof.
  intros [Hwg Hex (l & g & Hg & Hl & Hst & Hc & Hctx)] Hcur.
  rewrite (current_last _ _ _ Hg) in Hcur.
  destruct (tick_last false w l g Hg Hl Hst (ctx_done_false _ _ Hctx)) as [ps Htick].
  rewrite Hcur in Htick. eexists _, l, _. split; [exact Htick |].
  split.
  { split; cbn [rerun gos ctxs]; [assumption | assumption |].
    eexists l, _. split; [reflexivity |]. split; [assumption |].
    cbn [g_state g_ctx]. split; [discriminate |]. now split. }
  cbn [gos logs g_state g_cmd entering]. auto.
Qed.

Lemma failed_start_goes_unnoticed_witness :
  exists w' l g,
    tick false started = Ret tt w' /\ running w' /\
    gos w' = l ++ [g] /\ g_state g = Looping /\ g_cmd g = None /\
    logs w' = logs started
                ++ [StartedGoroutine; CommandIsRunning (Command (rerun started))].
Proof.
  apply (failed_start_goes_unnoticed started).
  - split; [reflexivity | reflexivity |].
    exists [], {| g_ctx := 0; g_state := Spawned; g_cmd := None |}.
    repeat split; [constructor | discriminate].
  - reflexivity.
Defined.

(** ** [Start] twice *)

Lemma drain_one_waiting i w :
  (forall g, gos w !! i = Some g ->
             g_state g = Returned \/ ctx_done (g_ctx g) w = false) ->
  drain_one i w = Ret tt w.
Proof.
  intros H. unfold drain_one.
  destruct (gos w !! i) as [g |] eqn:E; [| reflexivity].
  destruct (ctx_done (g_ctx g) w) eqn:Hd; [| reflexivity].
  destruct (H g eq_refl) as [Hs | Hn]; [| congruence].
  rewrite (seq_Ret _ _ _ tt w).
  - apply go_leave_idle. intros g' Hg' Hl. rewrite E in Hg'. injection Hg' as <-.
    rewrite Hs in Hl. discriminate.
  - apply go_enter_idle. intros g' Hg'. rewrite E in Hg'. injection Hg' as <-.
    rewrite Hs. discriminate.
Qed.

Lemma begun_refl gs : begun gs gs.
Proof. apply Forall2_same_length_lookup. split; [reflexivity |].
  intros i g g' H1 H2. rewrite H1 in H2. injection H2 as <-. tauto. Qed.

Lemma begun_trans gs1 gs2 gs3 : begun gs1 gs2 -> begun gs2 gs3 -> begun gs1 gs3.
Proof.
  unfold begun. rewrite !Forall2_same_length_lookup.
  intros [Hlen1 H12] [Hlen2 H23]. split; [congruence |].
  intros i g1 g3 Hg1 Hg3.
  destruct (gs2 !! i) as [g2 |] eqn:Hg2.
  - destruct (H12 i g1 g2 Hg1 Hg2) as [Hc1 Hs1].
    destruct (H23 i g2 g3 Hg2 Hg3) as [Hc2 Hs2].
    split; [congruence | tauto].
  - apply lookup_ge_None in Hg2. apply lookup_lt_Some in Hg1. lia.
Qed.

(** A goroutine that gets to run begins, and nothing else changes. *)
Lemma go_enter_begun ok i w :
  exists w',
    go_enter ok i w = Ret tt w' /\ rerun w' = rerun w /\ ctxs w' = ctxs w /\
    begun (gos w) (gos w').
Proof.
  unfold go_enter.
  destruct (gos w !! i) as [[c st p] |] eqn:E;
    [destruct st |];
    try (exists w; split; [reflexivity |]; split; [reflexivity |];
         split; [reflexivity | apply begun_refl]).
  destruct w as [r cs gs ps ls]. cbn [gos] in E.
  unfold cmd_Start, set_go. wsimpl.
  assert (Hb : forall p', begun gs (<[i := {| g_ctx := c; g_state := Looping;
                                              g_cmd := p' |}]> gs)).
  { intros p'. unfold begun.
    rewrite <- (list_insert_id gs i _ E) at 1.
    apply Forall2_insert; [apply begun_refl |].
    cbn. split; [reflexivity |]. split; discriminate. }
  destruct (ctx_done c _ || negb ok); wsimpl;
    (eexists; split; [reflexivity |]; split; [reflexivity |];
     split; [reflexivity | apply Hb]).
Qed.

Lemma for_each_begun ok l :
  forall w, exists w',
    for_each l (go_enter ok) w = Ret tt w' /\ rerun w' = rerun w /\
    ctxs w' = ctxs w /\ begun (gos w) (gos w').
Proof.
  induction l as [| i l IH]; intros w.
  - exists w. split; [reflexivity |]. split; [reflexivity |].
    split; [reflexivity | apply begun_refl].
  - destruct (go_enter_begun ok i w) as (w1 & Hrun & Hr1 & Hc1 & Hb1).
    destruct (IH w1) as (w' & Hrest & Hr2 & Hc2 & Hb2).
    exists w'. cbn [for_each]. rewrite (seq_Ret _ _ _ _ _ Hrun).
    split; [exact Hrest |]. split; [congruence |]. split; [congruence |].
    eapply begun_trans; eassumption.
Qed.

Lemma waiting_begun w w' :
  waiting w -> ctxs w' = ctxs w -> begun (gos w) (gos w') -> waiting w'.
Proof.
  unfold waiting, begun. intros Hw Hc Hb.
  rewrite Forall_lookup in Hw. apply Forall_lookup. intros i g' Hg'.
  destruct (Forall2_lookup_r _ _ _ _ _ Hb Hg') as (g & Hg & Hctx & Hst).
  unfold ctx_done in *. rewrite Hc, Hctx.
  destruct (Hw i g Hg) as [Hret | Hlive]; [left; tauto | now right].
Qed.

(** A scheduling round while every goroutine that has not returned waits on
    a context that is not done: goroutines begin, none returns. *)
Lemma tick_waiting ok w :
  waiting w ->
  exists w',
    tick ok w = Ret tt w' /\ waiting w' /\ rerun w' = rerun w /\
    ctxs w' = ctxs w /\ begun (gos w) (gos w').
Proof.
  intros Hw. unfold tick, all_gos.
  rewrite (bind_Ret _ _ w _ w) by reflexivity.
  destruct (for_each_begun ok (seq 0 (length (gos w))) w) as (w1 & Hrun & Hr1 & Hc1 & Hb1).
  rewrite (seq_Ret _ _ _ _ _ Hrun).
  assert (Hw1 : waiting w1) by (eapply waiting_begun; eassumption).
  rewrite (seq_Ret _ _ w1 tt w1).
  2:{ apply for_each_idle. intros i _. apply go_leave_idle. intros g Hg Hl.
      unfold waiting in Hw1. rewrite Forall_lookup in Hw1.
      destruct (Hw1 i g Hg) as [Hret | Hlive]; [congruence | exact Hlive]. }
  destruct (exec_watches_frame (gos w1) w1) as [ps Hps].
  exists (with_procs (fun _ => ps) w1). unfold modify. rewrite Hps.
  split; [reflexivity |]. split; [exact Hw1 |]. split; [exact Hr1 |].
  split; [exact Hc1 | exact Hb1].
Qed.

(** [Wait] blocks as long as the counter is not zero and no goroutine can
    return. *)
Lemma Wait_waiting w :
  waiting w -> WaitGroup (rerun w) <> 0 -> Wait w = Block w.
Proof.
  intros Hw Hwg. unfold Wait, drain, all_gos.
  rewrite (seq_Ret _ _ w tt w).
  - unfold mbind, M_bind, bind, gets, block.
    destruct (Z.eqb_spec (WaitGroup (rerun w)) 0); [contradiction | reflexivity].
  - rewrite (bind_Ret _ _ w _ w) by reflexivity.
    apply for_each_idle. intros i _. apply drain_one_waiting. intros g Hg.
    unfold waiting in Hw. rewrite Forall_lookup in Hw. exact (Hw i g Hg).
Qed.

(** [Start], [Start], [Stop]: the second goroutine returns, the first one
    is left with a context that nobody can cancel, and [Stop] blocks. *)
Lemma Start_twice_blocks w :
  quiet w -> exiting (rerun w) = false ->
  exists wb p,
    (Start ;; Start ;; Stop) w = Block wb /\
    WaitGroup (rerun wb) = 1 /\
    cancel (rerun wb) = Some (S (length (ctxs w))) /\
    ctxs wb = ctxs w ++ [false; true] /\
    gos wb = (gos w ++ [ {| g_ctx := length (ctxs w); g_state := Spawned;
                            g_cmd := None |} ])
               ++ [ {| g_ctx := S (length (ctxs w)); g_state := Returned;
                       g_cmd := p |} ].
Proof.
  intros [Hwg Hq] Hex.
  destruct w as [[wg cmd ex cn wt] cs gs ps ls].
  cbn [rerun WaitGroup exiting gos ctxs] in *. subst wg ex.
  match goal with |- context [(Start ;; _) ?w0] =>
    pose proof (Start_launches w0 eq_refl ltac:(cbn; lia)) as H1;
    rewrite (seq_Ret _ _ _ _ _ H1); clear H1
  end.
  match goal with |- context [(Start ;; _) ?w0] =>
    pose proof (Start_launches w0 eq_refl ltac:(cbn; lia)) as H1;
    rewrite (seq_Ret _ _ _ _ _ H1); clear H1
  end.
  wsimpl. cbn [Z.add Pos.add Pos.succ].
  rewrite length_app. cbn [length]. rewrite Nat.add_1_r.
  set (g1 := {| g_ctx := length cs; g_state := Spawned; g_cmd := None |}).
  set (g2 := {| g_ctx := S (length cs); g_state := Spawned; g_cmd := None |}).
  unfold Stop, call_cancel, ctx_cancel, Wait. wsimpl.
  assert (Hctxs : <[S (length cs) := true]> ((cs ++ [false]) ++ [false])
                  = cs ++ [false; true]).
  { rewrite <- app_assoc. cbn [app].
    rewrite insert_app_r_alt by lia.
    replace (S (length cs) - length cs)%nat with 1%nat by lia. reflexivity. }
  rewrite Hctxs.
  change (0 + 1 + 1) with 2.
  match goal with |- context [drain ?W] => set (w3 := W) end.
  assert (Hd1 : ctx_done (length cs) w3 = false).
  { unfold ctx_done, w3. cbn [ctxs].
    now rewrite lookup_app_r, Nat.sub_diag by lia. }
  assert (Hd2 : forall r gs' ps' ls',
             ctx_done (S (length cs))
               {| rerun := r; ctxs := cs ++ [false; true]; gos := gs';
                  procs := ps'; logs := ls' |} = true).
  { intros. unfold ctx_done. cbn [ctxs]. rewrite lookup_app_r by lia.
    now replace (S (length cs) - length cs)%nat with 1%nat by lia. }
  assert (Hdrain : exists w4 p,
             drain w3 = Ret tt w4 /\ WaitGroup (rerun w4) = 1 /\
             cancel (rerun w4) = Some (S (length cs)) /\
             ctxs w4 = cs ++ [false; true] /\
             gos w4 = (gs ++ [g1])
                        ++ [ {| g_ctx := S (length cs); g_state := Returned;
                                g_cmd := p |} ]).
  { unfold drain, all_gos. rewrite (bind_Ret _ _ w3 _ w3) by reflexivity.
    unfold w3 at 1. cbn [gos]. rewrite (length_app (gs ++ [g1])). cbn [length].
    rewrite Nat.add_1_r, seq_S, for_each_app. cbn [plus].
    rewrite (seq_Ret _ _ w3 tt w3).
    2: { apply for_each_idle. intros i Hi. apply drain_one_waiting.
         intros g Hg. apply elem_of_seq in Hi. unfold w3 in Hg. cbn [gos] in Hg.
         rewrite lookup_app_l in Hg by lia.
         rewrite length_app in Hi. cbn [length] in Hi.
         destruct (decide (i = length gs)) as [-> | Hne].
         - rewrite list_lookup_middle in Hg by reflexivity. injection Hg as <-.
           right. exact Hd1.
         - rewrite lookup_app_l in Hg by lia. left.
           rewrite Forall_forall in Hq. eapply Hq, list_elem_of_lookup_2, Hg. }
    cbn [for_each]. unfold drain_one, w3. wsimpl.
    rewrite list_lookup_middle by reflexivity. cbn [g_ctx g2].
    rewrite Hd2. erewrite go_enter_last by reflexivity.
    cbn [ctxs rerun procs logs]. rewrite Hd2. cbn [orb].
    erewrite go_leave_last; [| reflexivity | apply Hd2 | cbn; lia].
    eexists _, _. split; [reflexivity |].
    cbn [rerun gos ctxs WaitGroup cancel set_WaitGroup].
    split; [reflexivity |]. split; [reflexivity |]. split; reflexivity. }
  destruct Hdrain as (w4 & p4 & -> & Hwg4 & Hc4 & Hctx4 & Hg4).
  exists w4, p4. destruct w4 as [[wg4 cmd4 ex4 cn4 wt4] cs4 gs4 ps4 ls4].
  cbn [rerun WaitGroup cancel ctxs gos] in *. subst wg4 cn4 cs4 gs4.
  split; [reflexivity |]. split; [reflexivity |]. split; [reflexivity |].
  split; reflexivity.
Qed.

(** X14.  [Start] called twice with no [Stop] in between overwrites the cancel
    function of the first execution: the next [Stop] cancels the second
    context only, so the goroutine of the first execution can never return,
    and [Stop] waits for ever with the wait group at one.  However the
    other goroutines are scheduled while [Stop] waits (the first goroutine
    may begin and start its shell), the context of the first execution is
    not done, its goroutine has not returned, and [Wait] still blocks.
    Nothing but the sequencing of the controller rules this out. *)
Theorem Start_twice_makes_Stop_block w oks :
  quiet w -> exiting (rerun w) = false ->
  exists wb w',
    (Start ;; Start ;; Stop) w = Block wb /\
    main_loop (map Scheduled oks) wb = Ret tt w' /\
    Wait w' = Block w' /\
    WaitGroup (rerun w') = 1 /\
    cancel (rerun w') = Some (S (length (ctxs w))) /\
    ctx_done (length (ctxs w)) w' = false /\
    exists g, gos w' !! length (gos w) = Some g /\
              g_ctx g = length (ctxs w) /\ g_state g <> Returned.
Proof.
  intros Hquiet Hex.
  destruct (Start_twice_blocks w Hquiet Hex) as (w4 & p4 & Hblock & Hwg4 & Hc4 & Hctx4 & Hg4).
  destruct Hquiet as [_ Hq].
  set (g1 := {| g_ctx := length (ctxs w); g_state := Spawned; g_cmd := None |}) in *.
  assert (Hlive : forall w', ctxs w' = ctxs w ++ [false; true] ->
                             ctx_done (length (ctxs w)) w' = false).
  { intros w' Hw'. unfold ctx_done. rewrite Hw'.
    now rewrite lookup_app_r, Nat.sub_diag by lia. }
  (* while [Stop] waits *)
  assert (Hrounds : forall w5,
             waiting w5 -> rerun w5 = rerun w4 -> ctxs w5 = ctxs w4 ->
             begun (gos w4) (gos w5) ->
             exists w',
               main_loop (map Scheduled oks) w5 = Ret tt w' /\
               waiting w' /\ rerun w' = rerun w4 /\ ctxs w' = ctxs w4 /\
               begun (gos w4) (gos w')).
  { induction oks as [| ok oks IH]; intros w5 Hw5 Hr5 Hc5 Hb5.
    - exists w5. now repeat split.
    - destruct (tick_waiting ok w5 Hw5) as (w6 & Htick & Hw6 & Hr6 & Hc6 & Hb6).
      cbn [map]. rewrite main_loop_cons by discriminate.
      cbn [deliver]. rewrite (seq_Ret _ _ _ _ _ Htick).
      apply IH; [exact Hw6 | congruence | congruence |].
      eapply begun_trans; eassumption. }
  assert (Hw4 : waiting w4).
  { unfold waiting. rewrite Hg4. rewrite !Forall_app.
    split; [split |].
    - eapply Forall_impl; [exact Hq |]. intros g Hg. now left.
    - apply Forall_cons. split; [| constructor]. right. now apply Hlive.
    - apply Forall_cons. split; [| constructor]. now left. }
  destruct (Hrounds w4 Hw4 eq_refl eq_refl (begun_refl _))
    as (w' & Hloop & Hw' & Hr' & Hc' & Hb').
  exists w4, w'.
  assert (Hwg' : WaitGroup (rerun w') = 1) by now rewrite Hr'.
  split; [exact Hblock |]. split; [exact Hloop |].
  split; [apply Wait_waiting; [exact Hw' | rewrite Hwg'; discriminate] |].
  split; [exact Hwg' |]. split; [now rewrite Hr' |].
  split; [apply Hlive; congruence |].
  assert (Hg1 : gos w4 !! length (gos w) = Some g1).
  { rewrite Hg4, lookup_app_l by (rewrite length_app; cbn; lia).
    now rewrite list_lookup_middle. }
  destruct (Forall2_lookup_l _ _ _ _ _ Hb' Hg1) as (g & Hg & Hctx & Hst).
  exists g. split; [exact Hg |]. split; [exact Hctx |].
  intros Hret. apply Hst in Hret. discriminate Hret.
Qed.

Lemma Start_twice_makes_Stop_block_witness :
  exists wb w',
    (Start ;; Start ;; Stop) init_world = Block wb /\
    main_loop (map Scheduled [true; false]) wb = Ret tt w' /\
    Wait w' = Block w' /\
    WaitGroup (rerun w') = 1 /\
    cancel (rerun w') = Some (S (length (ctxs init_world))) /\
    ctx_done (length (ctxs init_world)) w' = false /\
    exists g, gos w' !! length (gos init_world) = Some g /\
              g_ctx g = length (ctxs init_world) /\ g_state g <> Returned.
Proof.
  apply (Start_twice_makes_Stop_block init_world [true; false]).
  - split; [reflexivity | constructor].
  - reflexivity.
Defined.

(** ** The whole run *)

Section Traversal_keeps.
Variable env : Env.

Lemma keeps_walk_entries path es :
  Forall (fun n => forall path, keeps (filepath.walk (WatchDir env) path n)) es ->
  keeps (filepath.walk_entries (filepath.walk (WatchDir env)) path es).
Proof.
  induction 1 as [| n es Hn _ IH]; cbn [filepath.walk_entries]; keeps_steps.
Qed.

Lemma keeps_walk n : forall path, keeps (filepath.walk (WatchDir env) path n).
Proof.
  induction n as [s | s es IH] using Node_tree_ind; intros path;
    cbn [filepath.walk]; keeps_steps.
  now apply keeps_walk_entries.
Qed.

End Traversal_keeps.

Lemma later_bind {A B} (m : M A) (k : A -> M B) w0 w :
  later w0 (final (m w)) -> (forall a, keeps (k a)) ->
  later w0 (final ((x ← m; k x) w)).
Proof.
  intros Hm Hk. unfold mbind, M_bind, bind.
  destruct (m w) as [a w1 | w1 | w1 | c w1]; cbn [final] in *; try exact Hm.
  eapply later_trans; [exact Hm | apply Hk].
Qed.

(** [NewRerun] stores the command line, takes a new watcher, and from there
    on only adds. *)
Lemma NewRerun_later env command w :
  later (with_rerun (fun r => set_watcher fsnotify.NewWatcher (set_Command command r)) w)
        (final (NewRerun env command w)).
Proof.
  destruct w as [[wg cmd ex cn wt] cs gs ps ls]. unfold NewRerun.
  destruct (NewWatcher_ok env).
  2:{ wsimpl. cbn [final]. split; [reflexivity | | discriminate].
      exists [CalledNewRerun; FatalWatcher]. split; [now rewrite <- app_assoc |].
      intros c Hc. rewrite !elem_of_cons, elem_of_nil in Hc.
      intuition discriminate. }
  destruct (Getwd env) as [cwd |].
  2:{ wsimpl. cbn [final]. split; [reflexivity | | auto].
      exists [CalledNewRerun; FatalGetwd]. split; [now rewrite <- app_assoc |].
      intros c Hc. rewrite !elem_of_cons, elem_of_nil in Hc.
      intuition discriminate. }
  set (W1 := {| rerun := {| WaitGroup := wg; Command := command; exiting := false;
                            cancel := cn; watcher := fsnotify.NewWatcher |};
                ctxs := cs; gos := gs; procs := ps;
                logs := (ls ++ [CalledNewRerun]) ++ [FindingSubDirs] |}).
  assert (Hrest : keeps (_err ← filepath.Walk cwd (tree env) (WatchDir env); ret tt)).
  { unfold filepath.Walk. keeps_steps. apply keeps_walk. }
  change (later (with_rerun
                   (fun r => set_watcher fsnotify.NewWatcher (set_Command command r))
                   {| rerun := {| WaitGroup := wg; Command := cmd; exiting := ex;
                                  cancel := cn; watcher := wt |};
                      ctxs := cs; gos := gs; procs := ps; logs := ls |})
                (final ((_err ← filepath.Walk cwd (tree env) (WatchDir env); ret tt) W1))).
  eapply later_trans; [| apply Hrest].
  split; [reflexivity | | auto].
  exists [CalledNewRerun; FindingSubDirs]. split; [cbn; now rewrite <- app_assoc |].
  intros c Hc. rewrite !elem_of_cons, elem_of_nil in Hc. intuition discriminate.
Qed.

Lemma main_later args env ds :
  later (with_rerun (set_Command (command_line args)) init_world)
        (final (main args env ds init_world)).
Proof.
  assert (Hnone :
            later (with_rerun (set_Command EmptyString) init_world)
                  (final ((log NoCommand ;; os_Exit 1) init_world : Outcome unit))).
  { apply (later_log_lines init_world [NoCommand]).
    intros c Hc. apply list_elem_of_singleton in Hc. discriminate. }
  assert (Hrun : forall l,
             later (with_rerun (set_Command (String.concat " " l)) init_world)
                   (final ((NewRerun env (String.concat " " l) ;;
                            Start ;; log StartingMainLoop ;; main_loop ds) init_world))).
  { intros l. apply later_bind; [apply NewRerun_later |].
    intros _. pose proof (keeps_main_loop ds). keeps_steps. }
  destruct args as [| a rest]; [exact Hnone |].
  unfold main, command_line.
  destruct (String.eqb a "--debug").
  - destruct rest as [| b rest]; [exact Hnone | apply Hrun].
  - apply Hrun.
Qed.

(** X15.  Whatever is delivered, every line that announces a running command
    names the command line of the invocation: the arguments after a leading
    --debug, joined by spaces.  No event, restart or signal changes what is
    run. *)
Theorem every_run_is_of_the_given_command args env ds c :
  CommandIsRunning c ∈ logs (final (main args env ds init_world)) ->
  c = command_line args.
Proof.
  intros Hc. destruct (later_logs _ _ (main_later args env ds)) as (X & HX & Hcmd).
  rewrite HX in Hc. cbn [logs with_rerun init_world app] in Hc.
  now apply Hcmd in Hc.
Qed.

Lemma every_run_is_of_the_given_command_witness :
  CommandIsRunning "go test"
  ∈ logs (final (main ["--debug"; "go"; "test"] sample_env
                   [Scheduled true; Received sample_env (created "/r/n"); Scheduled true]
                   init_world)) /\
  "go test" = command_line ["--debug"; "go"; "test"].
Proof.
  assert (H : CommandIsRunning "go test"
              ∈ logs (final (main ["--debug"; "go"; "test"] sample_env
                               [Scheduled true; Received sample_env (created "/r/n");
                                Scheduled true] init_world))).
  { apply list_elem_of_In. vm_compute. tauto. }
  split; [exact H |].
  exact (every_run_is_of_the_given_command _ _ _ _ H).
Defined.

(** ** No command *)

(** With a command, the first thing [main] does is to call [NewRerun]. *)
Lemma main_with_command_logs env command ds w :
  exists X,
    logs (final ((NewRerun env command ;; Start ;; log StartingMainLoop ;;
                  main_loop ds) w))
    = logs w ++ CalledNewRerun :: X.
Proof.
  assert (Hk : keeps (Start ;; log StartingMainLoop ;; main_loop ds)).
  { pose proof (keeps_main_loop ds). keeps_steps. }
  unfold mbind at 1, M_bind at 1, bind at 1.
  destruct (NewRerun_cases env command w)
    as [[_ Hrun] | [(_ & _ & Hrun) | (_ & _ & S & X & Hrun & _)]]; rewrite Hrun.
  - exists [FatalWatcher]. now destruct w.
  - exists [FatalGetwd]. now destruct w.
  - destruct (later_logs _ _ (Hk (watching S (logs w ++ [CalledNewRerun; FindingSubDirs] ++ X)
                                    (with_rerun (set_watcher fsnotify.NewWatcher)
                                       (with_rerun (fun r => set_Command command
                                                               (set_exiting false r)) w)))))
      as (Y & HY & _).
    exists ((FindingSubDirs :: X) ++ Y).
    etransitivity; [exact HY |]. cbn [logs watching with_logs].
    now rewrite <- app_assoc.
Qed.

(** X18.  [main] prints its usage message and exits with status 1, having done
    nothing else (no watcher, no goroutine, no process), exactly when no
    command is given: with no argument, or with --debug alone.  Any other
    argument list, an empty string included, is taken for a command. *)
Theorem main_without_command_exits args env ds w :
  main args env ds w = Exit 1 (with_logs (fun ls => ls ++ [NoCommand]) w)
  <-> args = [] \/ args = ["--debug"].
Proof.
  split; [| intros [-> | ->]; reflexivity].
  intros Hexit.
  assert (Hno : forall command,
             (NewRerun env command ;; Start ;; log StartingMainLoop ;; main_loop ds) w
             <> Exit 1 (with_logs (fun ls => ls ++ [NoCommand]) w)).
  { intros command Heq.
    destruct (main_with_command_logs env command ds w) as [X HX].
    rewrite Heq in HX. cbn [final logs with_logs] in HX.
    apply app_inv_head in HX. discriminate HX. }
  destruct args as [| a rest]; [now left |].
  unfold main in Hexit.
  destruct (String.eqb_spec a "--debug") as [-> | Hne].
  - destruct rest as [| b rest]; [now right |]. now apply Hno in Hexit.
  - now apply Hno in Hexit.
Qed.

Lemma main_without_command_exits_witness :
  main ["--debug"] sample_env [Received sample_env (created "/r/n")] init_world
  = Exit 1 (with_logs (fun ls => ls ++ [NoCommand]) init_world).
Proof.
  apply (proj2 (main_without_command_exits ["--debug"] sample_env
                  [Received sample_env (created "/r/n")] init_world)).
  right. reflexivity.
Defined.
